(** * The world-state server of cp-mmorpg (src/server.js)

    A shallow embedding of the sprite catalog, the player registry, the
    movement and animation model, the game loop and the message handlers of
    [src/server.js], and the properties of the specification checked
    against them.

    Conventions of the embedding.
    - In the handlers and in the game loop, the JavaScript numbers that
      hold coordinates are real numbers [R]: the coordinates a move command
      carries are numbers, and the arithmetic is read without rounding.
      The module [Binary64] embeds the numeric core ([clamp], [distance],
      [movePlayerTowards], the loop body, the click-to-move branch) once
      more over IEEE 754 doubles, with [NaN]; what depends on rounding or
      on a coordinate that is not a number is stated there.  Timestamps
      ([Date.now()]) and frame counters are integers [Z].
    - The object [spriteDatabase] is the finite map of its own properties
      together with its prototype: reads go through the prototype chain,
      and an assignment to ["__proto__"] replaces the prototype.  The
      object [players] is the finite map of its own properties, keyed by
      the ids of the sessions, and the [Map] [connections] is a finite map
      from session ids to the ready state of the socket.  A loop over one
      of them visits its entries in the order of [map_to_list].
    - The global state is threaded through a state-and-exception monad; an
      exception leaves the mutations made before it in place, as in the
      source.
    - What the server sends is appended to [outbox], one entry per
      [ws.send], with the id of the receiving session.
    - [Math.random()] and [Date.now()] are inputs of the operations that
      call them. *)

From Stdlib Require Import Reals Lra Lia ZArith String Ascii List DecimalString.
From Stdlib Require PrimFloat.
From stdpp Require Import gmap strings list fin_maps.

Local Open Scope string_scope.
Local Open Scope list_scope.

(** ** World constants *)

Module world.
Definition width : R := 4096%R.
Definition height : R := 4096%R.
End world.

Definition SPRITES_DIR : string := "sprites".

(** ** Data model *)

Module Facing.
Inductive t := north | south | east | west.
End Facing.

Record Player := {
  id : string;
  x : R;
  y : R;
  sprite : string;
  facing : Facing.t;
  isMoving : bool;
  username : string;
  targetX : option R;
  targetY : option R;
  animationFrame : Z;
  lastAnimationUpdate : Z
}.

Record Frames := {
  north : list string;
  south : list string;
  east : list string;
  west : list string
}.

Record Sprite := {
  name : string;
  frames : Frames;
  lastModified : Z;
  custom : bool
}.

(** [ws.readyState] *)
Inductive ReadyState := CONNECTING | OPEN | CLOSING | CLOSED.

#[global] Instance ReadyState_eq_dec : EqDecision ReadyState.
Proof. solve_decision. Defined.

(** The payload that [Object.assign] spreads into a response or an update. *)
Inductive Payload :=
| NoData
| SpritesData (sprites : gmap string Sprite)
| SpriteData (sprite : Sprite)
| JoinData (playerId : string) (worldState : gmap string Player)
| PlayerData (player : Player).

Inductive Message :=
| Response (action : string) (success : bool) (data : Payload) (error : option string)
| Update (category action : string) (data : Payload).

(** A sprite folder of the asset store: its modification time and the files
    in it (file name to the base64 text its bytes were decoded from). *)
Record Folder := {
  mtime : Z;
  files : gmap string string
}.

(** The asset store below [SPRITES_DIR]; [None] when the directory does not
    exist. *)
Definition FileSystem := option (gmap string Folder).

(** The global state of the server: the registry, the catalog (the own
    properties of the object [spriteDatabase], and its prototype when an
    assignment to ["__proto__"] has put a sprite in the place of
    [Object.prototype]; [None] is [Object.prototype]), the sessions, the
    asset store, the snapshots of the catalog written to [SPRITES_DB_FILE]
    (oldest first), and what was sent so far. *)
Record World := {
  players : gmap string Player;
  spriteDatabase : gmap string Sprite;
  spritePrototype : option Sprite;
  connections : gmap string ReadyState;
  fs : FileSystem;
  spritesDbFile : list (gmap string Sprite);
  outbox : list (string * Message)
}.

(** Field updates of the mutable records. *)
Definition set_x (v : R) (p : Player) : Player :=
  {| id := id p; x := v; y := y p; sprite := sprite p; facing := facing p;
     isMoving := isMoving p; username := username p; targetX := targetX p;
     targetY := targetY p; animationFrame := animationFrame p;
     lastAnimationUpdate := lastAnimationUpdate p |}.
Definition set_y (v : R) (p : Player) : Player :=
  {| id := id p; x := x p; y := v; sprite := sprite p; facing := facing p;
     isMoving := isMoving p; username := username p; targetX := targetX p;
     targetY := targetY p; animationFrame := animationFrame p;
     lastAnimationUpdate := lastAnimationUpdate p |}.
Definition set_sprite (v : string) (p : Player) : Player :=
  {| id := id p; x := x p; y := y p; sprite := v; facing := facing p;
     isMoving := isMoving p; username := username p; targetX := targetX p;
     targetY := targetY p; animationFrame := animationFrame p;
     lastAnimationUpdate := lastAnimationUpdate p |}.
Definition set_facing (v : Facing.t) (p : Player) : Player :=
  {| id := id p; x := x p; y := y p; sprite := sprite p; facing := v;
     isMoving := isMoving p; username := username p; targetX := targetX p;
     targetY := targetY p; animationFrame := animationFrame p;
     lastAnimationUpdate := lastAnimationUpdate p |}.
Definition set_isMoving (v : bool) (p : Player) : Player :=
  {| id := id p; x := x p; y := y p; sprite := sprite p; facing := facing p;
     isMoving := v; username := username p; targetX := targetX p;
     targetY := targetY p; animationFrame := animationFrame p;
     lastAnimationUpdate := lastAnimationUpdate p |}.
Definition set_targetX (v : option R) (p : Player) : Player :=
  {| id := id p; x := x p; y := y p; sprite := sprite p; facing := facing p;
     isMoving := isMoving p; username := username p; targetX := v;
     targetY := targetY p; animationFrame := animationFrame p;
     lastAnimationUpdate := lastAnimationUpdate p |}.
Definition set_targetY (v : option R) (p : Player) : Player :=
  {| id := id p; x := x p; y := y p; sprite := sprite p; facing := facing p;
     isMoving := isMoving p; username := username p; targetX := targetX p;
     targetY := v; animationFrame := animationFrame p;
     lastAnimationUpdate := lastAnimationUpdate p |}.
Definition set_animationFrame (v : Z) (p : Player) : Player :=
  {| id := id p; x := x p; y := y p; sprite := sprite p; facing := facing p;
     isMoving := isMoving p; username := username p; targetX := targetX p;
     targetY := targetY p; animationFrame := v;
     lastAnimationUpdate := lastAnimationUpdate p |}.
Definition set_lastAnimationUpdate (v : Z) (p : Player) : Player :=
  {| id := id p; x := x p; y := y p; sprite := sprite p; facing := facing p;
     isMoving := isMoving p; username := username p; targetX := targetX p;
     targetY := targetY p; animationFrame := animationFrame p;
     lastAnimationUpdate := v |}.

Definition set_players (v : gmap string Player) (w : World) : World :=
  {| players := v; spriteDatabase := spriteDatabase w;
     spritePrototype := spritePrototype w; connections := connections w;
     fs := fs w; spritesDbFile := spritesDbFile w; outbox := outbox w |}.
Definition set_spriteDatabase (v : gmap string Sprite) (w : World) : World :=
  {| players := players w; spriteDatabase := v;
     spritePrototype := spritePrototype w; connections := connections w;
     fs := fs w; spritesDbFile := spritesDbFile w; outbox := outbox w |}.
Definition set_spritePrototype (v : option Sprite) (w : World) : World :=
  {| players := players w; spriteDatabase := spriteDatabase w;
     spritePrototype := v; connections := connections w;
     fs := fs w; spritesDbFile := spritesDbFile w; outbox := outbox w |}.
Definition set_fs (v : FileSystem) (w : World) : World :=
  {| players := players w; spriteDatabase := spriteDatabase w;
     spritePrototype := spritePrototype w; connections := connections w;
     fs := v; spritesDbFile := spritesDbFile w; outbox := outbox w |}.
Definition set_spritesDbFile (v : list (gmap string Sprite)) (w : World) : World :=
  {| players := players w; spriteDatabase := spriteDatabase w;
     spritePrototype := spritePrototype w; connections := connections w;
     fs := fs w; spritesDbFile := v; outbox := outbox w |}.
Definition set_outbox (v : list (string * Message)) (w : World) : World :=
  {| players := players w; spriteDatabase := spriteDatabase w;
     spritePrototype := spritePrototype w; connections := connections w;
     fs := fs w; spritesDbFile := spritesDbFile w; outbox := v |}.

(** ** The monad of the handlers: global state and exceptions *)

Inductive Outcome (A : Type) :=
| Return (a : A)
| Throw (message : string).
Arguments Return {A} a.
Arguments Throw {A} message.

Definition M (A : Type) : Type := World → Outcome A * World.

#[global] Instance M_ret : MRet M := λ A a w, (Return a, w).
#[global] Instance M_bind : MBind M := λ A B k m w,
  match m w with
  | (Return a, w') => k a w'
  | (Throw e, w') => (Throw e, w')
  end.

Definition throw {A} (e : string) : M A := λ w, (Throw e, w).
Definition get : M World := λ w, (Return w, w).
Definition modify (f : World → World) : M unit := λ w, (Return tt, f w).

(** [try { body } catch (error) { handler(error.message) }] *)
Definition try_catch {A} (body : M A) (handler : string → M A) : M A := λ w,
  match body w with
  | (Return a, w') => (Return a, w')
  | (Throw e, w') => handler e w'
  end.

(** [for (const a of l) body(a)] and [l.forEach(body)] *)
Fixpoint forEach {A} (l : list A) (body : A → M unit) : M unit :=
  match l with
  | [] => mret tt
  | a :: l' => body a;; forEach l' body
  end.

(** A loop that carries a local variable. *)
Fixpoint foldM {A S} (l : list A) (body : S → A → M S) (s : S) : M S :=
  match l with
  | [] => mret s
  | a :: l' => s' ← body s a; foldM l' body s'
  end.

(** The double quote, for the texts that carry one. *)
Definition dquote : string := String (ascii_of_nat 34) EmptyString.

(** A JavaScript string is truthy when it is not empty. *)
Definition truthy (s : string) : bool :=
  match s with EmptyString => false | String _ _ => true end.

(** ** Sending *)

(** [ws.send(JSON.stringify(data))] on the socket of [playerId] *)
Definition send (playerId : string) (data : Message) : M unit :=
  modify (λ w, set_outbox (outbox w ++ [(playerId, data)]) w).

Definition isOpen (ws : ReadyState) : bool :=
  match ws with OPEN => true | _ => false end.

Definition broadcast (data : Message) (excludePlayerId : option string) : M unit :=
  w ← get;
  forEach (map_to_list (connections w)) (λ '(playerId, ws),
    if bool_decide (Some playerId ≠ excludePlayerId) && isOpen ws
    then send playerId data
    else mret tt).

Definition sendToPlayer (playerId : string) (data : Message) : M unit :=
  w ← get;
  match connections w !! playerId with
  | Some ws => if isOpen ws then send playerId data else mret tt
  | None => mret tt
  end.

Definition sendResponse (playerId action : string) (success : bool)
    (responseData : Payload) (error : option string) : M unit :=
  let response :=
    Response action success
      (if success then responseData else NoData)
      (if negb success then error else None) in
  sendToPlayer playerId response.

Definition broadcastUpdate (category action : string) (updateData : Payload)
    (excludePlayerId : option string) : M unit :=
  broadcast (Update category action updateData) excludePlayerId.

(** ** Sprite catalog *)

(** [`${direction}_${frame}.png`], the name of a frame file in its folder *)
Definition frameFile (direction : string) (frame : nat) : string :=
  direction +:+ "_" +:+ NilEmpty.string_of_uint (Nat.to_uint frame) +:+ ".png".

(** [`sprites/${spriteName}/${direction}_${frame}.png`] *)
Definition frameRef (spriteName direction : string) (frame : nat) : string :=
  "sprites/" +:+ spriteName +:+ "/" +:+ frameFile direction frame.

(** [fs.existsSync(imagePath)] for a frame file of a sprite folder *)
Definition existsSync (folder : Folder) (file : string) : bool :=
  bool_decide (is_Some (files folder !! file)).

(** The loop over [frame = 1 .. 3] of one direction. *)
Definition scanDirection (folder : Folder) (spriteName direction : string) : list string :=
  foldl (λ found frame,
           if existsSync folder (frameFile direction frame)
           then found ++ [frameRef spriteName direction frame]
           else found)
        [] [1; 2; 3]%nat.

(** [frames[dir] && frames[dir].length > 0] for north, south and east *)
Definition hasRequiredSprites (f : Frames) : bool :=
  forallb (λ dir : list string, (0 <? length dir)%nat) [north f; south f; east f].

(** *** Reading and writing the object [spriteDatabase]

    [spriteDatabase] is a plain object: a read [spriteDatabase[key]] that
    finds no own property goes on to the prototype chain, and an
    assignment to ["__proto__"] calls the setter that [Object.prototype]
    has under that name, which replaces the prototype and adds no own
    property. *)

(** The properties every plain object inherits from [Object.prototype].
    Each reads as a function, [__proto__] as the prototype itself: all of
    them truthy, none of them with a [lastModified]. *)
Definition objectPrototypeNames : list string :=
  ["constructor"; "__defineGetter__"; "__defineSetter__"; "hasOwnProperty";
   "__lookupGetter__"; "__lookupSetter__"; "isPrototypeOf";
   "propertyIsEnumerable"; "toString"; "valueOf"; "__proto__";
   "toLocaleString"].

(** The catalog object: its own properties and the sprite that is its
    prototype, if one was put there. *)
Definition Catalog : Type := gmap string Sprite * option Sprite.

(** Truthiness of [sprite[key]] for a property the sprite object has of
    its own: a name that is not empty, the frames, a time stamp that is
    not 0, the [custom] mark of an upload. *)
Definition spriteHasTruthy (sprite : Sprite) (key : string) : bool :=
  String.eqb key "name" && truthy (name sprite)
  || String.eqb key "frames"
  || String.eqb key "lastModified" && negb (lastModified sprite =? 0)%Z
  || String.eqb key "custom" && custom sprite.

(** Truthiness of [prototype[key]] for a key that [Object.prototype] does
    not have. *)
Definition inheritsTruthy (prototype : option Sprite) (key : string) : bool :=
  match prototype with
  | Some sprite => spriteHasTruthy sprite key
  | None => false
  end.

(** Truthiness of [spriteDatabase[key]]: an own entry, a property of
    [Object.prototype], or a truthy property of the sprite that is the
    prototype. *)
Definition readsTruthy (c : Catalog) (key : string) : bool :=
  bool_decide (is_Some (c.1 !! key))
  || bool_decide (key ∈ objectPrototypeNames)
  || inheritsTruthy c.2 key.

(** [spriteDatabase[key]] when what it reads is a sprite: the own entry
    or, for ["__proto__"], the sprite that is the prototype.  Whatever
    else a read may find (a function, a string, a number, the frames) has
    no [lastModified]. *)
Definition readSprite (c : Catalog) (key : string) : option Sprite :=
  match c.1 !! key with
  | Some existingSprite => Some existingSprite
  | None => if bool_decide (key = "__proto__") then c.2 else None
  end.

(** [spriteDatabase[key] = spriteData]: an own entry is replaced; without
    one, ["__proto__"] reaches the setter of [Object.prototype], and any
    other key becomes an own entry. *)
Definition assignSprite (key : string) (spriteData : Sprite) (c : Catalog) : Catalog :=
  if bool_decide (key = "__proto__") && negb (bool_decide (is_Some (c.1 !! key)))
  then (c.1, Some spriteData)
  else (<[key := spriteData]> c.1, c.2).

Definition catalog (w : World) : Catalog := (spriteDatabase w, spritePrototype w).

Definition set_catalog (c : Catalog) (w : World) : World :=
  set_spritePrototype c.2 (set_spriteDatabase c.1 w).

(** The body of the loop over the sprite folders; the state it carries is
    the catalog and [newSpritesFound].  A scanned entry has no [custom]
    property, which reads as [false]. *)
Definition scanSprite (st : Catalog * nat) (entry : string * Folder)
    : Catalog * nat :=
  let '(c, newSpritesFound) := st in
  let '(spriteName, folder) := entry in
  let skip :=
    match readSprite c spriteName with
    | Some existingSprite => bool_decide (mtime folder ≤ lastModified existingSprite)%Z
    | None => false
    end in
  if skip then st
  else
    let eastFrames := scanDirection folder spriteName "east" in
    let spriteData :=
      {| name := spriteName;
         frames := {| north := scanDirection folder spriteName "north";
                      south := scanDirection folder spriteName "south";
                      east := eastFrames;
                      west := eastFrames |};
         lastModified := mtime folder;
         custom := false |} in
    if hasRequiredSprites (frames spriteData)
    then (assignSprite spriteName spriteData c, S newSpritesFound)
    else st.

(** [JSON.stringify(spriteDatabase)] writes the own properties. *)
Definition saveSpriteDatabase : M unit :=
  modify (λ w, set_spritesDbFile (spritesDbFile w ++ [spriteDatabase w]) w).

Definition scanSpritesDirectory : M unit :=
  w ← get;
  match fs w with
  | None => mret tt
  | Some spriteFolders =>
      let '(c, newSpritesFound) :=
        foldl scanSprite (catalog w, 0%nat) (map_to_list spriteFolders) in
      modify (set_catalog c);;
      if (0 <? newSpritesFound)%nat then saveSpriteDatabase else mret tt
  end.

(** The values an upload carries.  A frame payload is a string or some
    other JSON value, on which [.replace] is not a function; the value of a
    direction is an array of payloads or something else. *)
Inductive JsValue :=
| JString (s : string)
| JOther (* a number, a boolean, an array or an object *).
Inductive JsField := JArray (items : list JsValue) | JNotArray.

(** The entries of [imageData], in the order of [Object.entries]; [None]
    stands for [undefined] and [null]. *)
Definition ImageData := option (list (string * JsField)).

(** [s.replace(/^data:image\/[a-z]+;base64,/, '')] *)
Definition isLower (c : ascii) : bool :=
  (97 <=? nat_of_ascii c)%nat && (nat_of_ascii c <=? 122)%nat.

Fixpoint dropLower (s : string) : string :=
  match s with
  | String c s' => if isLower c then dropLower s' else s
  | EmptyString => s
  end.

Definition stripPrefix (pre s : string) : option string :=
  if String.prefix pre s
  then Some (String.substring (String.length pre) (String.length s - String.length pre) s)
  else None.

Definition stripDataUrl (s : string) : string :=
  match stripPrefix "data:image/" s with
  | Some rest =>
      match rest with
      | String c _ =>
          if isLower c then
            match stripPrefix ";base64," (dropLower rest) with
            | Some payload => payload
            | None => s
            end
          else s
      | EmptyString => s
      end
  | None => s
  end.

(** [fs.existsSync(spritePath) || fs.mkdirSync(spritePath, recursive)];
    a new folder takes the current time as its modification time. *)
Definition mkdirIfMissing (now : Z) (spriteName : string) : M unit :=
  modify (λ w,
    let dir := default ∅ (fs w) in
    match dir !! spriteName with
    | Some _ => w
    | None => set_fs (Some (<[spriteName := {| mtime := now; files := ∅ |}]> dir)) w
    end).

(** [fs.writeFileSync(imagePath, buffer)] in the folder of [spriteName];
    the folder keeps the modification time it had. *)
Definition writeFileSync (spriteName file content : string) : M unit :=
  modify (λ w,
    let dir := default ∅ (fs w) in
    let folder := default {| mtime := 0; files := ∅ |} (dir !! spriteName) in
    set_fs (Some (<[spriteName :=
                     {| mtime := mtime folder;
                        files := <[file := content]> (files folder) |}]> dir)) w).

Definition pushFrame (direction ref : string) (f : Frames) : Frames :=
  if String.eqb direction "north" then
    {| north := north f ++ [ref]; south := south f; east := east f; west := west f |}
  else if String.eqb direction "south" then
    {| north := north f; south := south f ++ [ref]; east := east f; west := west f |}
  else if String.eqb direction "east" then
    {| north := north f; south := south f; east := east f ++ [ref]; west := west f |}
  else f.

Definition isUploadDirection (direction : string) : bool :=
  bool_decide (direction ∈ ["north"; "south"; "east"]).

(** The callback of [frameArray.forEach]: decode, write, record. *)
Definition uploadFrame (spriteName direction : string) (st : Frames * nat)
    (base64Data : JsValue) : M (Frames * nat) :=
  let '(f, index) := st in
  let frameNumber := S index in
  match base64Data with
  | JOther => throw "base64Data.replace is not a function"
  | JString s =>
      writeFileSync spriteName (frameFile direction frameNumber) (stripDataUrl s);;
      mret (pushFrame direction (frameRef spriteName direction frameNumber) f,
            frameNumber)
  end.

Definition uploadDirection (spriteName : string) (f : Frames)
    (entry : string * JsField) : M Frames :=
  let '(direction, frameArray) := entry in
  match frameArray with
  | JArray items =>
      if isUploadDirection direction
      then '(f', _) ← foldM items (uploadFrame spriteName direction) (f, 0%nat);
           mret f'
      else mret f
  | JNotArray => mret f
  end.

Definition addCustomSprite (now : Z) (spriteName : option string)
    (imageData : ImageData) : M Sprite :=
  match spriteName with
  | None =>
      throw ("The " +:+ dquote +:+ "path" +:+ dquote +:+
             " argument must be of type string. Received undefined")
  | Some spriteName =>
      mkdirIfMissing now spriteName;;
      match imageData with
      | None => throw "Cannot convert undefined or null to object"
      | Some entries =>
          f ← foldM entries (uploadDirection spriteName)
                {| north := []; south := []; east := []; west := [] |};
          let spriteData :=
            {| name := spriteName;
               frames := {| north := north f; south := south f;
                            east := east f; west := east f |};
               lastModified := now;
               custom := true |} in
          w ← get;
          modify (set_catalog (assignSprite spriteName spriteData (catalog w)));;
          saveSpriteDatabase;;
          broadcastUpdate "sprite" "added" (SpriteData spriteData) None;;
          mret spriteData
      end
  end.

(** ** Movement and animation model *)

Local Open Scope R_scope.

Definition clamp (value min max : R) : R := Rmin (Rmax value min) max.

Definition distance (x1 y1 x2 y2 : R) : R :=
  sqrt ((x2 - x1) ^ 2 + (y2 - y1) ^ 2).

(** [movePlayerTowards] mutates the player it is given; here it returns the
    mutated player with its result. *)
Definition movePlayerTowards (player : Player) (tX tY speed : R) : Player * bool :=
  let dist := distance (x player) (y player) tX tY in
  if Rle_dec dist speed then
    (set_isMoving false (set_y tY (set_x tX player)), true)
  else
    let ratio := speed / dist in
    let oldX := x player in
    let oldY := y player in
    let newX := x player + (tX - x player) * ratio in
    let newY := y player + (tY - y player) * ratio in
    let deltaX := newX - oldX in
    let deltaY := newY - oldY in
    let newFacing :=
      if Rgt_dec (Rabs deltaX) (Rabs deltaY)
      then (if Rgt_dec deltaX 0 then Facing.east else Facing.west)
      else (if Rgt_dec deltaY 0 then Facing.south else Facing.north) in
    (set_isMoving true
       (set_y (clamp newY 0 (world.height - 50))
          (set_x (clamp newX 0 (world.width - 50))
             (set_facing newFacing player))),
     false).

(** [animationFrame = (animationFrame + 1) % 3; lastAnimationUpdate = now] *)
Definition advanceFrame (now : Z) (player : Player) : Player :=
  set_lastAnimationUpdate now
    (set_animationFrame ((animationFrame player + 1) mod 3)%Z player).

(** The body of the first loop of the game loop, for one player, with what
    it contributes to [hasUpdates]. *)
Definition tickPlayer (now : Z) (player : Player) : Player * bool :=
  match targetX player, targetY player with
  | Some tX, Some tY =>
      let '(player, reached) := movePlayerTowards player tX tY 3 in
      let player :=
        if reached then
          set_animationFrame 0%Z
            (set_isMoving false (set_targetY None (set_targetX None player)))
        else if (200 <? now - lastAnimationUpdate player)%Z
             then advanceFrame now player
             else player in
      (player, true)
  | _, _ =>
      if negb (isMoving player) && (1000 <? now - lastAnimationUpdate player)%Z
      then (advanceFrame now player, true)
      else (player, false)
  end.

(** [targetX !== null || targetY !== null || isMoving] *)
Definition needsBroadcast (player : Player) : bool :=
  bool_decide (is_Some (targetX player)) || bool_decide (is_Some (targetY player))
  || isMoving player.

(** The callback of [setInterval(..., 50)].  The first loop touches each
    player on its own, so it is a map over the registry; [hasUpdates] is
    set when some iteration set it. *)
Definition gameLoop (now : Z) : M unit :=
  w ← get;
  let ticked := tickPlayer now <$> players w in
  let hasUpdates := existsb snd (snd <$> map_to_list ticked) in
  modify (set_players (fst <$> ticked));;
  if hasUpdates then
    w ← get;
    forEach (map_to_list (players w)) (λ '(playerId, player),
      if needsBroadcast player
      then broadcastUpdate "player" "moved" (PlayerData player) None
      else mret tt)
  else mret tt.

(** ** Player handlers *)

Module PlayerInfo.
Record t := { sprite : option string; username : option string }.
End PlayerInfo.

Module Movement.
(** [stop] is the truthiness of [movement.stop]; a field that is
    [undefined] is [None]; [x] and [y], when present, are numbers
    ([Binary64.Coordinate] has the values that are not). *)
Record t := {
  stop : bool;
  direction : option string;
  x : option R;
  y : option R
}.
End Movement.

(** [movement.direction] when it is truthy *)
Definition truthyDirection (movement : Movement.t) : option string :=
  match Movement.direction movement with
  | Some direction => if truthy direction then Some direction else None
  | None => None
  end.

Definition setPlayer (playerId : string) (player : Player) : M unit :=
  w ← get; modify (set_players (<[playerId := player]> (players w))).

(** [rx] and [ry] are the two results of [Math.random()], [now] that of
    [Date.now()]. *)
Definition handlePlayerJoin (rx ry : R) (now : Z) (playerId : string)
    (playerInfo : option PlayerInfo.t) : M unit :=
  w ← get;
  match players w !! playerId with
  | None =>
      match playerInfo with
      | None => throw "Cannot read properties of undefined (reading 'sprite')"
      | Some info =>
          let spriteName :=
            match PlayerInfo.sprite info with
            | Some s =>
                if truthy s && readsTruthy (catalog w) s
                then s else "default"%string
            | None => "default"%string
            end in
          setPlayer playerId
            {| id := playerId;
               x := IZR (Int_part (rx * (world.width - 50)));
               y := IZR (Int_part (ry * (world.height - 50)));
               sprite := spriteName;
               facing := Facing.south;
               isMoving := false;
               username :=
                 match PlayerInfo.username info with
                 | Some u => if truthy u then u
                             else "Player" +:+ String.substring 0 4 playerId
                 | None => "Player" +:+ String.substring 0 4 playerId
                 end;
               targetX := None;
               targetY := None;
               animationFrame := 0%Z;
               lastAnimationUpdate := now |}
      end
  | Some _ => mret tt
  end;;
  w ← get;
  sendResponse playerId "join" true (JoinData playerId (players w)) None;;
  broadcastUpdate "player" "joined"
    (match players w !! playerId with Some p => PlayerData p | None => NoData end)
    (Some playerId).

Definition handlePlayerMove (now : Z) (playerId : string)
    (movement : option Movement.t) : M unit :=
  w ← get;
  match players w !! playerId with
  | None => mret tt
  | Some player =>
      match movement with
      | None => throw "Cannot read properties of undefined (reading 'stop')"
      | Some movement =>
          if Movement.stop movement then
            let player :=
              set_animationFrame 0%Z
                (set_targetY None (set_targetX None (set_isMoving false player))) in
            setPlayer playerId player;;
            broadcastUpdate "player" "moved" (PlayerData player) None
          else
            match truthyDirection movement with
            | Some direction =>
                let speed := 15 in
                let '(newX, newY, newFacing) :=
                  if String.eqb direction "up" then
                    (x player, Rmax 0 (y player - speed), Facing.north)
                  else if String.eqb direction "down" then
                    (x player, Rmin (world.height - 50) (y player + speed), Facing.south)
                  else if String.eqb direction "left" then
                    (Rmax 0 (x player - speed), y player, Facing.west)
                  else if String.eqb direction "right" then
                    (Rmin (world.width - 50) (x player + speed), y player, Facing.east)
                  else (x player, y player, facing player) in
                let player :=
                  set_targetY None (set_targetX None (set_isMoving true
                    (set_facing newFacing (set_y newY (set_x newX player))))) in
                let player :=
                  if (200 <? now - lastAnimationUpdate player)%Z
                  then advanceFrame now player
                  else player in
                setPlayer playerId player;;
                broadcastUpdate "player" "moved" (PlayerData player) None
            | None =>
                match Movement.x movement, Movement.y movement with
                | Some mx, Some my =>
                    setPlayer playerId
                      (set_targetY (Some (clamp (my - 25) 0 (world.height - 50)))
                         (set_targetX (Some (clamp (mx - 25) 0 (world.width - 50)))
                            player))
                | _, _ => mret tt
                end
            end
      end
  end.

Definition handlePlayerChangeSprite (playerId : string)
    (spriteName : option string) : M unit :=
  w ← get;
  let known :=
    match spriteName with
    | Some s => truthy s && readsTruthy (catalog w) s
    | None => false
    end in
  match players w !! playerId, spriteName, known with
  | Some player, Some s, true =>
      let player := set_animationFrame 0%Z (set_sprite s player) in
      setPlayer playerId player;;
      sendResponse playerId "change_sprite" true NoData None;;
      broadcastUpdate "player" "changed_sprite" (PlayerData player) None
  | _, _, _ =>
      sendResponse playerId "change_sprite" false NoData
        (Some match spriteName with
              | Some s => if truthy s
                          then "Sprite " +:+ dquote +:+ s +:+ dquote +:+ " does not exist"
                          else "No sprite specified"%string
              | None => "No sprite specified"%string
              end)
  end.

(** ** Dispatch *)

(** A decoded client message; a property that is [undefined] is [None]. *)
Record ClientData := {
  type : option string;
  action : option string;
  spriteName : option string;
  spriteFrames : ImageData;
  playerInfo : option PlayerInfo.t;
  movement : option Movement.t
}.

(** [data.action || 'unknown'] *)
Definition actionOrUnknown (data : ClientData) : string :=
  match action data with
  | Some a => if truthy a then a else "unknown"%string
  | None => "unknown"%string
  end.

Definition handleSpriteMessage (now : Z) (playerId : string) (data : ClientData) : M unit :=
  match action data with
  | Some "list"%string =>
      w ← get;
      sendResponse playerId "list" true (SpritesData (spriteDatabase w)) None
  | Some "upload"%string =>
      try_catch
        (newSprite ← addCustomSprite now (spriteName data) (spriteFrames data);
         sendResponse playerId "upload" true (SpriteData newSprite) None)
        (λ message, sendResponse playerId "upload" false NoData (Some message))
  | _ =>
      sendResponse playerId (actionOrUnknown data) false NoData
        (Some "Unknown sprite action"%string)
  end.

Definition handlePlayerMessage (rx ry : R) (now : Z) (playerId : string)
    (data : ClientData) : M unit :=
  match action data with
  | Some "join"%string => handlePlayerJoin rx ry now playerId (playerInfo data)
  | Some "move"%string => handlePlayerMove now playerId (movement data)
  | Some "change_sprite"%string => handlePlayerChangeSprite playerId (spriteName data)
  | _ =>
      sendResponse playerId (actionOrUnknown data) false NoData
        (Some "Unknown player action"%string)
  end.

(** [ws.on('message', ...)] for the session [playerId]; [None] is a message
    that [JSON.parse] rejects. *)
Definition onMessage (rx ry : R) (now : Z) (playerId : string)
    (message : option ClientData) : M unit :=
  try_catch
    match message with
    | None => throw "Unexpected token"
    | Some data =>
        match type data with
        | Some "sprite"%string => handleSpriteMessage now playerId data
        | Some "player"%string => handlePlayerMessage rx ry now playerId data
        | other =>
            sendResponse playerId "unknown" false NoData
              (Some ("Unknown message type: " +:+ default "undefined"%string other))
        end
    end
    (λ _, sendResponse playerId "error" false NoData (Some "Invalid message format"%string)).

(** Running a handler from a state: the state it leaves. *)
Definition exec {A} (m : M A) (w : World) : World := snd (m w).
Definition result {A} (m : M A) (w : World) : Outcome A := fst (m w).

(** The messages of [out] that were sent to [playerId]. *)
Definition received (playerId : string) (out : list (string * Message)) : list Message :=
  snd <$> filter (λ e, fst e = playerId) out.

(** The sessions a broadcast reaches: the open ones, the excluded id
    apart. *)
Definition reaches (excludePlayerId : option string) (e : string * ReadyState) : bool :=
  bool_decide (Some (fst e) ≠ excludePlayerId) && isOpen (snd e).

Definition recipients (conns : gmap string ReadyState)
    (excludePlayerId : option string) : list string :=
  fst <$> List.filter (reaches excludePlayerId) (map_to_list conns).

Definition deliveries (conns : gmap string ReadyState) (data : Message)
    (excludePlayerId : option string) : list (string * Message) :=
  (λ playerId, (playerId, data)) <$> recipients conns excludePlayerId.

(** ** Derived views of the handlers *)

(** What the stop branch does to the player record. *)
Definition stopped (player : Player) : Player :=
  set_animationFrame 0%Z
    (set_targetY None (set_targetX None (set_isMoving false player))).

(** ** Concrete states *)

(** Two open sessions and no player yet. *)
Definition lobby : World :=
  {| players := ∅; spriteDatabase := ∅; spritePrototype := None;
     connections := {["ghost" := OPEN; "guest" := OPEN]};
     fs := None; spritesDbFile := []; outbox := [] |}.

(** A player standing at (100, 100). *)
Definition alice : Player :=
  {| id := "alice"; x := 100; y := 100; sprite := "default";
     facing := Facing.south; isMoving := false; username := "Alice";
     targetX := None; targetY := None;
     animationFrame := 0; lastAnimationUpdate := 0 |}.

(** [alice] joined, with a second open session. *)
Definition town : World :=
  {| players := {["alice" := alice]};
     spriteDatabase := ∅; spritePrototype := None;
     connections := {["alice" := OPEN; "bob" := OPEN]};
     fs := None; spritesDbFile := []; outbox := [] |}.

(** What the direction branch does to the player record, before and after
    its animation update. *)
Definition keyStep (direction : string) (player : Player) : Player :=
  let '(newX, newY, newFacing) :=
    if String.eqb direction "up" then
      (x player, Rmax 0 (y player - 15), Facing.north)
    else if String.eqb direction "down" then
      (x player, Rmin (world.height - 50) (y player + 15), Facing.south)
    else if String.eqb direction "left" then
      (Rmax 0 (x player - 15), y player, Facing.west)
    else if String.eqb direction "right" then
      (Rmin (world.width - 50) (x player + 15), y player, Facing.east)
    else (x player, y player, facing player) in
  set_targetY None (set_targetX None (set_isMoving true
    (set_facing newFacing (set_y newY (set_x newX player))))).

Definition animated (now : Z) (player : Player) : Player :=
  if (200 <? now - lastAnimationUpdate player)%Z
  then advanceFrame now player
  else player.

(** What the click-to-move branch does to the player record. *)
Definition aimed (mx my : R) (player : Player) : Player :=
  set_targetY (Some (clamp (my - 25) 0 (world.height - 50)))
    (set_targetX (Some (clamp (mx - 25) 0 (world.width - 50))) player).

(** The command [move{direction: "up"}]. *)
Definition moveUp : Movement.t :=
  {| Movement.stop := false; Movement.direction := Some "up";
     Movement.x := None; Movement.y := None |}.

(** The command [move{stop: true}]. *)
Definition stopCmd : Movement.t :=
  {| Movement.stop := true; Movement.direction := None;
     Movement.x := None; Movement.y := None |}.

(** A player in pursuit of a target. *)
Definition runner : Player :=
  {| id := "bob"; x := 10; y := 20; sprite := "default";
     facing := Facing.east; isMoving := true; username := "Bob";
     targetX := Some 975; targetY := Some 975;
     animationFrame := 2; lastAnimationUpdate := 0 |}.

Definition chase : World :=
  {| players := {["bob" := runner]};
     spriteDatabase := ∅; spritePrototype := None;
     connections := {["bob" := OPEN]};
     fs := None; spritesDbFile := []; outbox := [] |}.

(** A join request. *)
Definition joinAsWitch : PlayerInfo.t :=
  {| PlayerInfo.sprite := Some "witch"; PlayerInfo.username := Some "Mallory" |}.

(** ** The bounds of the world *)

Definition inBounds (v : R) : Prop := 0 <= v <= 4046.

(** The position of a player is in bounds, and so is each coordinate of a
    target it stores. *)
Definition wellPlaced (player : Player) : Prop :=
  inBounds (x player) ∧ inBounds (y player) ∧
  (∀ t, targetX player = Some t → inBounds t) ∧
  (∀ t, targetY player = Some t → inBounds t).

Definition worldInBounds (w : World) : Prop :=
  ∀ playerId player, players w !! playerId = Some player → wellPlaced player.

(** ** The game loop, seen from outside *)

(** [hasUpdates] after the first loop of a tick. *)
Definition hasUpdates (now : Z) (ps : gmap string Player) : bool :=
  existsb snd (snd <$> map_to_list (tickPlayer now <$> ps)).

(** What the second loop of a tick sends. *)
Definition tickBroadcasts (conns : gmap string ReadyState)
    (l : list (string * Player)) : list (string * Message) :=
  l ≫= (λ e, if needsBroadcast (snd e)
              then deliveries conns (Update "player" "moved" (PlayerData (snd e))) None
              else []).

(** The two ways a player sets [hasUpdates] in a tick. *)
Definition pursuing (player : Player) : Prop :=
  is_Some (targetX player) ∧ is_Some (targetY player).

Definition idleDue (now : Z) (player : Player) : Prop :=
  isMoving player = false ∧ (1000 < now - lastAnimationUpdate player)%Z.

(** A player moved by the keyboard: [isMoving] stays set, no target. *)
Definition walker : Player :=
  {| id := "carol"; x := 300; y := 400; sprite := "default";
     facing := Facing.west; isMoving := true; username := "Carol";
     targetX := None; targetY := None;
     animationFrame := 1; lastAnimationUpdate := 0 |}.

(** [walker] alone, its session open. *)
Definition stroll : World :=
  {| players := {["carol" := walker]};
     spriteDatabase := ∅; spritePrototype := None;
     connections := {["carol" := OPEN]};
     fs := None; spritesDbFile := []; outbox := [] |}.

(** [walker] and the idle [alice], both sessions open. *)
Definition plaza : World :=
  {| players := {["alice" := alice; "carol" := walker]};
     spriteDatabase := ∅; spritePrototype := None;
     connections := {["alice" := OPEN; "carol" := OPEN]};
     fs := None; spritesDbFile := []; outbox := [] |}.

(** ** The catalog, seen from outside *)

(** The validity the directory scan enforces, and the copy of east. *)
Definition validSprite (s : Sprite) : Prop :=
  north (frames s) ≠ [] ∧ south (frames s) ≠ [] ∧ east (frames s) ≠ [] ∧
  west (frames s) = east (frames s).

Definition validCatalog (db : gmap string Sprite) : Prop :=
  ∀ spriteName s, db !! spriteName = Some s → validSprite s.

Definition westCopiesEast (db : gmap string Sprite) : Prop :=
  ∀ spriteName s, db !! spriteName = Some s → west (frames s) = east (frames s).

(** Some frame payload of a north, south or east array is not a string:
    decoding it throws. *)
Definition isOther (v : JsValue) : bool :=
  match v with JOther => true | JString _ => false end.

Definition entryFails (entry : string * JsField) : bool :=
  match snd entry with
  | JArray items => isUploadDirection (fst entry) && existsb isOther items
  | JNotArray => false
  end.

Definition decodeFails (entries : list (string * JsField)) : bool :=
  existsb entryFails entries.

(** An upload of a sprite that has a north frame only. *)
Definition ghostUpload : ClientData :=
  {| type := Some "sprite"; action := Some "upload";
     spriteName := Some "ghost";
     spriteFrames := Some [("north", JArray [JString "data:image/png;base64,AAAA"])];
     playerInfo := None; movement := None |}.

(** An upload whose second north frame is not a string. *)
Definition brokenUpload : ClientData :=
  {| type := Some "sprite"; action := Some "upload";
     spriteName := Some "ghost";
     spriteFrames := Some [("north", JArray [JString "data:image/png;base64,AAAA"; JOther]);
                           ("south", JArray [JString "BBBB"]);
                           ("east", JArray [JString "CCCC"])];
     playerInfo := None; movement := None |}.

(** ** Pursuit *)

(** The player after the ticks that happen at the times [nows], one after
    the other. *)
Definition ticks (nows : list Z) (player : Player) : Player :=
  foldl (λ p now, fst (tickPlayer now p)) player nows.

(** The ceiling of a real number. *)
Definition ceil (r : R) : Z := (- Int_part (- r))%Z.

(** Lemmas on what keeps a player within the bounds of the world. *)
Create HintDb bounds.

(** An asset store with a folder that has a north frame only, and one with
    a folder that has a frame for each required direction. *)
Definition haunted : World :=
  set_fs (Some {["ghost" := {| mtime := 42;
                               files := {["north_1.png" := "AAAA"]} |}]}) lobby.

Definition furnished : World :=
  set_fs (Some {["pumpkin" :=
                   {| mtime := 42;
                      files := {["north_1.png" := "AAAA"; "south_1.png" := "BBBB";
                                 "east_1.png" := "CCCC"; "east_3.png" := "DDDD"]} |}]})
         lobby.

(** ** The rest of the server, and views of it *)

(** [initializeSpritesDirectory]: when the sprite directory is missing it
    is created, with the empty folder of the default sprite in it. *)
Definition initializeSpritesDirectory (now : Z) : M unit :=
  modify (λ w,
    match fs w with
    | Some _ => w
    | None => set_fs (Some {["default" := {| mtime := now; files := ∅ |}]}) w
    end).

(** The record [handlePlayerJoin] allocates for an id it has not seen. *)
Definition joinSprite (c : Catalog) (info : PlayerInfo.t) : string :=
  match PlayerInfo.sprite info with
  | Some s => if truthy s && readsTruthy c s then s else "default"%string
  | None => "default"%string
  end.

Definition joinUsername (playerId : string) (info : PlayerInfo.t) : string :=
  match PlayerInfo.username info with
  | Some u => if truthy u then u else "Player" +:+ String.substring 0 4 playerId
  | None => "Player" +:+ String.substring 0 4 playerId
  end.

Definition newPlayer (rx ry : R) (now : Z) (playerId spriteName' username' : string)
    : Player :=
  {| id := playerId;
     x := IZR (Int_part (rx * (world.width - 50)));
     y := IZR (Int_part (ry * (world.height - 50)));
     sprite := spriteName';
     facing := Facing.south;
     isMoving := false;
     username := username';
     targetX := None;
     targetY := None;
     animationFrame := 0%Z;
     lastAnimationUpdate := now |}.

(** What a successful change of sprite does to the player record. *)
Definition dressed (s : string) (player : Player) : Player :=
  set_animationFrame 0%Z (set_sprite s player).

(** The ways a message changes the record stored under the id of its
    session: from no record (a join) or from the record it had. *)
Inductive playerStep (rx ry : R) (now : Z) (playerId : string)
    : option Player → Player → Prop :=
| step_join spriteName' username' :
    playerStep rx ry now playerId None (newPlayer rx ry now playerId spriteName' username')
| step_stop player :
    playerStep rx ry now playerId (Some player) (stopped player)
| step_key direction player :
    playerStep rx ry now playerId (Some player) (animated now (keyStep direction player))
| step_aim mx my player :
    playerStep rx ry now playerId (Some player) (aimed mx my player)
| step_dress s player :
    playerStep rx ry now playerId (Some player) (dressed s player).

(** Invariants of a record of the registry: the frame counter is 0, 1 or
    2; the two target coordinates are set together; the record is stored
    under its own id. *)
Definition frameInRange (player : Player) : Prop :=
  (0 ≤ animationFrame player ≤ 2)%Z.

Definition targetPaired (player : Player) : Prop :=
  targetX player = None ↔ targetY player = None.

Definition wellFormed (playerId : string) (player : Player) : Prop :=
  id player = playerId ∧ frameInRange player ∧ targetPaired player.

(** The sprite a scan builds from a folder, and whether the scan registers
    it over the entry the catalog has under that name. *)
Definition scannedSprite (spriteName : string) (folder : Folder) : Sprite :=
  {| name := spriteName;
     frames := {| north := scanDirection folder spriteName "north";
                  south := scanDirection folder spriteName "south";
                  east := scanDirection folder spriteName "east";
                  west := scanDirection folder spriteName "east" |};
     lastModified := mtime folder;
     custom := false |}.

Definition registers (existing : option Sprite) (spriteName : string)
    (folder : Folder) : bool :=
  negb match existing with
       | Some existingSprite => bool_decide (mtime folder ≤ lastModified existingSprite)%Z
       | None => false
       end
  && hasRequiredSprites (frames (scannedSprite spriteName folder)).

(** The entry of a name after a scan, from the entry it had and the folder
    of that name, if there is one. *)
Definition scanEntry (existing : option Sprite) (spriteName : string)
    (folder : option Folder) : option Sprite :=
  match folder with
  | Some f => if registers existing spriteName f
              then Some (scannedSprite spriteName f) else existing
  | None => existing
  end.

(** A join request that asks for no sprite and gives no name. *)
Definition anonymous : PlayerInfo.t :=
  {| PlayerInfo.sprite := None; PlayerInfo.username := None |}.

(** The commands [move{direction: "down"}], [move{direction: "jump"}] and
    [move{x: 1000, y: 1000}]. *)
Definition moveDown : Movement.t :=
  {| Movement.stop := false; Movement.direction := Some "down";
     Movement.x := None; Movement.y := None |}.

Definition moveJump : Movement.t :=
  {| Movement.stop := false; Movement.direction := Some "jump";
     Movement.x := None; Movement.y := None |}.

Definition clickCenter : Movement.t :=
  {| Movement.stop := false; Movement.direction := None;
     Movement.x := Some 1000; Movement.y := Some 1000 |}.



(** A catalog entry, and a world whose catalog has it. *)
Definition witchSprite : Sprite :=
  {| name := "witch";
     frames := {| north := ["sprites/witch/north_1.png"];
                  south := ["sprites/witch/south_1.png"];
                  east := ["sprites/witch/east_1.png"];
                  west := ["sprites/witch/east_1.png"] |};
     lastModified := 5; custom := false |}.

Definition coven : World :=
  {| players := {["alice" := alice]}; spriteDatabase := {["witch" := witchSprite]};
     spritePrototype := None;
     connections := {["alice" := OPEN; "bob" := OPEN]};
     fs := None; spritesDbFile := []; outbox := [] |}.

(** The error text of a failed change of sprite. *)
Definition changeSpriteError (spriteName : option string) : string :=
  match spriteName with
  | Some s => if truthy s
              then "Sprite " +:+ dquote +:+ s +:+ dquote +:+ " does not exist"
              else "No sprite specified"%string
  | None => "No sprite specified"%string
  end.

(** An upload with one frame for each required direction. *)
Definition pumpkinUpload : ClientData :=
  {| type := Some "sprite"; action := Some "upload";
     spriteName := Some "pumpkin";
     spriteFrames := Some [("north", JArray [JString "data:image/png;base64,AAAA"]);
                           ("south", JArray [JString "data:image/png;base64,BBBB"]);
                           ("east", JArray [JString "data:image/png;base64,CCCC"])];
     playerInfo := None; movement := None |}.

(** The asset store has the file [file] in the folder of [spriteName]. *)
Definition hasFile (f : FileSystem) (spriteName' file : string) : Prop :=
  ∃ dir folder, f = Some dir ∧ dir !! spriteName' = Some folder ∧
                is_Some (files folder !! file).

(** The frame list of a direction. *)
Definition dirFrames (direction : string) (fr : Frames) : list string :=
  if String.eqb direction "north" then north fr
  else if String.eqb direction "south" then south fr
  else if String.eqb direction "east" then east fr
  else [].

(** Every frame reference of north, south and east names a numbered frame
    file that the asset store has in the folder of the sprite. *)
Definition backed (f : FileSystem) (spriteName' : string) (fr : Frames) : Prop :=
  ∀ direction ref, ref ∈ dirFrames direction fr →
    ∃ k, ref = frameRef spriteName' direction k ∧
         hasFile f spriteName' (frameFile direction k).

(** The entry the upload [pumpkinUpload] registers at time 42. *)
Definition pumpkinSprite : Sprite :=
  {| name := "pumpkin";
     frames := {| north := ["sprites/pumpkin/north_1.png"];
                  south := ["sprites/pumpkin/south_1.png"];
                  east := ["sprites/pumpkin/east_1.png"];
                  west := ["sprites/pumpkin/east_1.png"] |};
     lastModified := 42; custom := true |}.

(** What a message may do to the registry: nothing, or one step of the
    record stored under the id of its session. *)
Definition registryStep (rx ry : R) (now : Z) (playerId : string)
    (before after : gmap string Player) : Prop :=
  after = before ∨
  ∃ player', playerStep rx ry now playerId (before !! playerId) player' ∧
             after = <[playerId := player']> before.

(** Messages the dispatcher does not recognise, with the action and the
    error of the failure response they get. *)
Inductive unrecognised : ClientData → string → string → Prop :=
| unknown_type data :
    type data ≠ Some "sprite"%string → type data ≠ Some "player"%string →
    unrecognised data "unknown"
      ("Unknown message type: " +:+ default "undefined"%string (type data))
| unknown_sprite_action data :
    type data = Some "sprite"%string →
    action data ≠ Some "list"%string → action data ≠ Some "upload"%string →
    unrecognised data (actionOrUnknown data) "Unknown sprite action"
| unknown_player_action data :
    type data = Some "player"%string →
    action data ≠ Some "join"%string → action data ≠ Some "move"%string →
    action data ≠ Some "change_sprite"%string →
    unrecognised data (actionOrUnknown data) "Unknown player action".

(** Messages whose handling throws: one that does not parse, a first join
    without [playerInfo], a move of a joined player without [movement]. *)
Inductive malformed (w : World) (playerId : string) : option ClientData → Prop :=
| unparsable : malformed w playerId None
| join_without_info data :
    type data = Some "player"%string → action data = Some "join"%string →
    playerInfo data = None → players w !! playerId = None →
    malformed w playerId (Some data)
| move_without_movement data :
    type data = Some "player"%string → action data = Some "move"%string →
    movement data = None → is_Some (players w !! playerId) →
    malformed w playerId (Some data).

(** A request for the list of sprites, one with an action the sprite
    handler does not know, and a move that lacks its [movement]. *)
Definition listRequest : ClientData :=
  {| type := Some "sprite"; action := Some "list"; spriteName := None;
     spriteFrames := None; playerInfo := None; movement := None |}.

Definition deleteRequest : ClientData :=
  {| type := Some "sprite"; action := Some "delete"; spriteName := Some "witch";
     spriteFrames := None; playerInfo := None; movement := None |}.

Definition emptyMove : ClientData :=
  {| type := Some "player"; action := Some "move"; spriteName := None;
     spriteFrames := None; playerInfo := None; movement := None |}.

(** A property of every record of the registry, with the id it is stored
    under. *)
Definition everyPlayer (I : string → Player → Prop) (w : World) : Prop :=
  ∀ playerId player, players w !! playerId = Some player → I playerId player.

(** The upload [pumpkinUpload] under the name ["__proto__"], and the
    sprite it builds at time 42. *)
Definition protoUpload : ClientData :=
  {| type := Some "sprite"; action := Some "upload";
     spriteName := Some "__proto__";
     spriteFrames := Some [("north", JArray [JString "data:image/png;base64,AAAA"]);
                           ("south", JArray [JString "data:image/png;base64,BBBB"]);
                           ("east", JArray [JString "data:image/png;base64,CCCC"])];
     playerInfo := None; movement := None |}.

Definition protoSprite : Sprite :=
  {| name := "__proto__";
     frames := {| north := ["sprites/__proto__/north_1.png"];
                  south := ["sprites/__proto__/south_1.png"];
                  east := ["sprites/__proto__/east_1.png"];
                  west := ["sprites/__proto__/east_1.png"] |};
     lastModified := 42; custom := true |}.

(** An asset store with a complete folder named ["__proto__"]. *)
Definition cursed : World :=
  set_fs (Some {["__proto__" :=
                   {| mtime := 42;
                      files := {["north_1.png" := "AAAA"; "south_1.png" := "BBBB";
                                 "east_1.png" := "CCCC"]} |}]})
         lobby.

(** ** The movement model over binary64

    The numbers of the source are IEEE 754 doubles.  The definitions above
    read its arithmetic over the real numbers: they describe what the
    source computes on numbers as long as no operation rounds.  The module
    below embeds the numeric core of the server once more over the
    doubles of the kernel, with their rounding and with [NaN]: [clamp],
    [distance], [movePlayerTowards], the body of the first loop of the game
    loop and the click-to-move branch of [handlePlayerMove].  It settles
    the questions that rounding or a value that is not a number
    decide. *)

Module Binary64.
Import PrimFloat.
Local Open Scope float_scope.

Module Math.
(** [Math.max(a, b)]: [NaN] when an argument is [NaN]; [+0] is larger than
    [-0]. *)
Definition max (a b : float) : float :=
  if is_nan a || is_nan b then nan
  else if a <? b then b
  else if b <? a then a
  else if get_sign a then b else a.

(** [Math.min(a, b)] *)
Definition min (a b : float) : float :=
  if is_nan a || is_nan b then nan
  else if a <? b then a
  else if b <? a then b
  else if get_sign a then a else b.
End Math.

Module world.
Definition width : float := 4096.
Definition height : float := 4096.
End world.

Record Player := {
  id : string;
  x : float;
  y : float;
  sprite : string;
  facing : Facing.t;
  isMoving : bool;
  username : string;
  targetX : option float;
  targetY : option float;
  animationFrame : Z;
  lastAnimationUpdate : Z
}.

Definition set_x (v : float) (p : Player) : Player :=
  {| id := id p; x := v; y := y p; sprite := sprite p; facing := facing p;
     isMoving := isMoving p; username := username p; targetX := targetX p;
     targetY := targetY p; animationFrame := animationFrame p;
     lastAnimationUpdate := lastAnimationUpdate p |}.
Definition set_y (v : float) (p : Player) : Player :=
  {| id := id p; x := x p; y := v; sprite := sprite p; facing := facing p;
     isMoving := isMoving p; username := username p; targetX := targetX p;
     targetY := targetY p; animationFrame := animationFrame p;
     lastAnimationUpdate := lastAnimationUpdate p |}.
Definition set_facing (v : Facing.t) (p : Player) : Player :=
  {| id := id p; x := x p; y := y p; sprite := sprite p; facing := v;
     isMoving := isMoving p; username := username p; targetX := targetX p;
     targetY := targetY p; animationFrame := animationFrame p;
     lastAnimationUpdate := lastAnimationUpdate p |}.
Definition set_isMoving (v : bool) (p : Player) : Player :=
  {| id := id p; x := x p; y := y p; sprite := sprite p; facing := facing p;
     isMoving := v; username := username p; targetX := targetX p;
     targetY := targetY p; animationFrame := animationFrame p;
     lastAnimationUpdate := lastAnimationUpdate p |}.
Definition set_targetX (v : option float) (p : Player) : Player :=
  {| id := id p; x := x p; y := y p; sprite := sprite p; facing := facing p;
     isMoving := isMoving p; username := username p; targetX := v;
     targetY := targetY p; animationFrame := animationFrame p;
     lastAnimationUpdate := lastAnimationUpdate p |}.
Definition set_targetY (v : option float) (p : Player) : Player :=
  {| id := id p; x := x p; y := y p; sprite := sprite p; facing := facing p;
     isMoving := isMoving p; username := username p; targetX := targetX p;
     targetY := v; animationFrame := animationFrame p;
     lastAnimationUpdate := lastAnimationUpdate p |}.
Definition set_animationFrame (v : Z) (p : Player) : Player :=
  {| id := id p; x := x p; y := y p; sprite := sprite p; facing := facing p;
     isMoving := isMoving p; username := username p; targetX := targetX p;
     targetY := targetY p; animationFrame := v;
     lastAnimationUpdate := lastAnimationUpdate p |}.
Definition set_lastAnimationUpdate (v : Z) (p : Player) : Player :=
  {| id := id p; x := x p; y := y p; sprite := sprite p; facing := facing p;
     isMoving := isMoving p; username := username p; targetX := targetX p;
     targetY := targetY p; animationFrame := animationFrame p;
     lastAnimationUpdate := v |}.

Definition clamp (value min max : float) : float :=
  Math.min (Math.max value min) max.

(** [v ** 2], taken as the rounded product of [v] with itself *)
Definition square (v : float) : float := v * v.

Definition distance (x1 y1 x2 y2 : float) : float :=
  sqrt (square (x2 - x1) + square (y2 - y1)).

Definition movePlayerTowards (player : Player) (tX tY speed : float) : Player * bool :=
  let dist := distance (x player) (y player) tX tY in
  if dist <=? speed then
    (set_isMoving false (set_y tY (set_x tX player)), true)
  else
    let ratio := speed / dist in
    let oldX := x player in
    let oldY := y player in
    let newX := x player + (tX - x player) * ratio in
    let newY := y player + (tY - y player) * ratio in
    let deltaX := newX - oldX in
    let deltaY := newY - oldY in
    let newFacing :=
      if abs deltaY <? abs deltaX
      then (if 0 <? deltaX then Facing.east else Facing.west)
      else (if 0 <? deltaY then Facing.south else Facing.north) in
    (set_isMoving true
       (set_y (clamp newY 0 (world.height - 50))
          (set_x (clamp newX 0 (world.width - 50))
             (set_facing newFacing player))),
     false).

Definition advanceFrame (now : Z) (player : Player) : Player :=
  set_lastAnimationUpdate now
    (set_animationFrame ((animationFrame player + 1) mod 3)%Z player).

(** The body of the first loop of the game loop, for one player, with what
    it contributes to [hasUpdates]. *)
Definition tickPlayer (now : Z) (player : Player) : Player * bool :=
  match targetX player, targetY player with
  | Some tX, Some tY =>
      let '(player, reached) := movePlayerTowards player tX tY 3 in
      let player :=
        if reached then
          set_animationFrame 0%Z
            (set_isMoving false (set_targetY None (set_targetX None player)))
        else if (200 <? now - lastAnimationUpdate player)%Z
             then advanceFrame now player
             else player in
      (player, true)
  | _, _ =>
      if negb (isMoving player) && (1000 <? now - lastAnimationUpdate player)%Z
      then (advanceFrame now player, true)
      else (player, false)
  end.

(** The player after the ticks that happen at the times [nows], one after
    the other. *)
Definition ticks (nows : list Z) (player : Player) : Player :=
  foldl (λ p now, fst (tickPlayer now p)) player nows.

(** A coordinate of a move command, as [JSON.parse] gives it and
    [movement.x - 25] converts it: a number, or a value that converts to
    [NaN] (a string that is not a numeric literal, an object). *)
Inductive Coordinate := Number (value : float) | NotNumeric.

Definition toNumber (c : Coordinate) : float :=
  match c with
  | Number value => value
  | NotNumeric => nan
  end.

(** What the click-to-move branch of [handlePlayerMove] does to the player
    record, for [movement.x] and [movement.y] that are not [undefined]. *)
Definition aimed (mx my : Coordinate) (player : Player) : Player :=
  set_targetY (Some (clamp (toNumber my - 25) 0 (world.height - 50)))
    (set_targetX (Some (clamp (toNumber mx - 25) 0 (world.width - 50))) player).

(** [0 <= v && v <= 4046] *)
Definition inBounds (v : float) : bool := (0 <=? v) && (v <=? 4046).

(** A player standing at (100, 100), and the same player after a click
    that asks for the spot (109, 112), at distance 15. *)
Definition alice : Player :=
  {| id := "alice"; x := 100; y := 100; sprite := "default";
     facing := Facing.south; isMoving := false; username := "Alice";
     targetX := None; targetY := None;
     animationFrame := 0; lastAnimationUpdate := 0 |}.


End Binary64.

(** * Properties *)

(** ** The monad and the sending primitives *)

Ltac run_monad :=
  unfold mbind, M_bind, mret, M_ret, get, modify, throw in *.

Lemma set_outbox_same w : set_outbox (outbox w) w = w.
Proof. by destruct w. Qed.

Lemma forEach_send_run (data : Message) (excl : option string)
    (l : list (string * ReadyState)) (w : World) :
  forEach l (λ '(playerId, ws),
      if bool_decide (Some playerId ≠ excl) && isOpen ws
      then send playerId data else mret tt) w
  = (Return tt,
     set_outbox (outbox w ++ ((λ e, (fst e, data)) <$> List.filter (reaches excl) l)) w).
Proof.
  revert w. induction l as [|[i ws] l IH]; intros w; simpl.
  - run_monad. rewrite app_nil_r. by rewrite set_outbox_same.
  - run_monad. unfold reaches at 1. simpl.
    destruct (bool_decide (Some i ≠ excl) && isOpen ws) eqn:E; simpl.
    + unfold send at 1. run_monad. rewrite IH. simpl.
      rewrite <- app_assoc. by destruct w.
    + by rewrite IH.
Qed.

Lemma broadcast_run data excl w :
  broadcast data excl w
  = (Return tt, set_outbox (outbox w ++ deliveries (connections w) data excl) w).
Proof.
  unfold broadcast. run_monad. rewrite forEach_send_run.
  unfold deliveries, recipients. by rewrite <- list_fmap_compose.
Qed.

Lemma elem_of_recipients conns excl (i : string) :
  i ∈ recipients conns excl ↔ conns !! i = Some OPEN ∧ Some i ≠ excl.
Proof.
  unfold recipients. rewrite list_elem_of_fmap. split.
  - intros [[j ws] [-> Hin]]. apply list_elem_of_In, filter_In in Hin.
    destruct Hin as [Hin Hr]. apply list_elem_of_In, elem_of_map_to_list in Hin.
    unfold reaches in Hr. simpl in *. apply andb_prop in Hr as [H1 H2].
    apply bool_decide_eq_true in H1. destruct ws; try discriminate. done.
  - intros [Hl Hne]. exists (i, OPEN). split; [done|].
    apply list_elem_of_In, filter_In. split.
    + by apply list_elem_of_In, elem_of_map_to_list.
    + unfold reaches. simpl. rewrite andb_true_r. by apply bool_decide_eq_true.
Qed.

Lemma elem_of_deliveries conns data excl (i : string) (m : Message) :
  (i, m) ∈ deliveries conns data excl ↔
  m = data ∧ conns !! i = Some OPEN ∧ Some i ≠ excl.
Proof.
  unfold deliveries. rewrite list_elem_of_fmap. split.
  - intros [j [[= -> ->] Hin]]. by apply elem_of_recipients in Hin.
  - intros [-> H]. exists i. split; [done|]. by apply elem_of_recipients.
Qed.

Lemma received_deliveries_excluded conns data (i : string) :
  received i (deliveries conns data (Some i)) = [].
Proof.
  unfold received.
  destruct (filter _ (deliveries conns data (Some i))) as [|[j m] l] eqn:E; [done|].
  assert (Hin : (j, m) ∈ filter (λ e : string * Message, e.1 = i)
                          (deliveries conns data (Some i))).
  { rewrite E. left. }
  apply list_elem_of_filter in Hin as [Hj Hin]. simpl in Hj. subst j.
  apply elem_of_deliveries in Hin as (_ & _ & Hne). congruence.
Qed.

Lemma sendToPlayer_run playerId data w :
  sendToPlayer playerId data w
  = (Return tt,
     if bool_decide (connections w !! playerId = Some OPEN)
     then set_outbox (outbox w ++ [(playerId, data)]) w else w).
Proof.
  unfold sendToPlayer. run_monad.
  destruct (connections w !! playerId) as [[]|] eqn:E; simpl; try done.
Qed.

Lemma sendResponse_run playerId act success data err w :
  sendResponse playerId act success data err w
  = (Return tt,
     if bool_decide (connections w !! playerId = Some OPEN)
     then set_outbox
            (outbox w ++ [(playerId,
                           Response act success
                             (if success then data else NoData)
                             (if negb success then err else None))]) w
     else w).
Proof. unfold sendResponse. apply sendToPlayer_run. Qed.

Lemma broadcastUpdate_run category act data excl w :
  broadcastUpdate category act data excl w
  = (Return tt,
     set_outbox (outbox w ++ deliveries (connections w) (Update category act data) excl) w).
Proof. unfold broadcastUpdate. apply broadcast_run. Qed.

(** ** Player handlers *)

Lemma handlePlayerMove_absent_run now playerId movement w :
  players w !! playerId = None →
  handlePlayerMove now playerId movement w = (Return tt, w).
Proof.
  intros Hnone. unfold handlePlayerMove. run_monad. by rewrite Hnone.
Qed.

(** C10. A move command for an id that has no player record returns at
    once: the handler does not throw, the whole state (registry, catalog,
    sessions, asset store) is the one it started from, and the outbox with
    it, so that nothing was sent to any session. *)
Theorem C10_move_unknown_player_is_noop now playerId movement w :
  players w !! playerId = None →
  handlePlayerMove now playerId movement w = (Return tt, w).
Proof. apply handlePlayerMove_absent_run. Qed.

Lemma C10_move_unknown_player_is_noop_witness :
  players lobby !! "ghost" = None ∧
  handlePlayerMove 0 "ghost" None lobby = (Return tt, lobby).
Proof.
  split; [reflexivity|].
  apply (C10_move_unknown_player_is_noop 0 "ghost" None lobby). reflexivity.
Defined.

Lemma handlePlayerMove_stop_run now playerId movement player w :
  players w !! playerId = Some player →
  Movement.stop movement = true →
  handlePlayerMove now playerId (Some movement) w
  = (Return tt,
     set_outbox
       (outbox w ++ deliveries (connections w)
                      (Update "player" "moved" (PlayerData (stopped player))) None)
       (set_players (<[playerId := stopped player]> (players w)) w)).
Proof.
  intros Hp Hstop. unfold handlePlayerMove. run_monad. rewrite Hp, Hstop.
  unfold setPlayer. run_monad. by rewrite broadcastUpdate_run.
Qed.

Lemma handlePlayerMove_direction_run now playerId movement direction player w :
  players w !! playerId = Some player →
  Movement.stop movement = false →
  truthyDirection movement = Some direction →
  handlePlayerMove now playerId (Some movement) w
  = (Return tt,
     set_outbox
       (outbox w ++ deliveries (connections w)
          (Update "player" "moved"
             (PlayerData (animated now (keyStep direction player)))) None)
       (set_players
          (<[playerId := animated now (keyStep direction player)]> (players w)) w)).
Proof.
  intros Hp Hstop Hdir. unfold handlePlayerMove. run_monad.
  rewrite Hp, Hstop, Hdir. unfold animated, keyStep.
  destruct (String.eqb direction "up"); [|destruct (String.eqb direction "down");
    [|destruct (String.eqb direction "left");
      [|destruct (String.eqb direction "right")]]];
  unfold setPlayer; run_monad; by rewrite broadcastUpdate_run.
Qed.

Lemma handlePlayerMove_click_run now playerId movement mx my player w :
  players w !! playerId = Some player →
  Movement.stop movement = false →
  truthyDirection movement = None →
  Movement.x movement = Some mx →
  Movement.y movement = Some my →
  handlePlayerMove now playerId (Some movement) w
  = (Return tt, set_players (<[playerId := aimed mx my player]> (players w)) w).
Proof.
  intros Hp Hstop Hdir Hx Hy. unfold handlePlayerMove. run_monad.
  by rewrite Hp, Hstop, Hdir, Hx, Hy.
Qed.

Lemma handlePlayerMove_nothing_run now playerId movement player w :
  players w !! playerId = Some player →
  Movement.stop movement = false →
  truthyDirection movement = None →
  Movement.x movement = None ∨ Movement.y movement = None →
  handlePlayerMove now playerId (Some movement) w = (Return tt, w).
Proof.
  intros Hp Hstop Hdir Hxy. unfold handlePlayerMove. run_monad.
  rewrite Hp, Hstop, Hdir.
  destruct (Movement.x movement), (Movement.y movement); try done.
  destruct Hxy; discriminate.
Qed.

(** C4. Whatever the state of a player, a stop command leaves it with
    [isMoving = false], no target and [animationFrame = 0]; the handler
    returns normally, the position and the other fields are the ones the
    player had, and the update is sent to every open session. *)
Theorem C4_stop_clears_motion now playerId movement player w :
  players w !! playerId = Some player →
  Movement.stop movement = true →
  ∃ player',
    result (handlePlayerMove now playerId (Some movement)) w = Return tt ∧
    players (exec (handlePlayerMove now playerId (Some movement)) w) !! playerId
      = Some player' ∧
    isMoving player' = false ∧
    targetX player' = None ∧
    targetY player' = None ∧
    animationFrame player' = 0%Z ∧
    (x player', y player', facing player', sprite player', username player')
      = (x player, y player, facing player, sprite player, username player) ∧
    ∀ session, connections w !! session = Some OPEN →
      (session, Update "player" "moved" (PlayerData player'))
        ∈ outbox (exec (handlePlayerMove now playerId (Some movement)) w).
Proof.
  intros Hp Hstop. exists (stopped player). unfold result, exec.
  rewrite (handlePlayerMove_stop_run _ _ _ _ _ Hp Hstop). simpl.
  rewrite lookup_insert_eq. repeat split; try done.
  intros session Hopen. apply elem_of_app. right.
  by apply elem_of_deliveries.
Qed.

Lemma C4_stop_clears_motion_witness :
  players chase !! "bob" = Some runner ∧
  Movement.stop stopCmd = true ∧
  ∃ player',
    result (handlePlayerMove 7 "bob" (Some stopCmd)) chase = Return tt ∧
    players (exec (handlePlayerMove 7 "bob" (Some stopCmd)) chase) !! "bob"
      = Some player' ∧
    isMoving player' = false ∧
    targetX player' = None ∧
    targetY player' = None ∧
    animationFrame player' = 0%Z ∧
    (x player', y player', facing player', sprite player', username player')
      = (x runner, y runner, facing runner, sprite runner, username runner) ∧
    ∀ session, connections chase !! session = Some OPEN →
      (session, Update "player" "moved" (PlayerData player'))
        ∈ outbox (exec (handlePlayerMove 7 "bob" (Some stopCmd)) chase).
Proof.
  split; [reflexivity|]. split; [reflexivity|].
  apply (C4_stop_clears_motion 7 "bob" stopCmd runner chase); reflexivity.
Defined.

Lemma animated_fields now player :
  x (animated now player) = x player ∧
  y (animated now player) = y player ∧
  facing (animated now player) = facing player ∧
  isMoving (animated now player) = isMoving player ∧
  targetX (animated now player) = targetX player ∧
  targetY (animated now player) = targetY player.
Proof. unfold animated. by destruct (200 <? _)%Z. Qed.

(** C2, as the code has it. For a player at (100, 100) the command
    [move{direction: "up"}] gives position (100, 85), facing north and
    [isMoving = true], and the [player moved] update is sent to every open
    session, that of the sender included: the call passes no excluded
    id. *)
Theorem C2_move_up_is_broadcast_to_all now playerId movement player w :
  players w !! playerId = Some player →
  x player = 100 → y player = 100 →
  Movement.stop movement = false →
  Movement.direction movement = Some "up"%string →
  ∃ player',
    players (exec (handlePlayerMove now playerId (Some movement)) w) !! playerId
      = Some player' ∧
    x player' = 100 ∧ y player' = 85 ∧
    facing player' = Facing.north ∧ isMoving player' = true ∧
    ∀ session, connections w !! session = Some OPEN →
      (session, Update "player" "moved" (PlayerData player'))
        ∈ outbox (exec (handlePlayerMove now playerId (Some movement)) w).
Proof.
  intros Hp Hx Hy Hstop Hdir.
  assert (Htd : truthyDirection movement = Some "up"%string).
  { unfold truthyDirection. by rewrite Hdir. }
  exists (animated now (keyStep "up" player)). unfold exec.
  rewrite (handlePlayerMove_direction_run _ _ _ _ _ _ Hp Hstop Htd). simpl.
  rewrite lookup_insert_eq.
  destruct (animated_fields now (keyStep "up" player)) as (-> & -> & -> & -> & _).
  simpl. rewrite Hx, Hy. repeat split; try done.
  - unfold Rmax. destruct (Rle_dec _ _); lra.
  - intros session Hopen. apply elem_of_app. right. by apply elem_of_deliveries.
Qed.

Lemma C2_move_up_is_broadcast_to_all_witness :
  players town !! "alice" = Some alice ∧
  x alice = 100 ∧ y alice = 100 ∧
  Movement.stop moveUp = false ∧
  Movement.direction moveUp = Some "up"%string ∧
  ∃ player',
    players (exec (handlePlayerMove 0 "alice" (Some moveUp)) town) !! "alice"
      = Some player' ∧
    x player' = 100 ∧ y player' = 85 ∧
    facing player' = Facing.north ∧ isMoving player' = true ∧
    ∀ session, connections town !! session = Some OPEN →
      (session, Update "player" "moved" (PlayerData player'))
        ∈ outbox (exec (handlePlayerMove 0 "alice" (Some moveUp)) town).
Proof.
  do 5 (split; [reflexivity|]).
  apply (C2_move_up_is_broadcast_to_all 0 "alice" moveUp alice town); reflexivity.
Defined.

(** C2, as the specification words it, fails: in [town] the session of
    [alice] is open and sends the command, and the update comes back to
    it. *)
Lemma C2_sender_receives_the_update :
  players town !! "alice" = Some alice ∧
  x alice = 100 ∧ y alice = 100 ∧
  connections town !! "alice" = Some OPEN ∧
  ¬ (∀ m, ("alice", m) ∉ outbox (exec (handlePlayerMove 0 "alice" (Some moveUp)) town)).
Proof.
  do 4 (split; [reflexivity|]). intros Hnone.
  apply (Hnone (Update "player" "moved"
                  (PlayerData (animated 0 (keyStep "up" alice))))).
  unfold exec.
  rewrite (handlePlayerMove_direction_run 0 "alice" moveUp "up" alice town);
    [|reflexivity..].
  simpl. apply elem_of_deliveries. split; [reflexivity|]. split; [reflexivity|].
  discriminate.
Qed.

Lemma handlePlayerJoin_existing_run rx ry now playerId playerInfo player w :
  players w !! playerId = Some player →
  handlePlayerJoin rx ry now playerId playerInfo w
  = (Return tt,
     set_outbox
       ((outbox w ++
         if bool_decide (connections w !! playerId = Some OPEN)
         then [(playerId, Response "join" true (JoinData playerId (players w)) None)]
         else []) ++
        deliveries (connections w)
          (Update "player" "joined" (PlayerData player)) (Some playerId))
       w).
Proof.
  intros Hp. unfold handlePlayerJoin. run_monad. rewrite Hp.
  rewrite sendResponse_run. case_bool_decide; simpl.
  - rewrite Hp, broadcastUpdate_run. by destruct w.
  - rewrite Hp, broadcastUpdate_run, app_nil_r. by destruct w.
Qed.

(** C6. A join for an id that is already in the registry returns
    normally and leaves the registry as it was, the record of that player
    with it (no new position, sprite or username, whatever the request
    carries); the catalog is untouched, and the open session of the player
    is sent the successful join response with the snapshot of the
    registry. *)
Theorem C6_rejoin_keeps_the_record rx ry now playerId playerInfo player w :
  players w !! playerId = Some player →
  result (handlePlayerJoin rx ry now playerId playerInfo) w = Return tt ∧
  players (exec (handlePlayerJoin rx ry now playerId playerInfo) w) = players w ∧
  players (exec (handlePlayerJoin rx ry now playerId playerInfo) w) !! playerId
    = Some player ∧
  spriteDatabase (exec (handlePlayerJoin rx ry now playerId playerInfo) w)
    = spriteDatabase w ∧
  spritePrototype (exec (handlePlayerJoin rx ry now playerId playerInfo) w)
    = spritePrototype w ∧
  (connections w !! playerId = Some OPEN →
   received playerId (outbox (exec (handlePlayerJoin rx ry now playerId playerInfo) w))
   = received playerId (outbox w)
     ++ [Response "join" true (JoinData playerId (players w)) None]).
Proof.
  intros Hp. unfold result, exec.
  rewrite (handlePlayerJoin_existing_run _ _ _ _ _ _ _ Hp). simpl.
  repeat split; try done.
  intros Hopen. rewrite bool_decide_eq_true_2 by done.
  unfold received. rewrite !filter_app, !fmap_app.
  rewrite (filter_cons_True _ (playerId, _)) by done. rewrite filter_nil. simpl.
  fold (received playerId (deliveries (connections w)
          (Update "player" "joined" (PlayerData player)) (Some playerId))).
  by rewrite received_deliveries_excluded, app_nil_r.
Qed.

Lemma C6_rejoin_keeps_the_record_witness :
  players town !! "alice" = Some alice ∧
  result (handlePlayerJoin 0.5 0.5 9 "alice" (Some joinAsWitch)) town = Return tt ∧
  players (exec (handlePlayerJoin 0.5 0.5 9 "alice" (Some joinAsWitch)) town)
    = players town ∧
  players (exec (handlePlayerJoin 0.5 0.5 9 "alice" (Some joinAsWitch)) town) !! "alice"
    = Some alice ∧
  spriteDatabase (exec (handlePlayerJoin 0.5 0.5 9 "alice" (Some joinAsWitch)) town)
    = spriteDatabase town ∧
  spritePrototype (exec (handlePlayerJoin 0.5 0.5 9 "alice" (Some joinAsWitch)) town)
    = spritePrototype town ∧
  (connections town !! "alice" = Some OPEN →
   received "alice"
     (outbox (exec (handlePlayerJoin 0.5 0.5 9 "alice" (Some joinAsWitch)) town))
   = received "alice" (outbox town)
     ++ [Response "join" true (JoinData "alice" (players town)) None]).
Proof.
  split; [reflexivity|].
  apply (C6_rejoin_keeps_the_record 0.5 0.5 9 "alice" (Some joinAsWitch) alice town).
  reflexivity.
Defined.

Lemma handlePlayerChangeSprite_unknown_run playerId (s : string) w :
  s ≠ EmptyString →
  readsTruthy (catalog w) s = false →
  handlePlayerChangeSprite playerId (Some s) w
  = (Return tt,
     if bool_decide (connections w !! playerId = Some OPEN)
     then set_outbox
            (outbox w ++
             [(playerId,
               Response "change_sprite" false NoData
                 (Some ("Sprite " +:+ dquote +:+ s +:+ dquote +:+ " does not exist")))])
            w
     else w).
Proof.
  intros Hs Hdb. unfold handlePlayerChangeSprite. run_monad. rewrite Hdb.
  assert (Ht : truthy s = true) by (by destruct s).
  rewrite Ht. simpl.
  destruct (players w !! playerId); by rewrite sendResponse_run.
Qed.

(** C9. The catalog of [town] is empty, so the sprite ["constructor"] is
    absent from it; yet the change_sprite request of the joined player
    ["alice"] that names it is accepted: [spriteDatabase["constructor"]]
    reads the function every plain object inherits, the sprite field of the
    player becomes ["constructor"], the requester is sent a success response
    and both open sessions the `changed_sprite` update.  The claim asks for
    the failure response [Sprite "constructor" does not exist] and an
    unchanged player. *)
Theorem C9_inherited_name_passes_for_a_sprite :
  spriteDatabase town !! "constructor" = None ∧
  players town !! "alice" = Some alice ∧
  result (handlePlayerChangeSprite "alice" (Some "constructor"%string)) town
    = Return tt ∧
  players (exec (handlePlayerChangeSprite "alice" (Some "constructor"%string)) town)
    !! "alice" = Some (set_sprite "constructor" alice) ∧
  outbox (exec (handlePlayerChangeSprite "alice" (Some "constructor"%string)) town)
    = [("alice", Response "change_sprite" true NoData None);
       ("alice", Update "player" "changed_sprite"
                   (PlayerData (set_sprite "constructor" alice)));
       ("bob", Update "player" "changed_sprite"
                 (PlayerData (set_sprite "constructor" alice)))].
Proof. repeat split; reflexivity. Qed.

(** X31. A change_sprite request that names a sprite (a non-empty string
    [s]) for which [spriteDatabase[s]] reads nothing truthy (the catalog
    has no entry [s], [s] is not a property of [Object.prototype], and the
    prototype of the catalog gives it no truthy property [s]) returns
    normally, leaves the registry and the catalog as they were, and the
    only thing it sends is, to the open session of the requester, the
    failure response whose error is [Sprite "s" does not exist]. *)
Theorem unread_sprite_name_is_refused playerId (s : string) w :
  s ≠ EmptyString →
  spriteDatabase w !! s = None →
  s ∉ objectPrototypeNames →
  inheritsTruthy (spritePrototype w) s = false →
  result (handlePlayerChangeSprite playerId (Some s)) w = Return tt ∧
  players (exec (handlePlayerChangeSprite playerId (Some s)) w) = players w ∧
  spriteDatabase (exec (handlePlayerChangeSprite playerId (Some s)) w)
    = spriteDatabase w ∧
  spritePrototype (exec (handlePlayerChangeSprite playerId (Some s)) w)
    = spritePrototype w ∧
  outbox (exec (handlePlayerChangeSprite playerId (Some s)) w)
  = outbox w ++
    if bool_decide (connections w !! playerId = Some OPEN)
    then [(playerId,
           Response "change_sprite" false NoData
             (Some ("Sprite " +:+ dquote +:+ s +:+ dquote +:+ " does not exist")))]
    else [].
Proof.
  intros Hs Hdb Hproto Hinherit. unfold result, exec.
  assert (Hread : readsTruthy (catalog w) s = false).
  { unfold readsTruthy, catalog. simpl. rewrite Hdb, Hinherit.
    rewrite (bool_decide_eq_false_2 (is_Some None)) by (by intros [? ?]).
    by rewrite bool_decide_eq_false_2. }
  rewrite (handlePlayerChangeSprite_unknown_run _ _ _ Hs Hread).
  case_bool_decide; simpl; repeat split; try done.
  by rewrite app_nil_r.
Qed.

Lemma unread_sprite_name_is_refused_witness :
  "x"%string ≠ EmptyString ∧
  spriteDatabase town !! "x" = None ∧
  ("x"%string ∉ objectPrototypeNames) ∧
  inheritsTruthy (spritePrototype town) "x" = false ∧
  result (handlePlayerChangeSprite "alice" (Some "x"%string)) town = Return tt ∧
  players (exec (handlePlayerChangeSprite "alice" (Some "x"%string)) town)
    = players town ∧
  spriteDatabase (exec (handlePlayerChangeSprite "alice" (Some "x"%string)) town)
    = spriteDatabase town ∧
  spritePrototype (exec (handlePlayerChangeSprite "alice" (Some "x"%string)) town)
    = spritePrototype town ∧
  outbox (exec (handlePlayerChangeSprite "alice" (Some "x"%string)) town)
  = outbox town ++
    if bool_decide (connections town !! "alice" = Some OPEN)
    then [("alice",
           Response "change_sprite" false NoData
             (Some ("Sprite " +:+ dquote +:+ "x" +:+ dquote +:+ " does not exist")))]
    else [].
Proof.
  assert (Hx : "x"%string ∉ objectPrototypeNames).
  { unfold objectPrototypeNames. rewrite !not_elem_of_cons.
    repeat split; try discriminate. apply not_elem_of_nil. }
  split; [discriminate|]. split; [reflexivity|]. split; [exact Hx|].
  split; [reflexivity|].
  apply (unread_sprite_name_is_refused "alice" "x" town);
    [discriminate | reflexivity | exact Hx | reflexivity].
Defined.

(** ** The game loop *)

Lemma forEach_broadcast_run (l : list (string * Player)) w :
  forEach l (λ '(playerId, player),
      if needsBroadcast player
      then broadcastUpdate "player" "moved" (PlayerData player) None
      else mret tt) w
  = (Return tt, set_outbox (outbox w ++ tickBroadcasts (connections w) l) w).
Proof.
  revert w. induction l as [|[i p] l IH]; intros w; simpl.
  - run_monad. unfold tickBroadcasts. simpl. rewrite app_nil_r.
    by rewrite set_outbox_same.
  - run_monad. unfold tickBroadcasts. simpl.
    destruct (needsBroadcast p); simpl.
    + rewrite broadcastUpdate_run, IH. simpl. by rewrite app_assoc.
    + by rewrite IH.
Qed.

Lemma gameLoop_run now w :
  gameLoop now w
  = (Return tt,
     let ps := (λ p, fst (tickPlayer now p)) <$> players w in
     if hasUpdates now (players w)
     then set_outbox (outbox w ++ tickBroadcasts (connections w) (map_to_list ps))
            (set_players ps w)
     else set_players ps w).
Proof.
  unfold gameLoop. run_monad. fold (hasUpdates now (players w)).
  rewrite <- map_fmap_compose.
  destruct (hasUpdates now (players w)); [|done].
  by rewrite forEach_broadcast_run.
Qed.

Lemma gameLoop_players now w :
  players (exec (gameLoop now) w) = (λ p, fst (tickPlayer now p)) <$> players w.
Proof.
  unfold exec. rewrite gameLoop_run. simpl. by destruct (hasUpdates _ _).
Qed.

Lemma hasUpdates_true now (ps : gmap string Player) :
  hasUpdates now ps = true ↔
  ∃ playerId player, ps !! playerId = Some player ∧ snd (tickPlayer now player) = true.
Proof.
  unfold hasUpdates. rewrite existsb_exists. split.
  - intros [[p b] [Hin Hb]]. apply list_elem_of_In, list_elem_of_fmap in Hin.
    destruct Hin as [[i [p' b']] [Heq Hin]]. simpl in Heq. inversion Heq; subst.
    apply elem_of_map_to_list in Hin. rewrite lookup_fmap in Hin.
    destruct (ps !! i) as [q|] eqn:E; [|done]. simpl in Hin.
    exists i, q. split; [done|]. inversion Hin as [Ht]. by rewrite Ht.
  - intros (i & q & Hq & Ht). exists (tickPlayer now q). split; [|done].
    apply list_elem_of_In, list_elem_of_fmap. exists (i, tickPlayer now q).
    split; [done|]. apply elem_of_map_to_list. rewrite lookup_fmap. by rewrite Hq.
Qed.

(** ** Bounds *)

Lemma clamp_between v lo hi : lo <= hi → lo <= clamp v lo hi <= hi.
Proof.
  intros Hle. unfold clamp, Rmin, Rmax.
  destruct (Rle_dec v lo), (Rle_dec _ hi); lra.
Qed.

Lemma clamp_id v lo hi : lo <= v <= hi → clamp v lo hi = v.
Proof.
  intros Hv. unfold clamp, Rmin, Rmax.
  destruct (Rle_dec v lo), (Rle_dec _ hi); lra.
Qed.

Lemma clamp_width_inBounds v : inBounds (clamp v 0 (world.width - 50)).
Proof.
  unfold inBounds. pose proof (clamp_between v 0 (world.width - 50)) as H.
  unfold world.width in *. lra.
Qed.

Lemma clamp_height_inBounds v : inBounds (clamp v 0 (world.height - 50)).
Proof.
  unfold inBounds. pose proof (clamp_between v 0 (world.height - 50)) as H.
  unfold world.height in *. lra.
Qed.

Lemma stopped_wellPlaced player : wellPlaced player → wellPlaced (stopped player).
Proof.
  intros (Hx & Hy & _ & _).
  split; [apply Hx|]. split; [apply Hy|]. split; simpl; intros t; discriminate.
Qed.

Lemma keyStep_wellPlaced direction player :
  wellPlaced player → wellPlaced (keyStep direction player).
Proof.
  intros ([Hx0 Hx1] & [Hy0 Hy1] & _ & _). unfold keyStep, wellPlaced, inBounds.
  destruct (String.eqb direction "up"); [|destruct (String.eqb direction "down");
    [|destruct (String.eqb direction "left");
      [|destruct (String.eqb direction "right")]]];
  simpl; unfold Rmax, Rmin, world.width, world.height;
  repeat match goal with |- context [Rle_dec ?a ?b] => destruct (Rle_dec a b) end;
  (split; [lra|]; split; [lra|]; split; intros t; discriminate).
Qed.

Lemma animated_wellPlaced now player :
  wellPlaced player → wellPlaced (animated now player).
Proof.
  unfold wellPlaced.
  destruct (animated_fields now player) as (-> & -> & _ & _ & -> & ->). done.
Qed.

Lemma aimed_wellPlaced mx my player :
  wellPlaced player → wellPlaced (aimed mx my player).
Proof.
  intros (Hx & Hy & _ & _). unfold aimed.
  split; [apply Hx|]. split; [apply Hy|]. split; simpl.
  - intros t [= <-]. apply clamp_width_inBounds.
  - intros t [= <-]. apply clamp_height_inBounds.
Qed.

#[local] Hint Resolve stopped_wellPlaced keyStep_wellPlaced animated_wellPlaced
  aimed_wellPlaced : bounds.

Lemma movePlayerTowards_fields player tX tY speed :
  inBounds tX → inBounds tY →
  let player' := fst (movePlayerTowards player tX tY speed) in
  inBounds (x player') ∧ inBounds (y player') ∧
  targetX player' = targetX player ∧ targetY player' = targetY player ∧
  lastAnimationUpdate player' = lastAnimationUpdate player ∧
  animationFrame player' = animationFrame player.
Proof.
  intros HtX HtY. unfold movePlayerTowards.
  destruct (Rle_dec _ speed); simpl; repeat split;
    try apply HtX; try apply HtY;
    try apply clamp_width_inBounds; try apply clamp_height_inBounds.
Qed.

Lemma tickPlayer_wellPlaced now player :
  wellPlaced player → wellPlaced (fst (tickPlayer now player)).
Proof.
  intros Hwp. pose proof Hwp as (Hx & Hy & HtX & HtY). unfold tickPlayer.
  destruct (targetX player) as [tX|] eqn:EX, (targetY player) as [tY|] eqn:EY.
  - pose proof (movePlayerTowards_fields player tX tY 3 (HtX _ eq_refl) (HtY _ eq_refl))
      as (Hx' & Hy' & HX' & HY' & _). simpl in *.
    destruct (movePlayerTowards player tX tY 3) as [p' reached]. simpl in *.
    destruct reached; simpl.
    + split; [apply Hx'|]. split; [apply Hy'|]. split; intros t; discriminate.
    + apply (animated_wellPlaced now p'). unfold wellPlaced.
      rewrite HX', HY', EX, EY.
      split; [apply Hx'|]. split; [apply Hy'|]. split; intros t [= <-]; auto.
  - destruct (_ && _); simpl; [|done].
    unfold wellPlaced. simpl. by rewrite EX, EY.
  - destruct (_ && _); simpl; [|done].
    unfold wellPlaced. simpl. by rewrite EX, EY.
  - destruct (_ && _); simpl; [|done].
    unfold wellPlaced. simpl. by rewrite EX, EY.
Qed.

Lemma worldInBounds_insert playerId player w w' :
  worldInBounds w → wellPlaced player →
  players w' = <[playerId := player]> (players w) →
  worldInBounds w'.
Proof.
  intros Hw Hp Heq i q. rewrite Heq, lookup_insert.
  case_decide; [intros [= <-]; done | apply Hw].
Qed.

Lemma handlePlayerMove_players now playerId movement w :
  players (exec (handlePlayerMove now playerId movement) w) = players w ∨
  ∃ player player',
    players w !! playerId = Some player ∧
    players (exec (handlePlayerMove now playerId movement) w)
      = <[playerId := player']> (players w) ∧
    (wellPlaced player → wellPlaced player').
Proof.
  unfold exec.
  destruct (players w !! playerId) as [player|] eqn:Hp.
  2:{ left. by rewrite handlePlayerMove_absent_run. }
  destruct movement as [movement|].
  2:{ left. unfold handlePlayerMove. run_monad. by rewrite Hp. }
  destruct (Movement.stop movement) eqn:Hstop.
  { right. rewrite (handlePlayerMove_stop_run _ _ _ _ _ Hp Hstop). simpl.
    exists player, (stopped player). split; [done|]. split; [done|].
    auto with bounds. }
  destruct (truthyDirection movement) as [direction|] eqn:Hdir.
  { right. rewrite (handlePlayerMove_direction_run _ _ _ _ _ _ Hp Hstop Hdir). simpl.
    exists player, (animated now (keyStep direction player)).
    split; [done|]. split; [done|].
    auto with bounds. }
  destruct (Movement.x movement) as [mx|] eqn:Hmx.
  2:{ left. rewrite (handlePlayerMove_nothing_run _ _ _ _ _ Hp Hstop Hdir); auto. }
  destruct (Movement.y movement) as [my|] eqn:Hmy.
  2:{ left. rewrite (handlePlayerMove_nothing_run _ _ _ _ _ Hp Hstop Hdir); auto. }
  right. rewrite (handlePlayerMove_click_run _ _ _ _ _ _ _ Hp Hstop Hdir Hmx Hmy). simpl.
  exists player, (aimed mx my player). split; [done|]. split; [done|].
  auto with bounds.
Qed.

(** A move command of any session keeps a well placed player well
    placed. *)
Lemma handlePlayerMove_keeps_wellPlaced now sender movement w playerId player :
  players w !! playerId = Some player → wellPlaced player →
  ∃ player',
    players (exec (handlePlayerMove now sender movement) w) !! playerId = Some player' ∧
    wellPlaced player'.
Proof.
  intros Hp Hwp.
  destruct (handlePlayerMove_players now sender movement w)
    as [-> | (p0 & p1 & H0 & -> & Hkeep)].
  - by exists player.
  - rewrite lookup_insert. case_decide as Heq.
    + subst sender. rewrite Hp in H0. injection H0 as <-.
      exists p1. split; [done|]. by apply Hkeep.
    + by exists player.
Qed.

Lemma gameLoop_keeps_wellPlaced now w playerId player :
  players w !! playerId = Some player → wellPlaced player →
  ∃ player',
    players (exec (gameLoop now) w) !! playerId = Some player' ∧ wellPlaced player'.
Proof.
  intros Hp Hwp. rewrite gameLoop_players, lookup_fmap, Hp. simpl.
  eexists. split; [done|]. by apply tickPlayer_wellPlaced.
Qed.

Lemma handlePlayerMove_in_bounds now playerId movement w :
  worldInBounds w → worldInBounds (exec (handlePlayerMove now playerId movement) w).
Proof.
  intros Hw.
  destruct (handlePlayerMove_players now playerId movement w)
    as [Heq | (p0 & p1 & H0 & Heq & Hkeep)].
  - intros i q. rewrite Heq. apply Hw.
  - eapply worldInBounds_insert; [exact Hw| |exact Heq]. apply Hkeep, (Hw _ _ H0).
Qed.

Lemma gameLoop_in_bounds now w :
  worldInBounds w → worldInBounds (exec (gameLoop now) w).
Proof.
  intros Hw i q. rewrite gameLoop_players, lookup_fmap.
  destruct (players w !! i) as [p|] eqn:Hp; [|done]. simpl. intros [= <-].
  apply tickPlayer_wellPlaced. by apply (Hw i).
Qed.

Lemma random_cell_inBounds r : 0 <= r < 1 → inBounds (IZR (Int_part (r * (world.width - 50)))).
Proof.
  intros Hr. unfold world.width, inBounds.
  destruct (base_Int_part (r * (4096 - 50))) as [Hle Hgt].
  split; [|nra].
  assert (Hk : (-1 < Int_part (r * (4096 - 50)))%Z) by (apply lt_IZR; nra).
  apply IZR_le. lia.
Qed.

Lemma handlePlayerJoin_in_bounds rx ry now playerId playerInfo w :
  0 <= rx < 1 → 0 <= ry < 1 →
  worldInBounds w →
  worldInBounds (exec (handlePlayerJoin rx ry now playerId playerInfo) w).
Proof.
  intros Hrx Hry Hw. unfold exec.
  destruct (players w !! playerId) as [player|] eqn:Hp.
  { by rewrite (handlePlayerJoin_existing_run _ _ _ _ _ _ _ Hp). }
  unfold handlePlayerJoin. run_monad. rewrite Hp.
  destruct playerInfo as [info|]; [|done].
  unfold setPlayer. run_monad. rewrite sendResponse_run, broadcastUpdate_run.
  match goal with |- worldInBounds (snd (_, set_outbox _ ?w1)) =>
    assert (Hw1 : worldInBounds w1) end.
  { case_bool_decide; simpl.
    all: eapply worldInBounds_insert; [exact Hw| |reflexivity].
    all: split; [apply random_cell_inBounds, Hrx|];
         split; [apply random_cell_inBounds, Hry|];
         split; intros t; discriminate. }
  exact Hw1.
Qed.

(** As long as the coordinates of click-to-move commands are numbers (the
    commands of [Movement.t]) and the arithmetic is exact: a player whose
    position is in bounds and whose stored target, if it has one, is in
    bounds, is still in the registry and still so after any move command
    (a direction, a click-to-move target, a stop, or a command that
    carries none of them, sent by its own session or by any other) and
    after any tick of the game loop. *)
Lemma numeric_commands_keep_bounds w playerId player :
  players w !! playerId = Some player →
  wellPlaced player →
  (∀ now sender movement, ∃ player',
     players (exec (handlePlayerMove now sender movement) w) !! playerId
       = Some player' ∧
     inBounds (x player') ∧ inBounds (y player') ∧
     (∀ t, targetX player' = Some t → inBounds t) ∧
     (∀ t, targetY player' = Some t → inBounds t)) ∧
  (∀ now, ∃ player',
     players (exec (gameLoop now) w) !! playerId = Some player' ∧
     inBounds (x player') ∧ inBounds (y player') ∧
     (∀ t, targetX player' = Some t → inBounds t) ∧
     (∀ t, targetY player' = Some t → inBounds t)).
Proof.
  intros Hp Hwp. split.
  - intros now sender movement.
    destruct (handlePlayerMove_keeps_wellPlaced now sender movement w _ _ Hp Hwp)
      as (p' & Hp' & Hwp'). by exists p'.
  - intros now.
    destruct (gameLoop_keeps_wellPlaced now w _ _ Hp Hwp) as (p' & Hp' & Hwp').
    by exists p'.
Qed.

Lemma runner_wellPlaced : wellPlaced runner.
Proof.
  unfold wellPlaced, inBounds. simpl.
  split; [lra|]. split; [lra|]. split; intros t [= <-]; lra.
Qed.

(** ** Tick broadcasts *)

Lemma tickPlayer_updates now player :
  snd (tickPlayer now player) = true ↔ pursuing player ∨ idleDue now player.
Proof.
  unfold tickPlayer, pursuing, idleDue.
  destruct (targetX player) as [tX|], (targetY player) as [tY|].
  - destruct (movePlayerTowards player tX tY 3). simpl. split; [|done].
    intros _. left. split; by eexists.
  - destruct (isMoving player); simpl.
    + split; [done|]. intros [[_ [? [=]]]|[[=] _]].
    + destruct (1000 <? _)%Z eqn:E; simpl.
      * split; [|done]. intros _. right. split; [done|]. by apply Z.ltb_lt.
      * split; [done|]. intros [[_ [? [=]]]|[_ H]]. apply Z.ltb_lt in H. congruence.
  - destruct (isMoving player); simpl.
    + split; [done|]. intros [[[? [=]] _]|[[=] _]].
    + destruct (1000 <? _)%Z eqn:E; simpl.
      * split; [|done]. intros _. right. split; [done|]. by apply Z.ltb_lt.
      * split; [done|]. intros [[[? [=]] _]|[_ H]]. apply Z.ltb_lt in H. congruence.
  - destruct (isMoving player); simpl.
    + split; [done|]. intros [[[? [=]] _]|[[=] _]].
    + destruct (1000 <? _)%Z eqn:E; simpl.
      * split; [|done]. intros _. right. split; [done|]. by apply Z.ltb_lt.
      * split; [done|]. intros [[[? [=]] _]|[_ H]]. apply Z.ltb_lt in H. congruence.
Qed.

Lemma hasUpdates_spec now (ps : gmap string Player) :
  hasUpdates now ps = true ↔
  ∃ playerId player,
    ps !! playerId = Some player ∧ (pursuing player ∨ idleDue now player).
Proof.
  rewrite hasUpdates_true. split; intros (i & p & Hp & H); exists i, p;
    (split; [done|]); by apply tickPlayer_updates.
Qed.

Lemma elem_of_tickBroadcasts conns (l : list (string * Player)) i p session :
  (i, p) ∈ l → needsBroadcast p = true → conns !! session = Some OPEN →
  (session, Update "player" "moved" (PlayerData p)) ∈ tickBroadcasts conns l.
Proof.
  intros Hin Hn Hopen. unfold tickBroadcasts. apply list_elem_of_bind.
  exists (i, p). split; [|done]. simpl. rewrite Hn. by apply elem_of_deliveries.
Qed.

(** Without an update in the first loop, a tick sends nothing. *)
Lemma gameLoop_quiet now w :
  hasUpdates now (players w) = false →
  outbox (exec (gameLoop now) w) = outbox w.
Proof. intros H. unfold exec. rewrite gameLoop_run. simpl. by rewrite H. Qed.

(** C8, as the code has it. On a tick in which some player pursued a
    target or advanced its idle frame (the ticks that set [hasUpdates]),
    the second loop sends a [player moved] update, to every open session,
    for every player that after the first loop has a target coordinate set
    or [isMoving = true], whether or not the tick changed that player. *)
Theorem C8_tick_broadcasts_when_updated now w :
  (∃ playerId player,
     players w !! playerId = Some player ∧ (pursuing player ∨ idleDue now player)) →
  ∀ playerId player' session,
    players (exec (gameLoop now) w) !! playerId = Some player' →
    needsBroadcast player' = true →
    connections w !! session = Some OPEN →
    (session, Update "player" "moved" (PlayerData player'))
      ∈ outbox (exec (gameLoop now) w).
Proof.
  intros Hupd playerId player' session. apply hasUpdates_spec in Hupd.
  rewrite gameLoop_players. unfold exec. rewrite gameLoop_run. simpl.
  rewrite Hupd. simpl. intros Hp Hn Hopen.
  apply elem_of_app. right.
  apply (elem_of_tickBroadcasts _ _ playerId); [|done..].
  by apply elem_of_map_to_list.
Qed.

Lemma C8_tick_broadcasts_when_updated_witness :
  (∃ playerId player,
     players plaza !! playerId = Some player ∧ (pursuing player ∨ idleDue 5000 player)) ∧
  players (exec (gameLoop 5000) plaza) !! "carol" = Some walker ∧
  needsBroadcast walker = true ∧
  connections plaza !! "alice" = Some OPEN ∧
  ("alice", Update "player" "moved" (PlayerData walker))
    ∈ outbox (exec (gameLoop 5000) plaza).
Proof.
  assert (Hupd : ∃ playerId player,
     players plaza !! playerId = Some player ∧ (pursuing player ∨ idleDue 5000 player)).
  { exists "alice"%string, alice. split; [reflexivity|]. right. split; [reflexivity|].
    simpl. lia. }
  assert (Hp : players (exec (gameLoop 5000) plaza) !! "carol" = Some walker).
  { reflexivity. }
  split; [exact Hupd|]. split; [exact Hp|]. split; [reflexivity|].
  split; [reflexivity|].
  apply (C8_tick_broadcasts_when_updated 5000 plaza Hupd "carol" walker "alice" Hp);
    reflexivity.
Defined.

(** C8, as the specification words it, fails: [walker] has
    [isMoving = true], its session is open, and a tick in which no player
    pursues a target or is due an idle frame sends nothing. *)
Lemma C8_moving_player_not_rebroadcast :
  players stroll !! "carol" = Some walker ∧
  isMoving walker = true ∧
  connections stroll !! "carol" = Some OPEN ∧
  players (exec (gameLoop 5000) stroll) !! "carol" = Some walker ∧
  needsBroadcast walker = true ∧
  outbox (exec (gameLoop 5000) stroll) = [] ∧
  ¬ (∃ session,
       (session, Update "player" "moved" (PlayerData walker))
         ∈ outbox (exec (gameLoop 5000) stroll)).
Proof.
  assert (Hout : outbox (exec (gameLoop 5000) stroll) = []) by reflexivity.
  do 6 (split; [reflexivity|]).
  intros [session Hin]. rewrite Hout in Hin. by apply not_elem_of_nil in Hin.
Qed.

(** ** Sprite catalog *)

Example stripDataUrl_png : stripDataUrl "data:image/png;base64,AAAA" = "AAAA"%string.
Proof. reflexivity. Qed.

Example stripDataUrl_plain : stripDataUrl "AAAA" = "AAAA"%string.
Proof. reflexivity. Qed.

Example frameRef_north_1 :
  frameRef "ghost" "north" 1 = "sprites/ghost/north_1.png"%string.
Proof. reflexivity. Qed.

Example scan_registers_complete_folder :
  spriteDatabase (exec scanSpritesDirectory furnished)
  = {["pumpkin"%string :=
        {| name := "pumpkin";
           frames := {| north := ["sprites/pumpkin/north_1.png"%string];
                        south := ["sprites/pumpkin/south_1.png"%string];
                        east := ["sprites/pumpkin/east_1.png"%string;
                                 "sprites/pumpkin/east_3.png"%string];
                        west := ["sprites/pumpkin/east_1.png"%string;
                                 "sprites/pumpkin/east_3.png"%string] |};
           lastModified := 42; custom := false |}]}
  ∧ length (spritesDbFile (exec scanSpritesDirectory furnished)) = 1%nat.
Proof. split; vm_compute; reflexivity. Qed.

(** The directory scan refuses a folder that has a north frame only. *)
Example scan_refuses_north_only :
  spriteDatabase (exec scanSpritesDirectory haunted) = ∅.
Proof. vm_compute. reflexivity. Qed.

(** C1, at the input where the code departs from it: an upload that
    carries a north frame only succeeds and registers a sprite whose south,
    east and west frame lists are empty, where the directory scan would
    have refused the same frames. *)
Theorem C1_upload_registers_sprite_without_required_frames :
  spriteDatabase (exec (handleSpriteMessage 42 "ghost" ghostUpload) lobby) !! "ghost"
  = Some {| name := "ghost";
            frames := {| north := ["sprites/ghost/north_1.png"%string];
                         south := []; east := []; west := [] |};
            lastModified := 42; custom := true |} ∧
  received "ghost" (outbox (exec (handleSpriteMessage 42 "ghost" ghostUpload) lobby))
  = [Update "sprite" "added"
       (SpriteData {| name := "ghost";
                      frames := {| north := ["sprites/ghost/north_1.png"%string];
                                   south := []; east := []; west := [] |};
                      lastModified := 42; custom := true |});
     Response "upload" true
       (SpriteData {| name := "ghost";
                      frames := {| north := ["sprites/ghost/north_1.png"%string];
                                   south := []; east := []; west := [] |};
                      lastModified := 42; custom := true |}) None].
Proof. split; vm_compute; reflexivity. Qed.

Lemma hasRequiredSprites_true f :
  hasRequiredSprites f = true → north f ≠ [] ∧ south f ≠ [] ∧ east f ≠ [].
Proof.
  unfold hasRequiredSprites. simpl. rewrite !andb_true_iff.
  intros (Hn & Hs & He & _).
  destruct (north f), (south f), (east f); simpl in *; try discriminate; done.
Qed.

Lemma readSprite_assignSprite key spriteData c k :
  readSprite (assignSprite key spriteData c) k
  = if decide (key = k) then Some spriteData else readSprite c k.
Proof.
  destruct c as [db prototype]. unfold assignSprite, readSprite. simpl.
  destruct (db !! key) as [e|] eqn:He.
  - rewrite (bool_decide_eq_true_2 (is_Some (Some e))) by eauto.
    rewrite andb_false_r. simpl. rewrite lookup_insert.
    destruct (decide (key = k)); done.
  - rewrite (bool_decide_eq_false_2 (is_Some None)) by (by intros [? ?]).
    rewrite andb_true_r. case_bool_decide as Hkey; simpl.
    + destruct (decide (key = k)) as [<-|Hne].
      * by rewrite He, bool_decide_eq_true_2.
      * destruct (db !! k); [done|]. by rewrite bool_decide_eq_false_2 by congruence.
    + rewrite lookup_insert. destruct (decide (key = k)); done.
Qed.

Lemma assignSprite_own key spriteData c k s :
  (assignSprite key spriteData c).1 !! k = Some s →
  s = spriteData ∨ c.1 !! k = Some s.
Proof.
  unfold assignSprite. destruct (_ && _); simpl; [by right|].
  rewrite lookup_insert. case_decide; [|by right]. intros [= <-]. by left.
Qed.

Lemma scanSprite_valid c n entry :
  validCatalog c.1 → validCatalog (fst (scanSprite (c, n) entry)).1.
Proof.
  intros Hdb. destruct entry as [spriteName folder]. unfold scanSprite.
  destruct (match readSprite c spriteName with Some _ => _ | None => false end);
    [done|].
  destruct (hasRequiredSprites _) eqn:Hreq; [|done]. simpl.
  intros i s Hi. apply assignSprite_own in Hi as [->|Hi]; [|by apply (Hdb i)].
  apply hasRequiredSprites_true in Hreq as (Hn & Hs & He).
  by repeat split.
Qed.

Lemma foldl_scanSprite_valid (l : list (string * Folder)) c n :
  validCatalog c.1 → validCatalog (fst (foldl scanSprite (c, n) l)).1.
Proof.
  revert c n. induction l as [|entry l IH]; intros c n Hdb; [done|].
  change (foldl scanSprite (c, n) (entry :: l))
    with (foldl scanSprite (scanSprite (c, n) entry) l).
  pose proof (scanSprite_valid c n entry Hdb) as Hv.
  destruct (scanSprite (c, n) entry) as [c' n']. by apply IH.
Qed.

Lemma scanSpritesDirectory_catalog w :
  catalog (exec scanSpritesDirectory w)
  = match fs w with
    | None => catalog w
    | Some spriteFolders =>
        fst (foldl scanSprite (catalog w, 0%nat) (map_to_list spriteFolders))
    end.
Proof.
  unfold exec, scanSpritesDirectory. run_monad. destruct (fs w); [|done].
  destruct (foldl _ _ _) as [[db prototype] n]. simpl.
  destruct (0 <? n)%nat; done.
Qed.

(** The directory scan keeps the catalog valid: what it registers has a
    frame for each of north, south and east, and west is the copy of
    east. *)
Lemma scanSpritesDirectory_valid w :
  validCatalog (spriteDatabase w) →
  validCatalog (spriteDatabase (exec scanSpritesDirectory w)).
Proof.
  intros Hdb.
  change (spriteDatabase (exec scanSpritesDirectory w))
    with (catalog (exec scanSpritesDirectory w)).1.
  rewrite scanSpritesDirectory_catalog.
  destruct (fs w); [|done]. by apply foldl_scanSprite_valid.
Qed.

(** ** Uploads *)

Lemma set_fs_set_fs f g w : set_fs f (set_fs g w) = set_fs f w.
Proof. done. Qed.

Lemma uploadFrame_run spriteName direction st v w :
  ∃ o f, uploadFrame spriteName direction st v w = (o, set_fs f w) ∧
         (isOther v = true → o = Throw "base64Data.replace is not a function") ∧
         (isOther v = false → ∃ st', o = Return st').
Proof.
  destruct st as [fr index]. destruct v as [s|]; simpl.
  - unfold writeFileSync. run_monad. eexists _, _. split; [reflexivity|].
    split; [done|]. intros _. by eexists.
  - unfold throw. exists (Throw "base64Data.replace is not a function"), (fs w).
    split; [by destruct w|]. split; [done|]. done.
Qed.

Lemma foldM_uploadFrame_run spriteName direction items st w :
  ∃ o f, foldM items (uploadFrame spriteName direction) st w = (o, set_fs f w) ∧
         (existsb isOther items = true →
          o = Throw "base64Data.replace is not a function") ∧
         (existsb isOther items = false → ∃ st', o = Return st').
Proof.
  revert st w. induction items as [|v items IH]; intros st w; simpl.
  - run_monad. exists (Return st), (fs w). split; [by destruct w|].
    split; [done|]. intros _. by eexists.
  - run_monad.
    destruct (uploadFrame_run spriteName direction st v w) as (o & f & -> & Hother & Hstr).
    destruct (isOther v) eqn:Ev; simpl.
    + rewrite (Hother eq_refl). exists (Throw "base64Data.replace is not a function"), f.
      split; [done|]. split; done.
    + destruct (Hstr eq_refl) as [st' ->].
      destruct (IH st' (set_fs f w)) as (o' & f' & -> & H1 & H2).
      exists o', f'. rewrite set_fs_set_fs. done.
Qed.

Lemma uploadDirection_run spriteName fr entry w :
  ∃ o f, uploadDirection spriteName fr entry w = (o, set_fs f w) ∧
         (entryFails entry = true →
          o = Throw "base64Data.replace is not a function") ∧
         (entryFails entry = false → ∃ fr', o = Return fr').
Proof.
  destruct entry as [direction [items|]]; unfold uploadDirection, entryFails; simpl.
  - destruct (isUploadDirection direction); simpl.
    + run_monad.
      destruct (foldM_uploadFrame_run spriteName direction items (fr, 0%nat) w)
        as (o & f & -> & H1 & H2).
      destruct (existsb isOther items).
      * rewrite (H1 eq_refl). exists (Throw "base64Data.replace is not a function"), f.
        done.
      * destruct (H2 eq_refl) as [[fr' k] ->]. exists (Return fr'), f.
        split; [done|]. split; [done|]. intros _. by eexists.
    + run_monad. exists (Return fr), (fs w). split; [by destruct w|].
      split; [done|]. intros _. by eexists.
  - run_monad. exists (Return fr), (fs w). split; [by destruct w|].
    split; [done|]. intros _. by eexists.
Qed.

Lemma foldM_uploadDirection_run spriteName entries fr w :
  ∃ o f, foldM entries (uploadDirection spriteName) fr w = (o, set_fs f w) ∧
         (decodeFails entries = true →
          o = Throw "base64Data.replace is not a function") ∧
         (decodeFails entries = false → ∃ fr', o = Return fr').
Proof.
  revert fr w. induction entries as [|entry entries IH]; intros fr w; simpl.
  - run_monad. exists (Return fr), (fs w). split; [by destruct w|].
    split; [done|]. intros _. by eexists.
  - run_monad.
    destruct (uploadDirection_run spriteName fr entry w) as (o & f & -> & Hfail & Hok).
    destruct (entryFails entry) eqn:Ee; simpl.
    + rewrite (Hfail eq_refl). exists (Throw "base64Data.replace is not a function"), f.
      done.
    + destruct (Hok eq_refl) as [fr' ->].
      destruct (IH fr' (set_fs f w)) as (o' & f' & -> & H1 & H2).
      exists o', f'. rewrite set_fs_set_fs. done.
Qed.

Lemma mkdirIfMissing_run now spriteName w :
  ∃ f, mkdirIfMissing now spriteName w = (Return tt, set_fs f w).
Proof.
  unfold mkdirIfMissing, modify.
  destruct (default ∅ (fs w) !! spriteName).
  - exists (fs w). by destruct w.
  - by eexists.
Qed.

Lemma addCustomSprite_decode_failure now spriteName entries w :
  decodeFails entries = true →
  ∃ f, addCustomSprite now (Some spriteName) (Some entries) w
       = (Throw "base64Data.replace is not a function", set_fs f w).
Proof.
  intros Hfail. unfold addCustomSprite. run_monad.
  destruct (mkdirIfMissing_run now spriteName w) as [f0 ->].
  destruct (foldM_uploadDirection_run spriteName entries
              {| north := []; south := []; east := []; west := [] |} (set_fs f0 w))
    as (o & f & -> & H1 & _).
  rewrite (H1 Hfail). exists f. by rewrite set_fs_set_fs.
Qed.

(** C7, as the code has it. An upload in which a frame payload of a
    north, south or east array cannot be decoded is rejected: the handler
    returns normally, the catalog (its entries, and so the entry, if any,
    of the uploaded name, and its prototype), the persisted snapshots and
    the registry are untouched,
    no [sprite added] update is sent, and the only message is the failure
    response to the open session of the uploader.  The asset store is not
    part of the statement: the folder and the frames written before the
    failing one stay. *)
Theorem C7_failed_decode_rejects_upload now playerId data spriteName' entries w :
  action data = Some "upload"%string →
  spriteName data = Some spriteName' →
  spriteFrames data = Some entries →
  decodeFails entries = true →
  result (handleSpriteMessage now playerId data) w = Return tt ∧
  spriteDatabase (exec (handleSpriteMessage now playerId data) w) = spriteDatabase w ∧
  spritePrototype (exec (handleSpriteMessage now playerId data) w)
    = spritePrototype w ∧
  spritesDbFile (exec (handleSpriteMessage now playerId data) w) = spritesDbFile w ∧
  players (exec (handleSpriteMessage now playerId data) w) = players w ∧
  outbox (exec (handleSpriteMessage now playerId data) w)
  = outbox w ++
    if bool_decide (connections w !! playerId = Some OPEN)
    then [(playerId,
           Response "upload" false NoData
             (Some "base64Data.replace is not a function"%string))]
    else [].
Proof.
  intros Hact Hname Hframes Hfail. unfold result, exec, handleSpriteMessage.
  rewrite Hact, Hname, Hframes. unfold try_catch. run_monad.
  destruct (addCustomSprite_decode_failure now spriteName' entries w Hfail) as [f ->].
  rewrite sendResponse_run. simpl.
  case_bool_decide; simpl; repeat split; try done. by rewrite app_nil_r.
Qed.

Lemma C7_failed_decode_rejects_upload_witness :
  action brokenUpload = Some "upload"%string ∧
  spriteName brokenUpload = Some "ghost"%string ∧
  decodeFails [("north"%string, JArray [JString "data:image/png;base64,AAAA"; JOther]);
               ("south"%string, JArray [JString "BBBB"]);
               ("east"%string, JArray [JString "CCCC"])] = true ∧
  result (handleSpriteMessage 42 "ghost" brokenUpload) lobby = Return tt ∧
  spriteDatabase (exec (handleSpriteMessage 42 "ghost" brokenUpload) lobby)
    = spriteDatabase lobby ∧
  spritePrototype (exec (handleSpriteMessage 42 "ghost" brokenUpload) lobby)
    = spritePrototype lobby ∧
  spritesDbFile (exec (handleSpriteMessage 42 "ghost" brokenUpload) lobby)
    = spritesDbFile lobby ∧
  players (exec (handleSpriteMessage 42 "ghost" brokenUpload) lobby) = players lobby ∧
  outbox (exec (handleSpriteMessage 42 "ghost" brokenUpload) lobby)
  = outbox lobby ++
    if bool_decide (connections lobby !! "ghost" = Some OPEN)
    then [("ghost"%string,
           Response "upload" false NoData
             (Some "base64Data.replace is not a function"%string))]
    else [].
Proof.
  split; [reflexivity|]. split; [reflexivity|]. split; [reflexivity|].
  apply (C7_failed_decode_rejects_upload 42 "ghost" brokenUpload "ghost"
           [("north"%string, JArray [JString "data:image/png;base64,AAAA"; JOther]);
            ("south"%string, JArray [JString "BBBB"]);
            ("east"%string, JArray [JString "CCCC"])] lobby); reflexivity.
Defined.

(** C7, as the specification words it, fails: the upload [brokenUpload] is
    rejected because its second north frame cannot be decoded, and the
    asset store, which had no sprite directory, now has the folder of the
    sprite with the first north frame in it. *)
Lemma C7_rejected_upload_leaves_files :
  received "ghost" (outbox (exec (handleSpriteMessage 42 "ghost" brokenUpload) lobby))
  = [Response "upload" false NoData
       (Some "base64Data.replace is not a function"%string)] ∧
  fs lobby = None ∧
  fs (exec (handleSpriteMessage 42 "ghost" brokenUpload) lobby)
  = Some {["ghost"%string :=
             {| mtime := 42; files := {["north_1.png"%string := "AAAA"%string]} |}]} ∧
  fs (exec (handleSpriteMessage 42 "ghost" brokenUpload) lobby) ≠ fs lobby.
Proof.
  assert (Hfs : fs (exec (handleSpriteMessage 42 "ghost" brokenUpload) lobby)
                = Some {["ghost"%string :=
                           {| mtime := 42;
                              files := {["north_1.png"%string := "AAAA"%string]} |}]})
    by (vm_compute; reflexivity).
  split; [vm_compute; reflexivity|]. split; [reflexivity|]. split; [exact Hfs|].
  rewrite Hfs. discriminate.
Qed.

(** ** Pursuit *)

Lemma ceil_spec r : IZR (ceil r) - 1 < r <= IZR (ceil r).
Proof.
  unfold ceil. destruct (base_Int_part (- r)) as [Hle Hgt].
  rewrite opp_IZR. lra.
Qed.

Lemma ceil_unique r (k : Z) : IZR k - 1 < r <= IZR k → ceil r = k.
Proof.
  intros [Hlo Hhi]. destruct (ceil_spec r) as [Clo Chi].
  assert (H1 : (ceil r - 1 < k)%Z) by (apply lt_IZR; rewrite minus_IZR; lra).
  assert (H2 : (k - 1 < ceil r)%Z) by (apply lt_IZR; rewrite minus_IZR; lra).
  lia.
Qed.

Lemma distance_nonneg x1 y1 x2 y2 : 0 <= distance x1 y1 x2 y2.
Proof. unfold distance. apply sqrt_pos. Qed.

Lemma distance_sqr x1 y1 x2 y2 :
  distance x1 y1 x2 y2 * distance x1 y1 x2 y2 = (x2 - x1) ^ 2 + (y2 - y1) ^ 2.
Proof.
  unfold distance. apply sqrt_sqrt.
  apply Rplus_le_le_0_compat; apply pow2_ge_0.
Qed.

Lemma distance_same x1 y1 : distance x1 y1 x1 y1 = 0.
Proof.
  unfold distance. replace ((x1 - x1) ^ 2 + (y1 - y1) ^ 2) with 0 by ring.
  apply sqrt_0.
Qed.

(** One step of length [speed] along the segment to a target that is
    further away than [speed] shortens the distance by [speed]. *)
Lemma distance_after_step x1 y1 tX tY speed :
  0 < speed < distance x1 y1 tX tY →
  distance (x1 + (tX - x1) * (speed / distance x1 y1 tX tY))
           (y1 + (tY - y1) * (speed / distance x1 y1 tX tY)) tX tY
  = distance x1 y1 tX tY - speed.
Proof.
  intros [Hs Hd]. pose proof (distance_sqr x1 y1 tX tY) as Hsq.
  set (d := distance x1 y1 tX tY) in *.
  unfold distance at 1.
  apply sqrt_lem_1; [apply Rplus_le_le_0_compat; apply pow2_ge_0 | lra |].
  replace ((tX - (x1 + (tX - x1) * (speed / d))) ^ 2
           + (tY - (y1 + (tY - y1) * (speed / d))) ^ 2)
    with (((tX - x1) ^ 2 + (tY - y1) ^ 2) * ((1 - speed / d) * (1 - speed / d)))
    by ring.
  rewrite <- Hsq. field. lra.
Qed.

(** A point of the segment between two in-bounds coordinates is in
    bounds. *)
Lemma step_between a t r : inBounds a → inBounds t → 0 <= r <= 1 →
  inBounds (a + (t - a) * r).
Proof. unfold inBounds. intros [] [] []. split; nra. Qed.

Lemma ticks_cons now nows player :
  ticks (now :: nows) player = ticks nows (fst (tickPlayer now player)).
Proof. done. Qed.

Section Pursuit.
(** A target within the bounds of the world. *)
Variables tX tY : R.
Hypothesis HtX : inBounds tX.
Hypothesis HtY : inBounds tY.

(** The arrival step. *)
Lemma tickPlayer_arrive now player :
  targetX player = Some tX → targetY player = Some tY →
  distance (x player) (y player) tX tY <= 3 →
  let q := fst (tickPlayer now player) in
  x q = tX ∧ y q = tY ∧ targetX q = None ∧ targetY q = None ∧
  isMoving q = false ∧ animationFrame q = 0%Z.
Proof.
  intros HX HY Hd. unfold tickPlayer, movePlayerTowards. rewrite HX, HY.
  destruct (Rle_dec _ 3) as [_|Hn]; [|contradiction]. simpl. done.
Qed.

(** A step on the way: the clamp changes nothing, the target stays and
    the distance to it shrinks by 3. *)
Lemma tickPlayer_advance now player :
  targetX player = Some tX → targetY player = Some tY →
  inBounds (x player) → inBounds (y player) →
  3 < distance (x player) (y player) tX tY →
  let q := fst (tickPlayer now player) in
  targetX q = Some tX ∧ targetY q = Some tY ∧
  inBounds (x q) ∧ inBounds (y q) ∧ isMoving q = true ∧
  distance (x q) (y q) tX tY = distance (x player) (y player) tX tY - 3.
Proof.
  intros HX HY Hx Hy Hd.
  set (d := distance (x player) (y player) tX tY) in *.
  assert (Hr : 0 <= 3 / d <= 1).
  { split; [apply Rle_mult_inv_pos; lra|].
    apply (Rmult_le_reg_r d); [lra|]. field_simplify; lra. }
  pose proof (step_between _ _ _ Hx HtX Hr) as Hx'.
  pose proof (step_between _ _ _ Hy HtY Hr) as Hy'.
  unfold tickPlayer, movePlayerTowards. rewrite HX, HY. fold d.
  destruct (Rle_dec d 3) as [Hle|_]; [lra|].
  match goal with |- context [if ?c then advanceFrame _ ?p else _] =>
    change (if c then advanceFrame now p else p) with (animated now p);
    destruct (animated_fields now p) as (Ex & Ey & _ & Em & EX & EY)
  end.
  cbv zeta. simpl fst. rewrite Ex, Ey, Em, EX, EY. simpl.
  rewrite !clamp_id.
  - repeat split; try done; try apply Hx'; try apply Hy'.
    apply distance_after_step. fold d. lra.
  - unfold world.height, inBounds in *. lra.
  - unfold world.width, inBounds in *. lra.
Qed.

(** Pursuit from a distance in the interval that takes [S m] ticks. *)
Lemma pursuit_run (m : nat) : ∀ (nows : list Z) player,
  length nows = S m →
  targetX player = Some tX → targetY player = Some tY →
  inBounds (x player) → inBounds (y player) →
  distance (x player) (y player) tX tY <= 3 * INR (S m) →
  (m = 0%nat ∨ 3 * INR m < distance (x player) (y player) tX tY) →
  (∀ k, (k ≤ m)%nat →
     targetX (ticks (take k nows) player) = Some tX ∧
     targetY (ticks (take k nows) player) = Some tY ∧
     distance (x (ticks (take k nows) player)) (y (ticks (take k nows) player)) tX tY
     = distance (x player) (y player) tX tY - 3 * INR k) ∧
  x (ticks nows player) = tX ∧ y (ticks nows player) = tY ∧
  targetX (ticks nows player) = None ∧ targetY (ticks nows player) = None ∧
  isMoving (ticks nows player) = false ∧
  animationFrame (ticks nows player) = 0%Z.
Proof.
  induction m as [|m IH]; intros nows player Hlen HX HY Hx Hy Hhi Hlo.
  - destruct nows as [|now [|? ?]]; try discriminate. split.
    + intros k Hk. assert (k = 0%nat) as -> by lia. simpl.
      repeat split; try done. lra.
    + rewrite ticks_cons. simpl in Hhi. apply tickPlayer_arrive; try done. lra.
  - destruct nows as [|now nows]; [discriminate|]. injection Hlen as Hlen.
    assert (Hfar : 3 < distance (x player) (y player) tX tY).
    { destruct Hlo as [|Hlo]; [discriminate|]. rewrite S_INR in Hlo.
      pose proof (pos_INR m). lra. }
    destruct (tickPlayer_advance now player HX HY Hx Hy Hfar)
      as (HX1 & HY1 & Hx1 & Hy1 & _ & Hd1).
    destruct (IH nows (fst (tickPlayer now player)) Hlen HX1 HY1 Hx1 Hy1)
      as [Hmid Hend].
    { rewrite Hd1. rewrite (S_INR (S m)) in Hhi. lra. }
    { destruct m as [|m']; [by left|right]. rewrite Hd1.
      destruct Hlo as [|Hlo]; [discriminate|]. rewrite (S_INR (S m')) in Hlo. lra. }
    split; [|by rewrite ticks_cons].
    intros [|k] Hk.
    + simpl. repeat split; try done. lra.
    + rewrite firstn_cons, ticks_cons.
      destruct (Hmid k ltac:(lia)) as (H1 & H2 & H3).
      repeat split; try done. rewrite H3, Hd1, (S_INR k). lra.
Qed.
End Pursuit.

(** Pursuit in exact arithmetic, where no step rounds.  A player whose
    position and target are in bounds, at distance [d] from the target,
    reaches the target in [max 1 (ceil (d / 3))] ticks: before the last of
    them the target is still stored and each tick has brought the player
    exactly 3 closer (after [k] ticks the distance is [d - 3 k], so it
    never grows and the target is never passed), and the last one puts the
    player on the target exactly, clears the target, and sets
    [isMoving = false] and [animationFrame = 0]. *)
Lemma exact_pursuit_reaches_target (nows : list Z) player tX tY :
  targetX player = Some tX → targetY player = Some tY →
  inBounds (x player) → inBounds (y player) → inBounds tX → inBounds tY →
  length nows = Z.to_nat (Z.max 1 (ceil (distance (x player) (y player) tX tY / 3))) →
  (∀ k, (k < length nows)%nat →
     targetX (ticks (take k nows) player) = Some tX ∧
     targetY (ticks (take k nows) player) = Some tY ∧
     distance (x (ticks (take k nows) player)) (y (ticks (take k nows) player)) tX tY
     = distance (x player) (y player) tX tY - 3 * INR k) ∧
  x (ticks nows player) = tX ∧ y (ticks nows player) = tY ∧
  targetX (ticks nows player) = None ∧ targetY (ticks nows player) = None ∧
  isMoving (ticks nows player) = false ∧
  animationFrame (ticks nows player) = 0%Z.
Proof.
  intros HX HY Hx Hy HtX HtY Hlen.
  pose proof (distance_nonneg (x player) (y player) tX tY) as Hd0.
  set (d := distance (x player) (y player) tX tY) in *.
  destruct (ceil_spec (d / 3)) as [Clo Chi].
  assert (Hc0 : (0 ≤ ceil (d / 3))%Z).
  { apply le_IZR. lra. }
  set (m := Z.to_nat (Z.max 1 (ceil (d / 3)) - 1)).
  assert (Hn : length nows = S m).
  { rewrite Hlen. unfold m. lia. }
  destruct (pursuit_run tX tY HtX HtY m nows player Hn HX HY Hx Hy) as [Hmid Hend].
  - fold d. rewrite S_INR. unfold m. rewrite INR_IZR_INZ, Z2Nat.id by lia.
    rewrite minus_IZR. destruct (Z.max_spec 1 (ceil (d / 3))) as [[Hlt ->]|[Hle ->]].
    + lra.
    + apply IZR_le in Hle. lra.
  - fold d. destruct (Z.max_spec 1 (ceil (d / 3))) as [[Hlt Hmax]|[Hle Hmax]].
    + right. unfold m. rewrite INR_IZR_INZ, Z2Nat.id by lia.
      rewrite minus_IZR, Hmax. lra.
    + left. unfold m. rewrite Hmax. reflexivity.
  - split; [|exact Hend]. intros k Hk. apply Hmid. lia.
Qed.

(** ** What uploads do keep: west is the copy of east *)

Lemma addCustomSprite_registers now spriteName entries w :
  decodeFails entries = false →
  ∃ s, result (addCustomSprite now (Some spriteName) (Some entries)) w = Return s ∧
       catalog (exec (addCustomSprite now (Some spriteName) (Some entries)) w)
       = assignSprite spriteName s (catalog w) ∧
       name s = spriteName ∧ custom s = true ∧
       west (frames s) = east (frames s).
Proof.
  intros Hok. unfold result, exec, addCustomSprite. run_monad.
  destruct (mkdirIfMissing_run now spriteName w) as [f0 ->].
  destruct (foldM_uploadDirection_run spriteName entries
              {| north := []; south := []; east := []; west := [] |} (set_fs f0 w))
    as (o & f & -> & _ & H2).
  destruct (H2 Hok) as [fr ->]. unfold saveSpriteDatabase. run_monad.
  rewrite broadcastUpdate_run. simpl.
  eexists. split; [reflexivity|]. split; [|done].
  unfold catalog. simpl. by destruct (assignSprite _ _ _).
Qed.

Lemma westCopiesEast_assign c spriteName s :
  westCopiesEast c.1 → west (frames s) = east (frames s) →
  westCopiesEast (assignSprite spriteName s c).1.
Proof.
  intros Hdb Hs i s' Hi. apply assignSprite_own in Hi as [->|Hi]; [done|].
  by apply (Hdb i).
Qed.

Lemma upload_keeps_westCopiesEast now playerId data w :
  action data = Some "upload"%string →
  westCopiesEast (spriteDatabase w) →
  westCopiesEast (spriteDatabase (exec (handleSpriteMessage now playerId data) w)).
Proof.
  intros Hact Hdb. unfold exec, handleSpriteMessage. rewrite Hact.
  unfold try_catch. run_monad.
  destruct (spriteName data) as [n|].
  2:{ unfold addCustomSprite. run_monad. rewrite sendResponse_run.
      by case_bool_decide. }
  destruct (spriteFrames data) as [entries|].
  2:{ unfold addCustomSprite. run_monad.
      destruct (mkdirIfMissing_run now n w) as [f0 ->].
      rewrite sendResponse_run. by case_bool_decide. }
  destruct (decodeFails entries) eqn:Hfail.
  - destruct (addCustomSprite_decode_failure now n entries w Hfail) as [f ->].
    rewrite sendResponse_run. by case_bool_decide.
  - destruct (addCustomSprite_registers now n entries w Hfail)
      as (s & Hres & Hdb' & _ & _ & Hwest).
    unfold result, exec in *.
    destruct (addCustomSprite now (Some n) (Some entries) w) as [o w1].
    simpl in *. subst o. rewrite sendResponse_run.
    assert (westCopiesEast (spriteDatabase w1)).
    { change (spriteDatabase w1) with (catalog w1).1.
      rewrite Hdb'. by apply westCopiesEast_assign. }
    by case_bool_decide.
Qed.

(** * Further properties of the server *)

(** ** Who receives what *)

Lemma received_app i (l1 l2 : list (string * Message)) :
  received i (l1 ++ l2) = received i l1 ++ received i l2.
Proof. unfold received. by rewrite filter_app, fmap_app. Qed.

Lemma received_tagged_NoDup (i : string) (data : Message) (l : list string) :
  NoDup l →
  received i ((λ j, (j, data)) <$> l) = if bool_decide (i ∈ l) then [data] else [].
Proof.
  induction l as [|j l IH]; intros Hnd; [done|].
  apply NoDup_cons in Hnd as [Hj Hnd]. specialize (IH Hnd).
  unfold received in *. rewrite fmap_cons. destruct (decide (j = i)) as [->|Hne].
  - rewrite filter_cons_True by done. rewrite fmap_cons, IH.
    rewrite (bool_decide_eq_false_2 (i ∈ l)) by done.
    rewrite bool_decide_eq_true_2; [done|]. left.
  - rewrite filter_cons_False by done. rewrite IH.
    apply (f_equal (λ b : bool, if b then [data] else [])).
    apply bool_decide_ext. rewrite elem_of_cons. split; [auto|].
    intros [Heq|Hin]; [congruence|done].
Qed.

Lemma recipients_NoDup conns excl : NoDup (recipients conns excl).
Proof.
  unfold recipients. pose proof (NoDup_fst_map_to_list conns) as Hnd.
  induction (map_to_list conns) as [|[j ws] l IH]; simpl; [constructor|].
  rewrite fmap_cons in Hnd. apply NoDup_cons in Hnd as [Hj Hnd].
  destruct (reaches excl (j, ws)); simpl; [|by apply IH].
  apply NoDup_cons. split; [|by apply IH].
  intros Hin. apply Hj. apply list_elem_of_fmap in Hin as [[j' ws'] [-> Hin]].
  apply list_elem_of_In, filter_In in Hin as [Hin _].
  apply list_elem_of_fmap. exists (j', ws'). split; [done|]. by apply list_elem_of_In.
Qed.

Lemma received_deliveries conns data excl (i : string) :
  received i (deliveries conns data excl)
  = if bool_decide (conns !! i = Some OPEN ∧ Some i ≠ excl) then [data] else [].
Proof.
  unfold deliveries. rewrite received_tagged_NoDup by apply recipients_NoDup.
  apply (f_equal (λ b : bool, if b then [data] else [])).
  apply bool_decide_ext. apply elem_of_recipients.
Qed.

(** X1. A broadcast reaches each session at most once: an open session other
    than the excluded one receives exactly one copy of the message, any
    other session (closed, closing, connecting, unknown or excluded)
    receives nothing; nothing but the outbox changes. *)
Theorem broadcast_exactly_once data excl w (session : string) :
  result (broadcast data excl) w = Return tt ∧
  set_outbox (outbox w) (exec (broadcast data excl) w) = w ∧
  received session (outbox (exec (broadcast data excl) w))
  = received session (outbox w)
    ++ if bool_decide (connections w !! session = Some OPEN ∧ Some session ≠ excl)
       then [data] else [].
Proof.
  unfold result, exec. rewrite broadcast_run. simpl.
  split; [done|]. split; [by destruct w|].
  by rewrite received_app, received_deliveries.
Qed.

(** ** Joining *)

Lemma handlePlayerJoin_new_run rx ry now playerId info w :
  players w !! playerId = None →
  handlePlayerJoin rx ry now playerId (Some info) w
  = (Return tt,
     let player' := newPlayer rx ry now playerId
                      (joinSprite (catalog w) info) (joinUsername playerId info) in
     let players' := <[playerId := player']> (players w) in
     set_outbox
       ((outbox w ++
         if bool_decide (connections w !! playerId = Some OPEN)
         then [(playerId, Response "join" true (JoinData playerId players') None)]
         else []) ++
        deliveries (connections w)
          (Update "player" "joined" (PlayerData player')) (Some playerId))
       (set_players players' w)).
Proof.
  intros Hp. unfold handlePlayerJoin. run_monad. rewrite Hp.
  unfold setPlayer. run_monad. rewrite sendResponse_run. simpl.
  fold (catalog w). fold (joinSprite (catalog w) info).
  fold (joinUsername playerId info).
  fold (newPlayer rx ry now playerId (joinSprite (catalog w) info)
          (joinUsername playerId info)).
  case_bool_decide; simpl; rewrite broadcastUpdate_run; simpl;
    rewrite lookup_insert_eq; [done|]. by rewrite app_nil_r.
Qed.

Lemma handlePlayerJoin_undefined_run rx ry now playerId w :
  players w !! playerId = None →
  handlePlayerJoin rx ry now playerId None w
  = (Throw "Cannot read properties of undefined (reading 'sprite')", w).
Proof. intros Hp. unfold handlePlayerJoin. run_monad. by rewrite Hp. Qed.

(** What makes [spriteDatabase[key]] truthy. *)
Lemma readsTruthy_spec c key :
  readsTruthy c key = true ↔
  is_Some (c.1 !! key) ∨ key ∈ objectPrototypeNames ∨
  inheritsTruthy c.2 key = true.
Proof.
  unfold readsTruthy. rewrite !orb_true_iff, !bool_decide_eq_true. tauto.
Qed.

(** X2. A join for an id the registry does not have allocates a record under
    that id: its sprite is the requested name when that name is not empty
    and [spriteDatabase[name]] reads truthy (an entry of the catalog, or a
    property the catalog object inherits) and ["default"] otherwise (whether
    or not the catalog has a default sprite), it faces south, stands still
    with no target at frame 0, at a position with integer coordinates
    between 0 and 4045; the records of the other players are not
    touched. *)
Theorem join_allocates_record rx ry now playerId info w :
  players w !! playerId = None →
  0 <= rx < 1 → 0 <= ry < 1 →
  ∃ player',
    players (exec (handlePlayerJoin rx ry now playerId (Some info)) w)
      = <[playerId := player']> (players w) ∧
    id player' = playerId ∧
    sprite player'
      = match PlayerInfo.sprite info with
        | Some s =>
            if bool_decide
                 (s ≠ EmptyString ∧
                  (is_Some (spriteDatabase w !! s) ∨ s ∈ objectPrototypeNames ∨
                   inheritsTruthy (spritePrototype w) s = true))
            then s else "default"%string
        | None => "default"%string
        end ∧
    facing player' = Facing.south ∧ isMoving player' = false ∧
    targetX player' = None ∧ targetY player' = None ∧
    animationFrame player' = 0%Z ∧ lastAnimationUpdate player' = now ∧
    (∃ i j : Z, x player' = IZR i ∧ y player' = IZR j ∧
                (0 ≤ i ≤ 4045)%Z ∧ (0 ≤ j ≤ 4045)%Z).
Proof.
  intros Hp Hrx Hry. eexists. unfold exec.
  rewrite (handlePlayerJoin_new_run _ _ _ _ _ _ Hp). simpl.
  split; [reflexivity|]. split; [done|]. split.
  { unfold joinSprite. destruct (PlayerInfo.sprite info) as [s|]; [|done].
    assert (Hiff : truthy s && readsTruthy (catalog w) s = true ↔
                   s ≠ EmptyString ∧
                   (is_Some (spriteDatabase w !! s) ∨ s ∈ objectPrototypeNames ∨
                    inheritsTruthy (spritePrototype w) s = true)).
    { rewrite andb_true_iff, readsTruthy_spec. unfold catalog. simpl.
      assert (truthy s = true ↔ s ≠ EmptyString) as -> by (by destruct s).
      done. }
    case_bool_decide as Hd.
    - apply Hiff in Hd. by rewrite Hd.
    - destruct (truthy s && readsTruthy (catalog w) s); [|done].
      exfalso. apply Hd, Hiff. done. }
  repeat (split; [done|]).
  exists (Int_part (rx * (world.width - 50))), (Int_part (ry * (world.height - 50))).
  split; [done|]. split; [done|].
  unfold world.width, world.height.
  destruct (base_Int_part (rx * (4096 - 50))) as [Hx1 Hx2].
  destruct (base_Int_part (ry * (4096 - 50))) as [Hy1 Hy2].
  assert (-1 < Int_part (rx * (4096 - 50)) < 4046)%Z
    by (split; apply lt_IZR; nra).
  assert (-1 < Int_part (ry * (4096 - 50)) < 4046)%Z
    by (split; apply lt_IZR; nra).
  lia.
Qed.

Lemma join_allocates_record_witness :
  players lobby !! "guest" = None ∧ 0 <= 0.5 < 1 ∧ 0 <= 0.25 < 1 ∧
  ∃ player',
    players (exec (handlePlayerJoin 0.5 0.25 9 "guest" (Some joinAsWitch)) lobby)
      = <[("guest" : string) := player']> (players lobby) ∧
    id player' = "guest"%string ∧
    sprite player'
      = match PlayerInfo.sprite joinAsWitch with
        | Some s =>
            if bool_decide
                 (s ≠ EmptyString ∧
                  (is_Some (spriteDatabase lobby !! s) ∨ s ∈ objectPrototypeNames ∨
                   inheritsTruthy (spritePrototype lobby) s = true))
            then s else "default"%string
        | None => "default"%string
        end ∧
    facing player' = Facing.south ∧ isMoving player' = false ∧
    targetX player' = None ∧ targetY player' = None ∧
    animationFrame player' = 0%Z ∧ lastAnimationUpdate player' = 9%Z ∧
    (∃ i j : Z, x player' = IZR i ∧ y player' = IZR j ∧
                (0 ≤ i ≤ 4045)%Z ∧ (0 ≤ j ≤ 4045)%Z).
Proof.
  split; [reflexivity|]. split; [lra|]. split; [lra|].
  apply (join_allocates_record 0.5 0.25 9 "guest" joinAsWitch lobby);
    [reflexivity | lra | lra].
Defined.

(** On the empty catalog of [lobby] a first join that asks for the sprite
    ["witch"] gets ["default"], and one that asks for ["toString"], which
    the catalog object inherits, gets ["toString"]. *)
Example join_sprite_on_empty_catalog :
  joinSprite (catalog lobby) joinAsWitch = "default"%string ∧
  joinSprite (catalog lobby)
    {| PlayerInfo.sprite := Some "toString"%string; PlayerInfo.username := None |}
  = "toString"%string.
Proof. split; reflexivity. Qed.

Lemma received_one (session playerId : string) (m : Message) :
  received session [(playerId, m)] = if bool_decide (session = playerId) then [m] else [].
Proof.
  unfold received. case_bool_decide as H.
  - subst. by rewrite filter_cons_True.
  - rewrite filter_cons_False; [done|]. simpl. congruence.
Qed.

Lemma received_response_then_update (conns : gmap string ReadyState)
    (session playerId : string) (m u : Message) :
  received session (if bool_decide (conns !! playerId = Some OPEN)
                    then [(playerId, m)] else [])
  ++ (if bool_decide (conns !! session = Some OPEN ∧ Some session ≠ Some playerId)
      then [u] else [])
  = if bool_decide (conns !! session = Some OPEN) then
      if bool_decide (session = playerId) then [m] else [u]
    else [].
Proof.
  destruct (decide (session = playerId)) as [->|Hne].
  - rewrite (bool_decide_eq_false_2 (_ ∧ _)) by (by intros [_ ?]).
    rewrite (bool_decide_eq_true_2 (playerId = playerId)) by done.
    rewrite app_nil_r. case_bool_decide; [|done].
    rewrite received_one. by rewrite bool_decide_eq_true_2.
  - rewrite (bool_decide_eq_false_2 (session = playerId)) by done.
    replace (received session _) with (@nil Message).
    2:{ case_bool_decide; [|done]. rewrite received_one.
        by rewrite bool_decide_eq_false_2. }
    simpl. destruct (decide (conns !! session = Some OPEN)) as [Ho|Hc].
    + rewrite !bool_decide_eq_true_2; [done|done|]. split; [done|congruence].
    + rewrite !bool_decide_eq_false_2; [done|done|]. by intros [? _].
Qed.

(** X3. What a join sends, to whom. The joiner, if its session is open,
    receives one message, the successful response with its id and the
    registry, in which its own record is present; every other open session
    receives one message, the [joined] update with the record of the
    joiner; sessions that are not open receive nothing.  The same holds
    for a first join and for a join of an id already in the registry. *)
Theorem join_messages rx ry now playerId info w (session : string) :
  ∃ player',
    players (exec (handlePlayerJoin rx ry now playerId (Some info)) w) !! playerId
      = Some player' ∧
    received session (outbox (exec (handlePlayerJoin rx ry now playerId (Some info)) w))
    = received session (outbox w) ++
      if bool_decide (connections w !! session = Some OPEN) then
        if bool_decide (session = playerId)
        then [Response "join" true
                (JoinData playerId
                   (players (exec (handlePlayerJoin rx ry now playerId (Some info)) w)))
                None]
        else [Update "player" "joined" (PlayerData player')]
      else [].
Proof.
  unfold exec. destruct (players w !! playerId) as [player|] eqn:Hp.
  - rewrite (handlePlayerJoin_existing_run _ _ _ _ _ _ _ Hp). simpl.
    exists player. split; [done|].
    rewrite !received_app, received_deliveries, <- app_assoc.
    by rewrite received_response_then_update.
  - rewrite (handlePlayerJoin_new_run _ _ _ _ _ _ Hp). simpl.
    rewrite lookup_insert_eq. eexists. split; [done|].
    rewrite !received_app, received_deliveries, <- app_assoc.
    by rewrite received_response_then_update.
Qed.

(** ** Moving *)

Lemma animated_identity now player :
  id (animated now player) = id player ∧
  sprite (animated now player) = sprite player ∧
  username (animated now player) = username player.
Proof. unfold animated. by destruct (200 <? _)%Z. Qed.

(** X4. Up, then down. A player in bounds that moves up and then down ends at
    height [max y 15], at the abscissa it had, facing south: the two steps
    cancel unless the first one was cut short by the upper border. *)
Theorem up_then_down now1 now2 playerId player w :
  players w !! playerId = Some player →
  inBounds (y player) →
  ∃ player'',
    players (exec (handlePlayerMove now2 playerId (Some moveDown))
               (exec (handlePlayerMove now1 playerId (Some moveUp)) w)) !! playerId
      = Some player'' ∧
    x player'' = x player ∧
    y player'' = Rmax (y player) 15 ∧
    facing player'' = Facing.south ∧
    isMoving player'' = true.
Proof.
  intros Hp [Hy0 Hy1]. unfold exec.
  rewrite (handlePlayerMove_direction_run now1 playerId moveUp "up" player w);
    [|done..]. simpl.
  set (p1 := animated now1 (keyStep "up" player)).
  rewrite (handlePlayerMove_direction_run now2 playerId moveDown "down" p1);
    [|simpl; apply lookup_insert_eq|done|done]. simpl.
  rewrite lookup_insert_eq. eexists. split; [done|].
  destruct (animated_fields now2 (keyStep "down" p1)) as (-> & -> & -> & -> & _).
  destruct (animated_fields now1 (keyStep "up" player)) as (Hx1 & Hy1' & _).
  simpl. fold p1 in Hx1, Hy1'. rewrite Hx1, Hy1'. simpl.
  repeat split; try done.
  unfold Rmax, world.height.
  destruct (Rle_dec (y player) 15), (Rle_dec 0 (y player - 15));
    unfold Rmin; destruct (Rle_dec _ _); lra.
Qed.

Lemma up_then_down_witness :
  players town !! "alice" = Some alice ∧
  inBounds (y alice) ∧
  ∃ player'',
    players (exec (handlePlayerMove 300 "alice" (Some moveDown))
               (exec (handlePlayerMove 50 "alice" (Some moveUp)) town)) !! "alice"
      = Some player'' ∧
    x player'' = x alice ∧
    y player'' = Rmax (y alice) 15 ∧
    facing player'' = Facing.south ∧
    isMoving player'' = true.
Proof.
  assert (Hb : inBounds (y alice)) by (unfold inBounds; simpl; lra).
  split; [reflexivity|]. split; [exact Hb|].
  apply (up_then_down 50 300 "alice" alice town); [reflexivity | exact Hb].
Defined.

(** X5. A direction that is none of up, down, left and right still counts as
    a move: the position and the facing stay, but the player is marked as
    moving, its target is dropped, and the update is sent to every open
    session. *)
Theorem unknown_direction_still_moves now playerId movement direction player w :
  players w !! playerId = Some player →
  Movement.stop movement = false →
  Movement.direction movement = Some direction →
  direction ≠ EmptyString →
  direction ∉ ["up"; "down"; "left"; "right"]%string →
  ∃ player',
    players (exec (handlePlayerMove now playerId (Some movement)) w) !! playerId
      = Some player' ∧
    x player' = x player ∧ y player' = y player ∧ facing player' = facing player ∧
    isMoving player' = true ∧ targetX player' = None ∧ targetY player' = None ∧
    ∀ session, connections w !! session = Some OPEN →
      (session, Update "player" "moved" (PlayerData player'))
        ∈ outbox (exec (handlePlayerMove now playerId (Some movement)) w).
Proof.
  intros Hp Hstop Hdir Hne Hnot.
  assert (Htd : truthyDirection movement = Some direction).
  { unfold truthyDirection. rewrite Hdir. by destruct direction. }
  exists (animated now (keyStep direction player)). unfold exec.
  rewrite (handlePlayerMove_direction_run _ _ _ _ _ _ Hp Hstop Htd). simpl.
  rewrite lookup_insert_eq.
  destruct (animated_fields now (keyStep direction player))
    as (-> & -> & -> & -> & -> & ->).
  unfold keyStep.
  assert (String.eqb direction "up" = false) as ->.
  { destruct (String.eqb_spec direction "up"); [|done]. subst. destruct Hnot.
    repeat constructor. }
  assert (String.eqb direction "down" = false) as ->.
  { destruct (String.eqb_spec direction "down"); [|done]. subst. destruct Hnot.
    repeat constructor. }
  assert (String.eqb direction "left" = false) as ->.
  { destruct (String.eqb_spec direction "left"); [|done]. subst. destruct Hnot.
    repeat constructor. }
  assert (String.eqb direction "right" = false) as ->.
  { destruct (String.eqb_spec direction "right"); [|done]. subst. destruct Hnot.
    repeat constructor. }
  simpl. repeat split; try done.
  intros session Hopen. apply elem_of_app. right. by apply elem_of_deliveries.
Qed.

Lemma unknown_direction_still_moves_witness :
  players town !! "alice" = Some alice ∧
  Movement.stop moveJump = false ∧
  Movement.direction moveJump = Some "jump"%string ∧
  ∃ player',
    players (exec (handlePlayerMove 50 "alice" (Some moveJump)) town) !! "alice"
      = Some player' ∧
    x player' = x alice ∧ y player' = y alice ∧ facing player' = facing alice ∧
    isMoving player' = true ∧ targetX player' = None ∧ targetY player' = None ∧
    ∀ session, connections town !! session = Some OPEN →
      (session, Update "player" "moved" (PlayerData player'))
        ∈ outbox (exec (handlePlayerMove 50 "alice" (Some moveJump)) town).
Proof.
  do 3 (split; [reflexivity|]).
  apply (unknown_direction_still_moves 50 "alice" moveJump "jump" alice town);
    [reflexivity | reflexivity | reflexivity | discriminate |].
  intros Hin. repeat (apply elem_of_cons in Hin as [Hin|Hin]; [discriminate|]).
  by apply not_elem_of_nil in Hin.
Defined.

(** X6. Click-to-move is silent. A command with neither a stop flag nor a
    direction sends nothing, to anyone, and leaves the position, the
    facing and [isMoving] of the player alone; with both coordinates it
    stores the target [(clamp (x - 25), clamp (y - 25))] within
    [0 .. 4046], and with one of them missing it stores nothing. *)
Theorem click_is_silent now playerId movement player w :
  players w !! playerId = Some player →
  Movement.stop movement = false →
  truthyDirection movement = None →
  ∃ player',
    result (handlePlayerMove now playerId (Some movement)) w = Return tt ∧
    players (exec (handlePlayerMove now playerId (Some movement)) w)
      = <[playerId := player']> (players w) ∧
    outbox (exec (handlePlayerMove now playerId (Some movement)) w) = outbox w ∧
    (x player', y player', facing player', isMoving player', animationFrame player')
      = (x player, y player, facing player, isMoving player, animationFrame player) ∧
    (targetX player', targetY player')
      = match Movement.x movement, Movement.y movement with
        | Some mx, Some my => (Some (clamp (mx - 25) 0 4046), Some (clamp (my - 25) 0 4046))
        | _, _ => (targetX player, targetY player)
        end.
Proof.
  intros Hp Hstop Hdir. unfold result, exec.
  destruct (Movement.x movement) as [mx|] eqn:Hmx;
    [destruct (Movement.y movement) as [my|] eqn:Hmy|].
  - rewrite (handlePlayerMove_click_run _ _ _ _ _ _ _ Hp Hstop Hdir Hmx Hmy). simpl.
    exists (aimed mx my player). repeat split; try done. simpl.
    unfold world.width, world.height.
    by replace (4096 - 50) with 4046 by lra.
  - rewrite (handlePlayerMove_nothing_run _ _ _ _ _ Hp Hstop Hdir); [|by right]. simpl.
    exists player. by rewrite insert_id.
  - rewrite (handlePlayerMove_nothing_run _ _ _ _ _ Hp Hstop Hdir); [|by left]. simpl.
    exists player. by rewrite insert_id.
Qed.

Lemma click_is_silent_witness :
  players town !! "alice" = Some alice ∧
  Movement.stop clickCenter = false ∧
  truthyDirection clickCenter = None ∧
  ∃ player',
    result (handlePlayerMove 50 "alice" (Some clickCenter)) town = Return tt ∧
    players (exec (handlePlayerMove 50 "alice" (Some clickCenter)) town)
      = <[("alice" : string) := player']> (players town) ∧
    outbox (exec (handlePlayerMove 50 "alice" (Some clickCenter)) town) = outbox town ∧
    (x player', y player', facing player', isMoving player', animationFrame player')
      = (x alice, y alice, facing alice, isMoving alice, animationFrame alice) ∧
    (targetX player', targetY player')
      = match Movement.x clickCenter, Movement.y clickCenter with
        | Some mx, Some my => (Some (clamp (mx - 25) 0 4046), Some (clamp (my - 25) 0 4046))
        | _, _ => (targetX alice, targetY alice)
        end.
Proof.
  do 3 (split; [reflexivity|]).
  apply (click_is_silent 50 "alice" clickCenter alice town); reflexivity.
Defined.

(** ** Ticks *)

Lemma tickPlayer_no_target now player :
  targetX player = None ∨ targetY player = None →
  fst (tickPlayer now player)
  = if negb (isMoving player) && (1000 <? now - lastAnimationUpdate player)%Z
    then advanceFrame now player else player.
Proof.
  intros Hno. unfold tickPlayer.
  destruct (targetX player), (targetY player); try by destruct (_ && _).
  destruct Hno; discriminate.
Qed.

(** X7. Without a complete target, ticks only animate: whatever the number of
    ticks and their times, the position, the facing, [isMoving], the
    target fields, the sprite, the name and the id are the ones the player
    had. *)
Theorem ticks_without_target_do_not_move (nows : list Z) player :
  targetX player = None ∨ targetY player = None →
  (x (ticks nows player), y (ticks nows player), facing (ticks nows player),
   isMoving (ticks nows player))
    = (x player, y player, facing player, isMoving player) ∧
  (targetX (ticks nows player), targetY (ticks nows player))
    = (targetX player, targetY player) ∧
  (id (ticks nows player), sprite (ticks nows player), username (ticks nows player))
    = (id player, sprite player, username player).
Proof.
  revert player. induction nows as [|now nows IH]; intros player Hno; [done|].
  rewrite ticks_cons.
  assert (Hstep : ∀ q, q = fst (tickPlayer now player) →
    (x q, y q, facing q, isMoving q, targetX q, targetY q, id q, sprite q, username q)
    = (x player, y player, facing player, isMoving player, targetX player,
       targetY player, id player, sprite player, username player)).
  { intros q ->. rewrite (tickPlayer_no_target _ _ Hno). by destruct (_ && _). }
  specialize (Hstep _ eq_refl). injection Hstep as Hx Hy Hf Hm HX HY Hi Hs Hu.
  destruct (IH (fst (tickPlayer now player))) as (H1 & H2 & H3).
  { rewrite HX, HY. exact Hno. }
  rewrite H1, H2, H3, Hx, Hy, Hf, Hm, HX, HY, Hi, Hs, Hu. done.
Qed.

Lemma ticks_without_target_do_not_move_witness :
  (targetX walker = None ∨ targetY walker = None) ∧
  (x (ticks [50; 2000]%Z walker), y (ticks [50; 2000]%Z walker),
   facing (ticks [50; 2000]%Z walker), isMoving (ticks [50; 2000]%Z walker))
    = (x walker, y walker, facing walker, isMoving walker) ∧
  (targetX (ticks [50; 2000]%Z walker), targetY (ticks [50; 2000]%Z walker))
    = (targetX walker, targetY walker) ∧
  (id (ticks [50; 2000]%Z walker), sprite (ticks [50; 2000]%Z walker),
   username (ticks [50; 2000]%Z walker))
    = (id walker, sprite walker, username walker).
Proof.
  split; [left; reflexivity|].
  apply (ticks_without_target_do_not_move [50; 2000]%Z walker). left. reflexivity.
Defined.

(** X8. A player marked as moving that has no complete target is frozen by
    the game loop: no tick changes anything of its record, the animation
    frame included, so [isMoving] stays set until its next command. *)
Theorem moving_without_target_is_frozen (nows : list Z) player :
  targetX player = None ∨ targetY player = None →
  isMoving player = true →
  ticks nows player = player.
Proof.
  intros Hno Hm. induction nows as [|now nows IH]; [done|].
  rewrite ticks_cons, (tickPlayer_no_target _ _ Hno), Hm. simpl. exact IH.
Qed.

Lemma moving_without_target_is_frozen_witness :
  (targetX walker = None ∨ targetY walker = None) ∧
  isMoving walker = true ∧
  ticks [50; 2000; 9000]%Z walker = walker.
Proof.
  split; [left; reflexivity|]. split; [reflexivity|].
  apply (moving_without_target_is_frozen [50; 2000; 9000]%Z walker);
    [left; reflexivity | reflexivity].
Defined.

(** X9. A stop or a direction command ends a pursuit: the record it leaves
    has no target, and the tick that follows does not move the player. *)
Theorem command_cancels_pursuit now now' playerId movement player w :
  players w !! playerId = Some player →
  Movement.stop movement = true ∨ is_Some (truthyDirection movement) →
  ∃ player1 player2,
    players (exec (handlePlayerMove now playerId (Some movement)) w) !! playerId
      = Some player1 ∧
    targetX player1 = None ∧ targetY player1 = None ∧
    players (exec (gameLoop now')
               (exec (handlePlayerMove now playerId (Some movement)) w)) !! playerId
      = Some player2 ∧
    x player2 = x player1 ∧ y player2 = y player1 ∧
    targetX player2 = None ∧ targetY player2 = None.
Proof.
  intros Hp Hcmd.
  assert (Hone : ∃ player1,
    players (exec (handlePlayerMove now playerId (Some movement)) w) !! playerId
      = Some player1 ∧ targetX player1 = None ∧ targetY player1 = None).
  { unfold exec. destruct (Movement.stop movement) eqn:Hstop.
    - rewrite (handlePlayerMove_stop_run _ _ _ _ _ Hp Hstop). simpl.
      rewrite lookup_insert_eq. by eexists.
    - destruct Hcmd as [|[direction Hdir]]; [done|].
      rewrite (handlePlayerMove_direction_run _ _ _ _ _ _ Hp Hstop Hdir). simpl.
      rewrite lookup_insert_eq. eexists. split; [done|].
      destruct (animated_fields now (keyStep direction player))
        as (_ & _ & _ & _ & -> & ->).
      unfold keyStep.
      by repeat match goal with |- context [if ?c then _ else _] => destruct c end. }
  destruct Hone as (player1 & H1 & HX & HY).
  exists player1, (fst (tickPlayer now' player1)).
  split; [done|]. split; [done|]. split; [done|].
  rewrite gameLoop_players, lookup_fmap, H1. simpl. split; [done|].
  rewrite (tickPlayer_no_target now' player1) by (by left).
  destruct (_ && _); simpl; done.
Qed.

Lemma command_cancels_pursuit_witness :
  players chase !! "bob" = Some runner ∧
  (Movement.stop moveUp = true ∨ is_Some (truthyDirection moveUp)) ∧
  ∃ player1 player2,
    players (exec (handlePlayerMove 10 "bob" (Some moveUp)) chase) !! "bob"
      = Some player1 ∧
    targetX player1 = None ∧ targetY player1 = None ∧
    players (exec (gameLoop 60) (exec (handlePlayerMove 10 "bob" (Some moveUp)) chase))
      !! "bob" = Some player2 ∧
    x player2 = x player1 ∧ y player2 = y player1 ∧
    targetX player2 = None ∧ targetY player2 = None.
Proof.
  assert (Hcmd : Movement.stop moveUp = true ∨ is_Some (truthyDirection moveUp)).
  { right. by eexists. }
  split; [reflexivity|]. split; [exact Hcmd|].
  apply (command_cancels_pursuit 10 60 "bob" moveUp runner chase);
    [reflexivity | exact Hcmd].
Defined.

Lemma elem_of_tickBroadcasts_inv conns (l : list (string * Player)) session m :
  (session, m) ∈ tickBroadcasts conns l →
  conns !! session = Some OPEN ∧
  ∃ playerId player, (playerId, player) ∈ l ∧ needsBroadcast player = true ∧
                     m = Update "player" "moved" (PlayerData player).
Proof.
  unfold tickBroadcasts. rewrite list_elem_of_bind.
  intros ([i p] & Hin & Hl). simpl in Hin.
  destruct (needsBroadcast p) eqn:Hn; [|by apply not_elem_of_nil in Hin].
  apply elem_of_deliveries in Hin as (-> & Hopen & _).
  split; [done|]. by exists i, p.
Qed.

Lemma gameLoop_sent now w :
  ∃ sent,
    outbox (exec (gameLoop now) w) = outbox w ++ sent ∧
    ∀ session m, (session, m) ∈ sent →
      connections w !! session = Some OPEN ∧
      ∃ playerId player',
        players (exec (gameLoop now) w) !! playerId = Some player' ∧
        needsBroadcast player' = true ∧
        m = Update "player" "moved" (PlayerData player').
Proof.
  rewrite gameLoop_players. unfold exec. rewrite gameLoop_run. simpl.
  destruct (hasUpdates now (players w)); simpl.
  - eexists. split; [done|]. intros session m Hin.
    apply elem_of_tickBroadcasts_inv in Hin as (Hopen & i & p & Hin & Hn & ->).
    split; [done|]. exists i, p. split; [|done]. by apply elem_of_map_to_list.
  - exists []. split; [by rewrite app_nil_r|]. intros ? ? Hin.
    by apply not_elem_of_nil in Hin.
Qed.

(** X10. A tick sends nothing but [player moved] updates, only to open
    sessions, and only about players that, after the tick, have a target
    coordinate or are marked as moving; the record in the update is the
    one the registry holds after the tick. *)
Theorem tick_sends_only_moving_players now w :
  ∃ sent,
    outbox (exec (gameLoop now) w) = outbox w ++ sent ∧
    ∀ session m, (session, m) ∈ sent →
      connections w !! session = Some OPEN ∧
      ∃ playerId player',
        players (exec (gameLoop now) w) !! playerId = Some player' ∧
        needsBroadcast player' = true ∧
        m = Update "player" "moved" (PlayerData player').
Proof. apply gameLoop_sent. Qed.




(** ** Changing sprite *)

Lemma readsTruthy_own (s : string) w :
  is_Some (spriteDatabase w !! s) → readsTruthy (catalog w) s = true.
Proof. intros Hdb. apply readsTruthy_spec. by left. Qed.

Lemma handlePlayerChangeSprite_ok_run playerId (s : string) player w :
  players w !! playerId = Some player →
  s ≠ EmptyString →
  readsTruthy (catalog w) s = true →
  handlePlayerChangeSprite playerId (Some s) w
  = (Return tt,
     set_outbox
       ((outbox w ++
         if bool_decide (connections w !! playerId = Some OPEN)
         then [(playerId, Response "change_sprite" true NoData None)] else []) ++
        deliveries (connections w)
          (Update "player" "changed_sprite" (PlayerData (dressed s player))) None)
       (set_players (<[playerId := dressed s player]> (players w)) w)).
Proof.
  intros Hp Hs Hdb. unfold handlePlayerChangeSprite. run_monad. rewrite Hp.
  assert (truthy s = true) as -> by (by destruct s).
  fold (catalog w). rewrite Hdb. simpl.
  unfold setPlayer. run_monad. rewrite sendResponse_run. simpl.
  case_bool_decide; rewrite broadcastUpdate_run; simpl; [done|].
  by rewrite app_nil_r.
Qed.

Lemma handlePlayerChangeSprite_fail_run playerId spriteName' w :
  players w !! playerId = None ∨
  (∀ s, spriteName' = Some s →
        s = EmptyString ∨ readsTruthy (catalog w) s = false) →
  handlePlayerChangeSprite playerId spriteName' w
  = (Return tt,
     if bool_decide (connections w !! playerId = Some OPEN)
     then set_outbox
            (outbox w ++
             [(playerId, Response "change_sprite" false NoData
                           (Some (changeSpriteError spriteName')))]) w
     else w).
Proof.
  intros Hfail. unfold handlePlayerChangeSprite. run_monad.
  destruct (players w !! playerId) as [player|] eqn:Hp.
  - destruct Hfail as [|Hfail]; [done|].
    destruct spriteName' as [s|]; [|by rewrite sendResponse_run].
    destruct (Hfail s eq_refl) as [->|Hdb]; simpl; [by rewrite sendResponse_run|].
    fold (catalog w). rewrite Hdb.
    rewrite andb_false_r. by rewrite sendResponse_run.
  - by rewrite sendResponse_run.
Qed.

(** X12. A change to a sprite of the catalog by a joined player sets the
    sprite, resets the animation frame to 0 and leaves the rest of the
    record; the requester, if its session is open, receives the successful
    response and then the update, and every other open session receives
    the update. *)
Theorem change_sprite_succeeds playerId (s : string) player w (session : string) :
  players w !! playerId = Some player →
  s ≠ EmptyString →
  is_Some (spriteDatabase w !! s) →
  ∃ player',
    players (exec (handlePlayerChangeSprite playerId (Some s)) w)
      = <[playerId := player']> (players w) ∧
    sprite player' = s ∧ animationFrame player' = 0%Z ∧
    (id player', x player', y player', facing player', isMoving player',
     username player', targetX player', targetY player', lastAnimationUpdate player')
    = (id player, x player, y player, facing player, isMoving player,
       username player, targetX player, targetY player, lastAnimationUpdate player) ∧
    received session (outbox (exec (handlePlayerChangeSprite playerId (Some s)) w))
    = received session (outbox w) ++
      if bool_decide (connections w !! session = Some OPEN) then
        (if bool_decide (session = playerId)
         then [Response "change_sprite" true NoData None] else []) ++
        [Update "player" "changed_sprite" (PlayerData player')]
      else [].
Proof.
  intros Hp Hs Hdb. exists (dressed s player). unfold exec.
  rewrite (handlePlayerChangeSprite_ok_run _ _ _ _ Hp Hs (readsTruthy_own _ _ Hdb)).
  simpl.
  repeat (split; [done|]).
  rewrite !received_app, received_deliveries, <- app_assoc. apply f_equal.
  destruct (decide (connections w !! session = Some OPEN)) as [Ho|Hc].
  - rewrite (bool_decide_eq_true_2 (_ ∧ _)) by done.
    rewrite (bool_decide_eq_true_2 (connections w !! session = Some OPEN)) by done.
    apply (f_equal (λ l, l ++ _)).
    destruct (decide (session = playerId)) as [->|Hne].
    + rewrite !bool_decide_eq_true_2 by done. rewrite received_one.
      by rewrite bool_decide_eq_true_2.
    + rewrite (bool_decide_eq_false_2 (session = playerId)) by done.
      case_bool_decide; [|done]. rewrite received_one.
      by rewrite bool_decide_eq_false_2.
  - rewrite (bool_decide_eq_false_2 (_ ∧ _)) by (by intros [? _]).
    rewrite (bool_decide_eq_false_2 (connections w !! session = Some OPEN)) by done.
    rewrite app_nil_r. case_bool_decide as Hp'; [|done]. rewrite received_one.
    rewrite bool_decide_eq_false_2; [done|]. congruence.
Qed.

Lemma change_sprite_succeeds_witness :
  players coven !! "alice" = Some alice ∧
  "witch"%string ≠ EmptyString ∧
  is_Some (spriteDatabase coven !! "witch") ∧
  ∃ player',
    players (exec (handlePlayerChangeSprite "alice" (Some "witch"%string)) coven)
      = <[("alice" : string) := player']> (players coven) ∧
    sprite player' = "witch"%string ∧ animationFrame player' = 0%Z ∧
    (id player', x player', y player', facing player', isMoving player',
     username player', targetX player', targetY player', lastAnimationUpdate player')
    = (id alice, x alice, y alice, facing alice, isMoving alice,
       username alice, targetX alice, targetY alice, lastAnimationUpdate alice) ∧
    received "bob"
      (outbox (exec (handlePlayerChangeSprite "alice" (Some "witch"%string)) coven))
    = received "bob" (outbox coven) ++
      if bool_decide (connections coven !! "bob" = Some OPEN) then
        (if bool_decide (("bob" : string) = "alice")
         then [Response "change_sprite" true NoData None] else []) ++
        [Update "player" "changed_sprite" (PlayerData player')]
      else [].
Proof.
  assert (Hdb : is_Some (spriteDatabase coven !! "witch")) by (by eexists).
  split; [reflexivity|]. split; [discriminate|]. split; [exact Hdb|].
  apply (change_sprite_succeeds "alice" "witch" alice coven "bob");
    [reflexivity | discriminate | exact Hdb].
Defined.

(** X13. A session that has not joined cannot change sprite, whatever it
    names: the handler returns normally, no record is created, nothing of
    the state changes, and the only message is the failure response to the
    requester.  Its error is [No sprite specified] for a missing or empty
    name, and [Sprite "s" does not exist] for any other name [s], also
    when the catalog has a sprite [s]. *)
Theorem change_sprite_needs_a_player playerId spriteName' w :
  players w !! playerId = None →
  result (handlePlayerChangeSprite playerId spriteName') w = Return tt ∧
  set_outbox (outbox w) (exec (handlePlayerChangeSprite playerId spriteName') w) = w ∧
  outbox (exec (handlePlayerChangeSprite playerId spriteName') w)
  = outbox w ++
    if bool_decide (connections w !! playerId = Some OPEN)
    then [(playerId,
           Response "change_sprite" false NoData
             (Some match spriteName' with
                   | Some (String c s) =>
                       "Sprite " +:+ dquote +:+ String c s +:+ dquote +:+ " does not exist"
                   | _ => "No sprite specified"%string
                   end))]
    else [].
Proof.
  intros Hp. unfold result, exec.
  rewrite handlePlayerChangeSprite_fail_run by (by left).
  assert (changeSpriteError spriteName'
          = match spriteName' with
            | Some (String c s) =>
                "Sprite " +:+ dquote +:+ String c s +:+ dquote +:+ " does not exist"
            | _ => "No sprite specified"%string
            end) as ->.
  { by destruct spriteName' as [[|c s]|]. }
  case_bool_decide; simpl; repeat split; try done; try by destruct w.
  by rewrite app_nil_r.
Qed.

Lemma change_sprite_needs_a_player_witness :
  players lobby !! "guest" = None ∧
  result (handlePlayerChangeSprite "guest" (Some "witch"%string)) lobby = Return tt ∧
  set_outbox (outbox lobby)
    (exec (handlePlayerChangeSprite "guest" (Some "witch"%string)) lobby) = lobby ∧
  outbox (exec (handlePlayerChangeSprite "guest" (Some "witch"%string)) lobby)
  = outbox lobby ++
    if bool_decide (connections lobby !! "guest" = Some OPEN)
    then [("guest"%string,
           Response "change_sprite" false NoData
             (Some ("Sprite " +:+ dquote +:+ "witch" +:+ dquote +:+ " does not exist")))]
    else [].
Proof.
  split; [reflexivity|].
  apply (change_sprite_needs_a_player "guest" (Some "witch"%string) lobby). reflexivity.
Defined.

(** ** Uploading *)

Lemma addCustomSprite_success_run now spriteName' entries w :
  decodeFails entries = false →
  ∃ s f,
    addCustomSprite now (Some spriteName') (Some entries) w
    = (Return s,
       set_outbox
         (outbox w ++ deliveries (connections w)
                        (Update "sprite" "added" (SpriteData s)) None)
         (set_spritesDbFile
            (spritesDbFile w ++ [(assignSprite spriteName' s (catalog w)).1])
            (set_catalog (assignSprite spriteName' s (catalog w))
               (set_fs f w)))) ∧
    name s = spriteName' ∧ custom s = true ∧ lastModified s = now ∧
    west (frames s) = east (frames s).
Proof.
  intros Hok. unfold addCustomSprite. run_monad.
  destruct (mkdirIfMissing_run now spriteName' w) as [f0 ->].
  destruct (foldM_uploadDirection_run spriteName' entries
              {| north := []; south := []; east := []; west := [] |} (set_fs f0 w))
    as (o & f & -> & _ & H2).
  destruct (H2 Hok) as [fr ->]. unfold saveSpriteDatabase. run_monad.
  rewrite broadcastUpdate_run. simpl. by eexists _, f.
Qed.

Lemma assignSprite_spec key spriteData c :
  assignSprite key spriteData c
  = if bool_decide (key = "__proto__"%string ∧ c.1 !! key = None)
    then (c.1, Some spriteData)
    else (<[key := spriteData]> c.1, c.2).
Proof.
  unfold assignSprite. destruct (c.1 !! key) as [e|] eqn:He.
  - rewrite (bool_decide_eq_true_2 (is_Some (Some e))) by eauto.
    rewrite andb_false_r. by rewrite bool_decide_eq_false_2 by (by intros [_ ?]).
  - rewrite (bool_decide_eq_false_2 (is_Some None)) by (by intros [? ?]).
    rewrite andb_true_r. apply (f_equal (λ b : bool, if b then _ else _)).
    apply bool_decide_ext. tauto.
Qed.

(** X14. An upload whose payloads all decode succeeds: the sprite, with
    [custom] set and west the copy of east, is assigned to
    [spriteDatabase[name]].  It becomes the entry of its name (over any
    entry of that name, the other entries untouched); only for the name
    ["__proto__"], on a catalog that has no entry of that name, it becomes
    the prototype of the catalog object and no entry is added.  The entries
    the catalog then has are the snapshot persisted last, the registry is
    untouched, every open session receives the [sprite added] update, the
    uploader's included, and the uploader then receives the successful
    response with the same sprite. *)
Theorem upload_succeeds now playerId data spriteName' entries w (session : string) :
  action data = Some "upload"%string →
  spriteName data = Some spriteName' →
  spriteFrames data = Some entries →
  decodeFails entries = false →
  ∃ s,
    result (handleSpriteMessage now playerId data) w = Return tt ∧
    (spriteDatabase (exec (handleSpriteMessage now playerId data) w),
     spritePrototype (exec (handleSpriteMessage now playerId data) w))
      = (if bool_decide (spriteName' = "__proto__"%string ∧
                         spriteDatabase w !! spriteName' = None)
         then (spriteDatabase w, Some s)
         else (<[spriteName' := s]> (spriteDatabase w), spritePrototype w)) ∧
    name s = spriteName' ∧ custom s = true ∧ lastModified s = now ∧
    west (frames s) = east (frames s) ∧
    spritesDbFile (exec (handleSpriteMessage now playerId data) w)
      = spritesDbFile w
        ++ [spriteDatabase (exec (handleSpriteMessage now playerId data) w)] ∧
    players (exec (handleSpriteMessage now playerId data) w) = players w ∧
    received session (outbox (exec (handleSpriteMessage now playerId data) w))
    = received session (outbox w) ++
      if bool_decide (connections w !! session = Some OPEN) then
        Update "sprite" "added" (SpriteData s)
        :: (if bool_decide (session = playerId)
            then [Response "upload" true (SpriteData s) None] else [])
      else [].
Proof.
  intros Hact Hname Hframes Hok. unfold result, exec, handleSpriteMessage.
  rewrite Hact, Hname, Hframes. unfold try_catch. run_monad.
  destruct (addCustomSprite_success_run now spriteName' entries w Hok)
    as (s & f & -> & Hn & Hc & Hl & Hw).
  exists s. rewrite sendResponse_run. simpl.
  assert (Hrecv : ∀ l : list (string * Message),
    received session ((outbox w ++ deliveries (connections w)
                         (Update "sprite" "added" (SpriteData s)) None) ++
                      (if bool_decide (connections w !! playerId = Some OPEN)
                       then [(playerId, Response "upload" true (SpriteData s) None)]
                       else []))
    = received session (outbox w) ++
      if bool_decide (connections w !! session = Some OPEN) then
        Update "sprite" "added" (SpriteData s)
        :: (if bool_decide (session = playerId)
            then [Response "upload" true (SpriteData s) None] else [])
      else []).
  { intros _. rewrite !received_app, received_deliveries, <- app_assoc. apply f_equal.
    destruct (decide (connections w !! session = Some OPEN)) as [Ho|Hc'].
    - rewrite (bool_decide_eq_true_2 (_ ∧ _)) by done.
      rewrite (bool_decide_eq_true_2 (connections w !! session = Some OPEN)) by done.
      simpl. apply f_equal. destruct (decide (session = playerId)) as [->|Hne].
      + rewrite !bool_decide_eq_true_2 by done. rewrite received_one.
        by rewrite bool_decide_eq_true_2.
      + rewrite (bool_decide_eq_false_2 (session = playerId)) by done.
        case_bool_decide; [|done]. rewrite received_one.
        by rewrite bool_decide_eq_false_2.
    - rewrite (bool_decide_eq_false_2 (_ ∧ _)) by (by intros [? _]).
      rewrite (bool_decide_eq_false_2 (connections w !! session = Some OPEN)) by done.
      simpl. case_bool_decide as Hp'; [|done]. rewrite received_one.
      rewrite bool_decide_eq_false_2; [done|]. congruence. }
  specialize (Hrecv []).
  assert (Hcat : ((assignSprite spriteName' s (catalog w)).1,
                  (assignSprite spriteName' s (catalog w)).2)
                 = if bool_decide (spriteName' = "__proto__"%string ∧
                                   spriteDatabase w !! spriteName' = None)
                   then (spriteDatabase w, Some s)
                   else (<[spriteName' := s]> (spriteDatabase w), spritePrototype w)).
  { transitivity (assignSprite spriteName' s (catalog w));
      [by destruct (assignSprite _ _ _) | apply assignSprite_spec]. }
  destruct (bool_decide (connections w !! playerId = Some OPEN)); simpl;
    (split; [done|]); (split; [exact Hcat|]); repeat (split; [done|]).
  - exact Hrecv.
  - rewrite app_nil_r in Hrecv. exact Hrecv.
Qed.

Lemma upload_succeeds_witness :
  action pumpkinUpload = Some "upload"%string ∧
  spriteName pumpkinUpload = Some "pumpkin"%string ∧
  decodeFails [("north"%string, JArray [JString "data:image/png;base64,AAAA"]);
               ("south"%string, JArray [JString "data:image/png;base64,BBBB"]);
               ("east"%string, JArray [JString "data:image/png;base64,CCCC"])] = false ∧
  ∃ s,
    result (handleSpriteMessage 42 "ghost" pumpkinUpload) lobby = Return tt ∧
    (spriteDatabase (exec (handleSpriteMessage 42 "ghost" pumpkinUpload) lobby),
     spritePrototype (exec (handleSpriteMessage 42 "ghost" pumpkinUpload) lobby))
      = (if bool_decide (("pumpkin" : string) = "__proto__"%string ∧
                         spriteDatabase lobby !! "pumpkin" = None)
         then (spriteDatabase lobby, Some s)
         else (<[("pumpkin" : string) := s]> (spriteDatabase lobby),
               spritePrototype lobby)) ∧
    name s = "pumpkin"%string ∧ custom s = true ∧ lastModified s = 42%Z ∧
    west (frames s) = east (frames s) ∧
    spritesDbFile (exec (handleSpriteMessage 42 "ghost" pumpkinUpload) lobby)
      = spritesDbFile lobby
        ++ [spriteDatabase (exec (handleSpriteMessage 42 "ghost" pumpkinUpload) lobby)] ∧
    players (exec (handleSpriteMessage 42 "ghost" pumpkinUpload) lobby) = players lobby ∧
    received "ghost" (outbox (exec (handleSpriteMessage 42 "ghost" pumpkinUpload) lobby))
    = received "ghost" (outbox lobby) ++
      if bool_decide (connections lobby !! "ghost" = Some OPEN) then
        Update "sprite" "added" (SpriteData s)
        :: (if bool_decide (("ghost" : string) = "ghost")
            then [Response "upload" true (SpriteData s) None] else [])
      else [].
Proof.
  do 3 (split; [reflexivity|]).
  apply (upload_succeeds 42 "ghost" pumpkinUpload "pumpkin"
           [("north"%string, JArray [JString "data:image/png;base64,AAAA"]);
            ("south"%string, JArray [JString "data:image/png;base64,BBBB"]);
            ("east"%string, JArray [JString "data:image/png;base64,CCCC"])]
           lobby "ghost"); reflexivity.
Defined.

(** The same upload under the name ["__proto__"]: it succeeds, the catalog
    has no entry after it and the persisted snapshot is empty, and the
    sprite has become the prototype of the catalog object, so that the
    names ["frames"] and ["custom"] now read truthy. *)
Example upload_named_proto :
  let w' := exec (handleSpriteMessage 42 "ghost" protoUpload) lobby in
  received "ghost" (outbox w')
  = [Update "sprite" "added" (SpriteData protoSprite);
     Response "upload" true (SpriteData protoSprite) None] ∧
  spriteDatabase w' = ∅ ∧ spritesDbFile w' = [∅] ∧
  spritePrototype w' = Some protoSprite ∧
  readsTruthy (catalog lobby) "frames" = false ∧
  readsTruthy (catalog w') "frames" = true ∧
  readsTruthy (catalog w') "custom" = true ∧
  readsTruthy (catalog w') "pumpkin" = false.
Proof. repeat split; vm_compute; reflexivity. Qed.

Lemma writeFileSync_run spriteName' file content w :
  ∃ f, writeFileSync spriteName' file content w = (Return tt, set_fs f w) ∧
       hasFile f spriteName' file ∧
       ∀ file', hasFile (fs w) spriteName' file' → hasFile f spriteName' file'.
Proof.
  unfold writeFileSync, modify. eexists. split; [reflexivity|]. split.
  - eexists _, _. split; [reflexivity|]. rewrite lookup_insert_eq. split; [done|].
    simpl. rewrite lookup_insert_eq. by eexists.
  - intros file' (dir & folder & Hfs & Hdir & Hfile).
    eexists _, _. split; [reflexivity|]. rewrite lookup_insert_eq. split; [done|].
    simpl. rewrite Hfs. simpl. rewrite Hdir. simpl.
    rewrite lookup_insert. case_decide; [by eexists|done].
Qed.

Lemma backed_mono f f' spriteName' fr :
  (∀ file, hasFile f spriteName' file → hasFile f' spriteName' file) →
  backed f spriteName' fr → backed f' spriteName' fr.
Proof.
  intros Hmono Hb direction ref Hin. destruct (Hb _ _ Hin) as (k & -> & Hf).
  exists k. split; [done|]. by apply Hmono.
Qed.

Lemma dirFrames_pushFrame d direction ref fr :
  ∀ r, r ∈ dirFrames d (pushFrame direction ref fr) →
       r ∈ dirFrames d fr ∨ (r = ref ∧ d = direction).
Proof.
  intros r. unfold dirFrames, pushFrame.
  destruct (String.eqb_spec direction "north") as [->|Hn].
  { destruct (String.eqb_spec d "north") as [->|]; simpl; [|auto].
    rewrite elem_of_app, list_elem_of_singleton. intros [|]; auto. }
  destruct (String.eqb_spec direction "south") as [->|Hs].
  { destruct (String.eqb_spec d "north"); simpl; [auto|].
    destruct (String.eqb_spec d "south") as [->|]; simpl; [|auto].
    rewrite elem_of_app, list_elem_of_singleton. intros [|]; auto. }
  destruct (String.eqb_spec direction "east") as [->|He]; [|auto].
  destruct (String.eqb_spec d "north"); simpl; [auto|].
  destruct (String.eqb_spec d "south"); simpl; [auto|].
  destruct (String.eqb_spec d "east") as [->|]; simpl; [|auto].
  rewrite elem_of_app, list_elem_of_singleton. intros [|]; auto.
Qed.

Lemma foldM_cons {A S} (a : A) (l : list A) (body : S → A → M S) (s : S) w :
  foldM (a :: l) body s w
  = match body s a w with
    | (Return s', w') => foldM l body s' w'
    | (Throw e, w') => (Throw e, w')
    end.
Proof. done. Qed.

Lemma uploadFrame_backed spriteName' direction st v w o w' :
  backed (fs w) spriteName' (fst st) →
  uploadFrame spriteName' direction st v w = (o, w') →
  (∀ file, hasFile (fs w) spriteName' file → hasFile (fs w') spriteName' file) ∧
  ∀ st', o = Return st' → backed (fs w') spriteName' (fst st').
Proof.
  destruct st as [fr index]. intros Hb Hrun. unfold uploadFrame in Hrun.
  destruct v as [s|].
  - run_monad.
    destruct (writeFileSync_run spriteName' (frameFile direction (S index))
                (stripDataUrl s) w) as (f & Hw & Hnew & Hold).
    rewrite Hw in Hrun. injection Hrun as <- <-. simpl. split; [done|].
    intros st' [= <-]. simpl. intros d r Hin.
    apply dirFrames_pushFrame in Hin as [Hin|[-> ->]].
    + destruct (Hb _ _ Hin) as (k & -> & Hf). exists k. split; [done|]. by apply Hold.
    + by exists (S index).
  - unfold throw in Hrun. injection Hrun as <- <-. split; [done|]. by intros st' [=].
Qed.

Lemma foldM_uploadFrame_backed spriteName' direction items : ∀ st w o w',
  backed (fs w) spriteName' (fst st) →
  foldM items (uploadFrame spriteName' direction) st w = (o, w') →
  (∀ file, hasFile (fs w) spriteName' file → hasFile (fs w') spriteName' file) ∧
  ∀ st', o = Return st' → backed (fs w') spriteName' (fst st').
Proof.
  induction items as [|v items IH]; intros st w o w' Hb Hrun.
  - simpl in Hrun. run_monad. injection Hrun as <- <-. split; [done|].
    by intros st' [= <-].
  - rewrite foldM_cons in Hrun.
    destruct (uploadFrame spriteName' direction st v w) as [o1 w1] eqn:E1.
    destruct (uploadFrame_backed _ _ _ _ _ _ _ Hb E1) as [Hmono1 Hres1].
    destruct o1 as [st1|e].
    + apply IH in Hrun as [Hmono Hres]; [|by apply Hres1].
      split; [|done]. intros file Hf. by apply Hmono, Hmono1.
    + injection Hrun as <- <-. split; [done|]. by intros st' [=].
Qed.

Lemma uploadDirection_backed spriteName' fr entry w o w' :
  backed (fs w) spriteName' fr →
  uploadDirection spriteName' fr entry w = (o, w') →
  (∀ file, hasFile (fs w) spriteName' file → hasFile (fs w') spriteName' file) ∧
  ∀ fr', o = Return fr' → backed (fs w') spriteName' fr'.
Proof.
  destruct entry as [direction [items|]]; intros Hb Hrun; unfold uploadDirection in Hrun.
  - destruct (isUploadDirection direction).
    + run_monad.
      destruct (foldM items (uploadFrame spriteName' direction) (fr, 0%nat) w)
        as [o1 w1] eqn:E1.
      destruct (foldM_uploadFrame_backed spriteName' direction items (fr, 0%nat)
                  w o1 w1 Hb E1) as [Hmono Hres].
      destruct o1 as [[fr1 k]|e]; injection Hrun as <- <-; (split; [done|]).
      * intros fr' [= <-]. by apply (Hres (fr1, k)).
      * by intros fr' [=].
    + run_monad. injection Hrun as <- <-. split; [done|]. by intros fr' [= <-].
  - run_monad. injection Hrun as <- <-. split; [done|]. by intros fr' [= <-].
Qed.

Lemma foldM_uploadDirection_backed spriteName' entries : ∀ fr w o w',
  backed (fs w) spriteName' fr →
  foldM entries (uploadDirection spriteName') fr w = (o, w') →
  ∀ fr', o = Return fr' → backed (fs w') spriteName' fr'.
Proof.
  induction entries as [|entry entries IH]; intros fr w o w' Hb Hrun.
  - simpl in Hrun. run_monad. injection Hrun as <- <-. by intros fr' [= <-].
  - rewrite foldM_cons in Hrun.
    destruct (uploadDirection spriteName' fr entry w) as [o1 w1] eqn:E1.
    destruct (uploadDirection_backed _ _ _ _ _ _ Hb E1) as [_ Hres1].
    destruct o1 as [fr1|e].
    + eapply IH; [|exact Hrun]. by apply Hres1.
    + injection Hrun as <- <-. by intros fr' [=].
Qed.

(** X15. What an upload registers is in the asset store: when [addCustomSprite]
    returns a sprite, each reference in its north, south and east frame
    lists is [sprites/<name>/<direction>_<k>.png] for a frame number [k]
    whose file [<direction>_<k>.png] is then in the folder of the
    sprite. *)
Theorem uploaded_frames_are_stored now spriteName' imageData w s :
  result (addCustomSprite now (Some spriteName') imageData) w = Return s →
  ∀ direction ref, ref ∈ dirFrames direction (frames s) →
    ∃ k, ref = frameRef spriteName' direction k ∧
         hasFile (fs (exec (addCustomSprite now (Some spriteName') imageData) w))
           spriteName' (frameFile direction k).
Proof.
  unfold result, exec, addCustomSprite. run_monad.
  destruct (mkdirIfMissing_run now spriteName' w) as [f0 ->].
  destruct imageData as [entries|]; [|done].
  destruct (foldM entries (uploadDirection spriteName')
              {| north := []; south := []; east := []; west := [] |} (set_fs f0 w))
    as [o w1] eqn:E.
  assert (Hempty : backed (fs (set_fs f0 w)) spriteName'
                     {| north := []; south := []; east := []; west := [] |}).
  { intros d r Hin. unfold dirFrames in Hin. simpl in Hin.
    repeat match type of Hin with context [if ?c then _ else _] => destruct c end;
      by apply not_elem_of_nil in Hin. }
  pose proof (foldM_uploadDirection_backed _ _ _ _ _ _ Hempty E) as Hres.
  destruct o as [fr|e]; [|done]. specialize (Hres fr eq_refl).
  unfold saveSpriteDatabase. run_monad. rewrite broadcastUpdate_run. simpl.
  intros [= <-]. exact Hres.
Qed.

Lemma uploaded_frames_are_stored_witness :
  result (addCustomSprite 42 (Some "pumpkin"%string) (spriteFrames pumpkinUpload)) lobby
    = Return pumpkinSprite ∧
  ∀ direction ref, ref ∈ dirFrames direction (frames pumpkinSprite) →
    ∃ k, ref = frameRef "pumpkin" direction k ∧
         hasFile (fs (exec (addCustomSprite 42 (Some "pumpkin"%string)
                              (spriteFrames pumpkinUpload)) lobby))
           "pumpkin" (frameFile direction k).
Proof.
  assert (Hres : result (addCustomSprite 42 (Some "pumpkin"%string)
                           (spriteFrames pumpkinUpload)) lobby = Return pumpkinSprite)
    by (vm_compute; reflexivity).
  split; [exact Hres|].
  apply (uploaded_frames_are_stored 42 "pumpkin" (spriteFrames pumpkinUpload) lobby
           pumpkinSprite Hres).
Defined.

(** ** Scanning the sprite directory *)

Lemma readSprite_own c (k : string) :
  k ≠ "__proto__"%string → readSprite c k = c.1 !! k.
Proof.
  intros Hk. unfold readSprite. destruct (c.1 !! k); [done|].
  by rewrite bool_decide_eq_false_2.
Qed.

Lemma scanSprite_registers c n k f :
  scanSprite (c, n) (k, f)
  = if registers (readSprite c k) k f
    then (assignSprite k (scannedSprite k f) c, S n) else (c, n).
Proof.
  unfold scanSprite, registers. fold (scannedSprite k f).
  destruct (match readSprite c k with Some _ => _ | None => false end); simpl; [done|].
  by destruct (hasRequiredSprites _).
Qed.

Lemma foldl_scanSprite_lookup (l : list (string * Folder)) : ∀ c n,
  NoDup l.*1 →
  ∀ k, readSprite (foldl scanSprite (c, n) l).1 k
       = scanEntry (readSprite c k) k ((list_to_map l : gmap string Folder) !! k).
Proof.
  induction l as [|[k0 f0] l IH]; intros c n Hnd k; [done|].
  rewrite fmap_cons in Hnd. apply NoDup_cons in Hnd as [Hk0 Hnd].
  change (foldl scanSprite (c, n) ((k0, f0) :: l))
    with (foldl scanSprite (scanSprite (c, n) (k0, f0)) l).
  rewrite scanSprite_registers. rewrite list_to_map_cons.
  destruct (decide (k = k0)) as [->|Hne].
  - rewrite lookup_insert_eq.
    assert (Hnone : (list_to_map l : gmap string Folder) !! k0 = None)
      by (by apply not_elem_of_list_to_map_1).
    destruct (registers (readSprite c k0) k0 f0) eqn:Hr; rewrite IH by done;
      rewrite Hnone; simpl; rewrite ?Hr; [|done].
    rewrite readSprite_assignSprite. by rewrite decide_True.
  - rewrite lookup_insert_ne by done.
    destruct (registers (readSprite c k0) k0 f0); rewrite IH by done; [|done].
    rewrite readSprite_assignSprite. by rewrite decide_False.
Qed.

Lemma foldl_scanSprite_count_le (l : list (string * Folder)) : ∀ c n,
  (n ≤ (foldl scanSprite (c, n) l).2)%nat.
Proof.
  induction l as [|[k0 f0] l IH]; intros c n; [done|].
  change (foldl scanSprite (c, n) ((k0, f0) :: l))
    with (foldl scanSprite (scanSprite (c, n) (k0, f0)) l).
  rewrite scanSprite_registers. destruct (registers _ _ _).
  - specialize (IH (assignSprite k0 (scannedSprite k0 f0) c) (S n)). lia.
  - apply IH.
Qed.

Lemma foldl_scanSprite_count (l : list (string * Folder)) : ∀ c n,
  NoDup l.*1 →
  (foldl scanSprite (c, n) l).2 = n ↔
  ∀ k f, (k, f) ∈ l → registers (readSprite c k) k f = false.
Proof.
  induction l as [|[k0 f0] l IH]; intros c n Hnd.
  { split; [|done]. intros _ k f Hin. by apply not_elem_of_nil in Hin. }
  rewrite fmap_cons in Hnd. apply NoDup_cons in Hnd as [Hk0 Hnd].
  change (foldl scanSprite (c, n) ((k0, f0) :: l))
    with (foldl scanSprite (scanSprite (c, n) (k0, f0)) l).
  rewrite scanSprite_registers.
  destruct (registers (readSprite c k0) k0 f0) eqn:Hr.
  - split.
    + intros Heq.
      pose proof (foldl_scanSprite_count_le l
                    (assignSprite k0 (scannedSprite k0 f0) c) (S n)).
      lia.
    + intros Hall. rewrite (Hall k0 f0) in Hr; [done|left].
  - rewrite (IH c n Hnd). split.
    + intros Hall k f Hin. apply elem_of_cons in Hin as [[= -> ->]|Hin]; auto.
    + intros Hall k f Hin. apply Hall. by right.
Qed.

(** A scan that counts no sprite has assigned none. *)
Lemma foldl_scanSprite_idle (l : list (string * Folder)) : ∀ c n,
  (foldl scanSprite (c, n) l).2 = n → (foldl scanSprite (c, n) l).1 = c.
Proof.
  induction l as [|[k0 f0] l IH]; intros c n; [done|].
  change (foldl scanSprite (c, n) ((k0, f0) :: l))
    with (foldl scanSprite (scanSprite (c, n) (k0, f0)) l).
  rewrite scanSprite_registers. destruct (registers _ _ _).
  - intros Heq.
    pose proof (foldl_scanSprite_count_le l
                  (assignSprite k0 (scannedSprite k0 f0) c) (S n)).
    lia.
  - apply IH.
Qed.

Lemma catalog_set_catalog c w : catalog (set_catalog c w) = c.
Proof. by destruct c. Qed.

Lemma set_catalog_catalog w : set_catalog (catalog w) w = w.
Proof. by destruct w. Qed.

Lemma scanSpritesDirectory_run w :
  scanSpritesDirectory w
  = (Return tt,
     match fs w with
     | None => w
     | Some spriteFolders =>
         let st := foldl scanSprite (catalog w, 0%nat) (map_to_list spriteFolders) in
         if (0 <? st.2)%nat
         then set_spritesDbFile (spritesDbFile w ++ [st.1.1]) (set_catalog st.1 w)
         else set_catalog st.1 w
     end).
Proof.
  unfold scanSpritesDirectory. run_monad. destruct (fs w); [|done].
  destruct (foldl _ _ _) as [c n]. simpl. unfold saveSpriteDatabase. run_monad.
  by destruct (0 <? n)%nat.
Qed.

Lemma scan_lookup w (k : string) :
  readSprite (catalog (exec scanSpritesDirectory w)) k
  = match default ∅ (fs w) !! k with
    | Some folder =>
        if match readSprite (catalog w) k with
           | Some existingSprite =>
               bool_decide (lastModified existingSprite < mtime folder)%Z
           | None => true
           end
           && (bool_decide (scanDirection folder k "north" ≠ [])
               && bool_decide (scanDirection folder k "south" ≠ [])
               && bool_decide (scanDirection folder k "east" ≠ []))
        then Some (scannedSprite k folder)
        else readSprite (catalog w) k
    | None => readSprite (catalog w) k
    end.
Proof.
  rewrite scanSpritesDirectory_catalog. destruct (fs w) as [dir|]; simpl; [|done].
  rewrite foldl_scanSprite_lookup by apply NoDup_fst_map_to_list.
  rewrite list_to_map_to_list. unfold scanEntry.
  destruct (dir !! k) as [folder|]; [|done].
  apply (f_equal (λ b : bool, if b then _ else _)).
  unfold registers, hasRequiredSprites. simpl. f_equal.
  - destruct (readSprite (catalog w) k) as [e|]; simpl; [|done].
    repeat case_bool_decide; try done; lia.
  - rewrite andb_true_r. rewrite !andb_assoc.
    destruct (scanDirection folder k "north"), (scanDirection folder k "south"),
      (scanDirection folder k "east"); done.
Qed.

(** X16. The catalog after a scan, name by name.  The sprite that
    [spriteDatabase[k]] reads depends on the one it read before and on the
    folder of that name only: it becomes the sprite scanned from the folder
    when there is a folder, no sprite was read under that name or one older
    than the folder, and the folder has a frame for each of north, south and
    east; otherwise it is what it was (in particular the scan deletes
    nothing).  For every name but ["__proto__"] the sprite read is the
    entry of the catalog; a folder named ["__proto__"] is registered as the
    prototype of the catalog object and, unless the catalog had an entry of
    that name, leaves it without one. *)
Theorem scan_entry_by_name w (k : string) :
  readSprite (catalog (exec scanSpritesDirectory w)) k
  = match default ∅ (fs w) !! k with
    | Some folder =>
        if match readSprite (catalog w) k with
           | Some existingSprite =>
               bool_decide (lastModified existingSprite < mtime folder)%Z
           | None => true
           end
           && (bool_decide (scanDirection folder k "north" ≠ [])
               && bool_decide (scanDirection folder k "south" ≠ [])
               && bool_decide (scanDirection folder k "east" ≠ []))
        then Some (scannedSprite k folder)
        else readSprite (catalog w) k
    | None => readSprite (catalog w) k
    end ∧
  (k ≠ "__proto__"%string →
   readSprite (catalog w) k = spriteDatabase w !! k ∧
   readSprite (catalog (exec scanSpritesDirectory w)) k
   = spriteDatabase (exec scanSpritesDirectory w) !! k) ∧
  (k = "__proto__"%string → spriteDatabase w !! k = None →
   readSprite (catalog w) k = spritePrototype w ∧
   readSprite (catalog (exec scanSpritesDirectory w)) k
   = spritePrototype (exec scanSpritesDirectory w) ∧
   spriteDatabase (exec scanSpritesDirectory w) !! k = None).
Proof.
  split; [apply scan_lookup|]. split.
  - intros Hk. split; by apply readSprite_own.
  - intros -> Hnone.
    assert (Hown : ∀ (l : list (string * Folder)) c n,
              c.1 !! "__proto__" = None →
              (foldl scanSprite (c, n) l).1.1 !! "__proto__" = None).
    { induction l as [|[k0 f0] l IH]; intros c n Hc; [done|].
      change (foldl scanSprite (c, n) ((k0, f0) :: l))
        with (foldl scanSprite (scanSprite (c, n) (k0, f0)) l).
      rewrite scanSprite_registers. destruct (registers _ _ _); [|by apply IH].
      apply IH. rewrite assignSprite_spec. case_bool_decide as Hd; simpl; [done|].
      rewrite lookup_insert_ne; [done|]. intros ->. by apply Hd. }
    assert (Hafter : spriteDatabase (exec scanSpritesDirectory w) !! "__proto__" = None).
    { change (spriteDatabase (exec scanSpritesDirectory w))
        with (catalog (exec scanSpritesDirectory w)).1.
      rewrite scanSpritesDirectory_catalog. destruct (fs w); [|done].
      by apply Hown. }
    unfold readSprite, catalog. simpl. rewrite Hnone, Hafter. done.
Qed.

Example scan_entry_pumpkin :
  spriteDatabase (exec scanSpritesDirectory furnished) !! "pumpkin"
  = Some (scannedSprite "pumpkin"
            {| mtime := 42;
               files := {["north_1.png"%string := "AAAA"%string;
                          "south_1.png"%string := "BBBB"%string;
                          "east_1.png"%string := "CCCC"%string;
                          "east_3.png"%string := "DDDD"%string]} |}).
Proof. vm_compute. reflexivity. Qed.

(** A complete folder named ["__proto__"]: the scan counts it and persists,
    but the catalog has no entry after it and the persisted snapshot is
    empty; the scanned sprite is the prototype of the catalog object. *)
Example scan_folder_named_proto :
  let w' := exec scanSpritesDirectory cursed in
  spriteDatabase w' = ∅ ∧ spritesDbFile w' = [∅] ∧
  spritePrototype w'
  = Some (scannedSprite "__proto__"
            {| mtime := 42;
               files := {["north_1.png"%string := "AAAA"%string;
                          "south_1.png"%string := "BBBB"%string;
                          "east_1.png"%string := "CCCC"%string]} |}).
Proof. repeat split; vm_compute; reflexivity. Qed.

Lemma registers_scanEntry existing k f :
  registers (scanEntry existing k (Some f)) k f = false.
Proof.
  unfold scanEntry. destruct (registers existing k f) eqn:Hr; [|done].
  unfold registers. simpl. by rewrite bool_decide_eq_true_2.
Qed.

Lemma scanned_catalog_settled (dir : gmap string Folder) c k f :
  dir !! k = Some f →
  registers (readSprite (foldl scanSprite (c, 0%nat) (map_to_list dir)).1 k) k f
  = false.
Proof.
  intros Hk. rewrite foldl_scanSprite_lookup by apply NoDup_fst_map_to_list.
  rewrite list_to_map_to_list, Hk. apply registers_scanEntry.
Qed.

(** X17. Scanning is idempotent: a second scan of the same asset store, right
    after a first one, leaves the whole state as the first one left it;
    it registers nothing and persists nothing. *)
Theorem scan_twice_is_scan_once w :
  exec scanSpritesDirectory (exec scanSpritesDirectory w) = exec scanSpritesDirectory w.
Proof.
  unfold exec at 1. rewrite scanSpritesDirectory_run. simpl.
  assert (Hfs : fs (exec scanSpritesDirectory w) = fs w).
  { unfold exec. rewrite scanSpritesDirectory_run. simpl.
    destruct (fs w) eqn:E; [|done]. by destruct (0 <? _)%nat. }
  rewrite Hfs. destruct (fs w) as [dir|] eqn:Hdir; [|done].
  assert (Hdb : catalog (exec scanSpritesDirectory w)
                = (foldl scanSprite (catalog w, 0%nat) (map_to_list dir)).1).
  { by rewrite scanSpritesDirectory_catalog, Hdir. }
  set (c1 := catalog (exec scanSpritesDirectory w)) in *.
  assert (Hcount : (foldl scanSprite (c1, 0%nat) (map_to_list dir)).2 = 0%nat).
  { apply foldl_scanSprite_count; [apply NoDup_fst_map_to_list|].
    intros k f Hin. apply elem_of_map_to_list in Hin. rewrite Hdb.
    by apply scanned_catalog_settled. }
  rewrite Hcount, (foldl_scanSprite_idle _ _ _ Hcount). simpl.
  apply set_catalog_catalog.
Qed.

Lemma scan_effect w :
  result scanSpritesDirectory w = Return tt ∧
  players (exec scanSpritesDirectory w) = players w ∧
  connections (exec scanSpritesDirectory w) = connections w ∧
  fs (exec scanSpritesDirectory w) = fs w ∧
  outbox (exec scanSpritesDirectory w) = outbox w ∧
  (catalog (exec scanSpritesDirectory w) = catalog w ∧
   spritesDbFile (exec scanSpritesDirectory w) = spritesDbFile w
   ∨
   catalog (exec scanSpritesDirectory w) ≠ catalog w ∧
   spritesDbFile (exec scanSpritesDirectory w)
   = spritesDbFile w ++ [spriteDatabase (exec scanSpritesDirectory w)]).
Proof.
  unfold result, exec. rewrite scanSpritesDirectory_run. simpl.
  destruct (fs w) as [dir|] eqn:Hdir.
  2:{ repeat (split; [done|]). by left. }
  set (st := foldl scanSprite (catalog w, 0%nat) (map_to_list dir)).
  simpl. destruct (0 <? st.2)%nat eqn:Hpos; simpl; repeat (split; [done|]).
  - right. split; [|done].
    change (catalog (set_spritesDbFile _ (set_catalog st.1 w)))
      with (catalog (set_catalog st.1 w)).
    rewrite catalog_set_catalog. intros Heq.
    apply Nat.ltb_lt in Hpos.
    assert (Hall : st.2 = 0%nat); [|lia].
    apply foldl_scanSprite_count; [apply NoDup_fst_map_to_list|].
    intros k f Hin. apply elem_of_map_to_list in Hin.
    rewrite <- Heq. by apply scanned_catalog_settled.
  - apply Nat.ltb_ge in Hpos. assert (Hz : st.2 = 0%nat) by lia.
    left. split; [|done]. rewrite catalog_set_catalog.
    by apply foldl_scanSprite_idle.
Qed.

(** X18. A scan is silent and touches the catalog only: the registry, the
    sessions, the asset store and the outbox are as they were (no session
    is told of a sprite found on disk), and a snapshot is persisted exactly
    when the scan changed the catalog object, in its entries or in its
    prototype; that snapshot holds the entries the catalog has after the
    scan. *)
Theorem scan_is_silent_and_persists_changes w :
  result scanSpritesDirectory w = Return tt ∧
  players (exec scanSpritesDirectory w) = players w ∧
  connections (exec scanSpritesDirectory w) = connections w ∧
  fs (exec scanSpritesDirectory w) = fs w ∧
  outbox (exec scanSpritesDirectory w) = outbox w ∧
  ((spriteDatabase (exec scanSpritesDirectory w),
    spritePrototype (exec scanSpritesDirectory w))
   = (spriteDatabase w, spritePrototype w) ∧
   spritesDbFile (exec scanSpritesDirectory w) = spritesDbFile w
   ∨
   (spriteDatabase (exec scanSpritesDirectory w),
    spritePrototype (exec scanSpritesDirectory w))
   ≠ (spriteDatabase w, spritePrototype w) ∧
   spritesDbFile (exec scanSpritesDirectory w)
   = spritesDbFile w ++ [spriteDatabase (exec scanSpritesDirectory w)]).
Proof. apply scan_effect. Qed.

(** X19. On a store that has no sprite directory, initialisation creates the
    directory with the empty folder of the default sprite, and the scan
    that follows registers nothing: the catalog is as it was, so that it
    has a default sprite only if it had one before. *)
Theorem fresh_store_registers_no_default now w :
  fs w = None →
  fs (exec scanSpritesDirectory (exec (initializeSpritesDirectory now) w))
    = Some {["default"%string := {| mtime := now; files := ∅ |}]} ∧
  spriteDatabase (exec scanSpritesDirectory (exec (initializeSpritesDirectory now) w))
    = spriteDatabase w ∧
  spritePrototype (exec scanSpritesDirectory (exec (initializeSpritesDirectory now) w))
    = spritePrototype w ∧
  spritesDbFile (exec scanSpritesDirectory (exec (initializeSpritesDirectory now) w))
    = spritesDbFile w.
Proof.
  intros Hfs.
  set (w1 := exec (initializeSpritesDirectory now) w).
  assert (H1 : w1 = set_fs (Some {["default"%string := {| mtime := now; files := ∅ |}]}) w).
  { unfold w1, exec, initializeSpritesDirectory, modify. simpl. by rewrite Hfs. }
  destruct (scan_effect w1) as (_ & _ & _ & Hfs1 & _ & Hsave).
  assert (Hdb : catalog (exec scanSpritesDirectory w1) = catalog w1).
  { rewrite scanSpritesDirectory_catalog. rewrite H1. cbn [fs set_fs].
    rewrite map_to_list_singleton. cbn [foldl].
    rewrite scanSprite_registers. unfold registers. cbn [fst].
    assert (hasRequiredSprites
              (frames (scannedSprite "default" {| mtime := now; files := ∅ |}))
            = false) as -> by reflexivity.
    by rewrite andb_false_r. }
  rewrite Hfs1. split; [by rewrite H1|].
  change (spriteDatabase (exec scanSpritesDirectory w1))
    with (catalog (exec scanSpritesDirectory w1)).1.
  change (spritePrototype (exec scanSpritesDirectory w1))
    with (catalog (exec scanSpritesDirectory w1)).2.
  rewrite Hdb. split; [by rewrite H1|]. split; [by rewrite H1|].
  destruct Hsave as [[_ ->]|[Hne _]]; [by rewrite H1|done].
Qed.

Lemma fresh_store_registers_no_default_witness :
  fs lobby = None ∧
  fs (exec scanSpritesDirectory (exec (initializeSpritesDirectory 7) lobby))
    = Some {["default"%string := {| mtime := 7; files := ∅ |}]} ∧
  spriteDatabase (exec scanSpritesDirectory (exec (initializeSpritesDirectory 7) lobby))
    = spriteDatabase lobby ∧
  spritePrototype (exec scanSpritesDirectory (exec (initializeSpritesDirectory 7) lobby))
    = spritePrototype lobby ∧
  spritesDbFile (exec scanSpritesDirectory (exec (initializeSpritesDirectory 7) lobby))
    = spritesDbFile lobby.
Proof.
  split; [reflexivity|].
  apply (fresh_store_registers_no_default 7 lobby). reflexivity.
Defined.

(** ** Dispatch *)

Lemma sendResponse_same playerId act success data err w :
  ∃ out, sendResponse playerId act success data err w = (Return tt, set_outbox out w).
Proof.
  rewrite sendResponse_run. case_bool_decide; eexists; [done|].
  by rewrite set_outbox_same.
Qed.

(** X20. No message makes the message handler throw: whatever arrives, from
    any session, in any state, [onMessage] returns normally. *)
Theorem onMessage_never_throws rx ry now playerId message w :
  result (onMessage rx ry now playerId message) w = Return tt.
Proof.
  unfold result, onMessage, try_catch.
  match goal with |- context [match ?b w with _ => _ end] => destruct (b w) as [[[]|e] w1] end;
    simpl; [done|].
  by rewrite sendResponse_run.
Qed.

Lemma handlePlayerMove_step now playerId movement w :
  ∀ rx ry, registryStep rx ry now playerId (players w)
             (players (exec (handlePlayerMove now playerId movement) w)).
Proof.
  intros rx ry. unfold exec.
  destruct (players w !! playerId) as [player|] eqn:Hp.
  2:{ left. by rewrite handlePlayerMove_absent_run. }
  destruct movement as [movement|].
  2:{ left. unfold handlePlayerMove. run_monad. by rewrite Hp. }
  destruct (Movement.stop movement) eqn:Hstop.
  { right. rewrite (handlePlayerMove_stop_run _ _ _ _ _ Hp Hstop). simpl.
    exists (stopped player). rewrite Hp. split; [constructor|done]. }
  destruct (truthyDirection movement) as [direction|] eqn:Hdir.
  { right. rewrite (handlePlayerMove_direction_run _ _ _ _ _ _ Hp Hstop Hdir). simpl.
    exists (animated now (keyStep direction player)). rewrite Hp.
    split; [constructor|done]. }
  destruct (Movement.x movement) as [mx|] eqn:Hmx.
  2:{ left. rewrite (handlePlayerMove_nothing_run _ _ _ _ _ Hp Hstop Hdir); auto. }
  destruct (Movement.y movement) as [my|] eqn:Hmy.
  2:{ left. rewrite (handlePlayerMove_nothing_run _ _ _ _ _ Hp Hstop Hdir); auto. }
  right. rewrite (handlePlayerMove_click_run _ _ _ _ _ _ _ Hp Hstop Hdir Hmx Hmy). simpl.
  exists (aimed mx my player). rewrite Hp. split; [constructor|done].
Qed.

Lemma handlePlayerJoin_step rx ry now playerId playerInfo w :
  registryStep rx ry now playerId (players w)
    (players (exec (handlePlayerJoin rx ry now playerId playerInfo) w)).
Proof.
  unfold exec. destruct (players w !! playerId) as [player|] eqn:Hp.
  { left. by rewrite (handlePlayerJoin_existing_run _ _ _ _ _ _ _ Hp). }
  destruct playerInfo as [info|].
  - right. rewrite (handlePlayerJoin_new_run _ _ _ _ _ _ Hp). simpl.
    eexists. rewrite Hp. split; [constructor|done].
  - left. by rewrite handlePlayerJoin_undefined_run.
Qed.

Lemma handlePlayerChangeSprite_step rx ry now playerId spriteName' w :
  registryStep rx ry now playerId (players w)
    (players (exec (handlePlayerChangeSprite playerId spriteName') w)).
Proof.
  unfold exec.
  destruct (players w !! playerId) as [player|] eqn:Hp.
  2:{ left. rewrite handlePlayerChangeSprite_fail_run by (by left).
      by case_bool_decide. }
  destruct spriteName' as [s|].
  2:{ left. rewrite handlePlayerChangeSprite_fail_run by (by right).
      by case_bool_decide. }
  destruct (decide (s = EmptyString)) as [->|Hs].
  { left. rewrite handlePlayerChangeSprite_fail_run.
    - by case_bool_decide.
    - right. intros ? [= <-]. by left. }
  destruct (readsTruthy (catalog w) s) eqn:Hdb.
  - right. rewrite (handlePlayerChangeSprite_ok_run _ _ _ _ Hp Hs Hdb).
    simpl. exists (dressed s player). rewrite Hp. split; [constructor|done].
  - left. rewrite handlePlayerChangeSprite_fail_run.
    + by case_bool_decide.
    + right. intros ? [= <-]. by right.
Qed.

Lemma addCustomSprite_players now spriteName' imageData w :
  players (exec (addCustomSprite now spriteName' imageData) w) = players w.
Proof.
  unfold exec. destruct spriteName' as [n|]; [|done].
  destruct imageData as [entries|].
  2:{ unfold addCustomSprite. run_monad.
      by destruct (mkdirIfMissing_run now n w) as [f0 ->]. }
  destruct (decodeFails entries) eqn:Hfail.
  - by destruct (addCustomSprite_decode_failure now n entries w Hfail) as [f ->].
  - by destruct (addCustomSprite_success_run now n entries w Hfail) as (s & f & -> & _).
Qed.

Ltac string_switch a :=
  repeat (destruct a as [|[[] [] [] [] [] [] [] []] a]; try reflexivity).

Lemma handleSpriteMessage_dispatch now playerId data :
  handleSpriteMessage now playerId data
  = match action data with
    | Some a =>
        if String.eqb a "list" then
          w ← get;
          sendResponse playerId "list" true (SpritesData (spriteDatabase w)) None
        else if String.eqb a "upload" then
          try_catch
            (newSprite ← addCustomSprite now (spriteName data) (spriteFrames data);
             sendResponse playerId "upload" true (SpriteData newSprite) None)
            (λ message, sendResponse playerId "upload" false NoData (Some message))
        else sendResponse playerId (actionOrUnknown data) false NoData
               (Some "Unknown sprite action"%string)
    | None => sendResponse playerId (actionOrUnknown data) false NoData
                (Some "Unknown sprite action"%string)
    end.
Proof.
  unfold handleSpriteMessage. generalize (actionOrUnknown data).
  destruct (action data) as [a|]; [|done]. intros u. string_switch a.
Qed.

Lemma handlePlayerMessage_dispatch rx ry now playerId data :
  handlePlayerMessage rx ry now playerId data
  = match action data with
    | Some a =>
        if String.eqb a "join" then handlePlayerJoin rx ry now playerId (playerInfo data)
        else if String.eqb a "move" then handlePlayerMove now playerId (movement data)
        else if String.eqb a "change_sprite"
             then handlePlayerChangeSprite playerId (spriteName data)
        else sendResponse playerId (actionOrUnknown data) false NoData
               (Some "Unknown player action"%string)
    | None => sendResponse playerId (actionOrUnknown data) false NoData
                (Some "Unknown player action"%string)
    end.
Proof.
  unfold handlePlayerMessage. generalize (actionOrUnknown data).
  destruct (action data) as [a|]; [|done]. intros u. string_switch a.
Qed.

Lemma onMessage_dispatch rx ry now playerId data :
  onMessage rx ry now playerId (Some data)
  = try_catch
      match type data with
      | Some t =>
          if String.eqb t "sprite" then handleSpriteMessage now playerId data
          else if String.eqb t "player" then handlePlayerMessage rx ry now playerId data
          else sendResponse playerId "unknown" false NoData
                 (Some ("Unknown message type: " +:+ t))
      | None => sendResponse playerId "unknown" false NoData
                  (Some "Unknown message type: undefined"%string)
      end
      (λ _, sendResponse playerId "error" false NoData
              (Some "Invalid message format"%string)).
Proof.
  unfold onMessage. f_equal.
  generalize (handleSpriteMessage now playerId data).
  generalize (handlePlayerMessage rx ry now playerId data).
  destruct (type data) as [t|]; [|done]. intros hp hs. string_switch t.
Qed.

Lemma handleSpriteMessage_players now playerId data w :
  players (exec (handleSpriteMessage now playerId data) w) = players w.
Proof.
  unfold exec. rewrite handleSpriteMessage_dispatch.
  assert (Hresp : ∀ act success d err w1,
            players (sendResponse playerId act success d err w1).2 = players w1).
  { intros. by destruct (sendResponse_same playerId act success d err w1) as [out ->]. }
  destruct (action data) as [a|]; [|apply Hresp].
  destruct (String.eqb a "list"); [run_monad; apply Hresp|].
  destruct (String.eqb a "upload"); [|apply Hresp].
  unfold try_catch. run_monad.
  pose proof (addCustomSprite_players now (spriteName data) (spriteFrames data) w) as Hk.
  unfold exec in Hk.
  destruct (addCustomSprite now (spriteName data) (spriteFrames data) w) as [[s|e] w1];
    simpl in Hk; lazy beta iota.
  - by destruct (sendResponse_same playerId "upload" true (SpriteData s) None w1)
      as [out ->].
  - by rewrite Hresp.
Qed.

Lemma try_catch_response_players (body : M unit) playerId act err w :
  players (exec (try_catch body (λ _, sendResponse playerId act false NoData err)) w)
  = players (exec body w).
Proof.
  unfold exec, try_catch. destruct (body w) as [[[]|e] w1]; simpl; [done|].
  by destruct (sendResponse_same playerId act false NoData err w1) as [out ->].
Qed.

Lemma sendResponse_players playerId act success d err w :
  players (exec (sendResponse playerId act success d err) w) = players w.
Proof.
  unfold exec. by destruct (sendResponse_same playerId act success d err w) as [out ->].
Qed.

Lemma handlePlayerMessage_step rx ry now playerId data w :
  registryStep rx ry now playerId (players w)
    (players (exec (handlePlayerMessage rx ry now playerId data) w)).
Proof.
  rewrite handlePlayerMessage_dispatch.
  destruct (action data) as [a|]; [|left; apply sendResponse_players].
  destruct (String.eqb a "join"); [apply handlePlayerJoin_step|].
  destruct (String.eqb a "move"); [apply handlePlayerMove_step|].
  destruct (String.eqb a "change_sprite"); [apply handlePlayerChangeSprite_step|].
  left. apply sendResponse_players.
Qed.

Lemma onMessage_step rx ry now playerId message w :
  registryStep rx ry now playerId (players w)
    (players (exec (onMessage rx ry now playerId message) w)).
Proof.
  destruct message as [data|].
  2:{ left. unfold onMessage. by rewrite try_catch_response_players. }
  rewrite onMessage_dispatch, try_catch_response_players.
  destruct (type data) as [t|]; [|left; apply sendResponse_players].
  destruct (String.eqb t "sprite"); [left; apply handleSpriteMessage_players|].
  destruct (String.eqb t "player"); [apply handlePlayerMessage_step|].
  left. apply sendResponse_players.
Qed.

(** X21. A message touches at most the record of its own session, and never
    removes one: after any message the record of every other id is what
    it was, and the session that was in the registry still is; the only
    ways its record changes are a join (from no record), a stop, a
    direction step, a click target and a change of sprite. *)
Theorem message_touches_own_record_only rx ry now playerId message w :
  (∀ other, other ≠ playerId →
     players (exec (onMessage rx ry now playerId message) w) !! other
     = players w !! other) ∧
  (is_Some (players w !! playerId) →
   is_Some (players (exec (onMessage rx ry now playerId message) w) !! playerId)) ∧
  (players (exec (onMessage rx ry now playerId message) w) !! playerId
   = players w !! playerId
   ∨ ∃ player',
       playerStep rx ry now playerId (players w !! playerId) player' ∧
       players (exec (onMessage rx ry now playerId message) w) !! playerId
       = Some player').
Proof.
  destruct (onMessage_step rx ry now playerId message w) as [->|(p' & Hstep & ->)].
  - split; [done|]. split; [done|]. by left.
  - split; [intros other Hne; by rewrite lookup_insert_ne|].
    rewrite lookup_insert_eq. split; [by eexists|]. right. by exists p'.
Qed.

(** ** Invariants of the registry *)

Section RegistryInvariant.
(** A property of the records that every step of a record and every tick
    keeps is kept by every message and by the game loop. *)
Variable I : string → Player → Prop.
Variables rx ry : R.
Hypothesis I_step : ∀ now playerId old player',
  playerStep rx ry now playerId old player' →
  (∀ player, old = Some player → I playerId player) → I playerId player'.
Hypothesis I_tick : ∀ now playerId player,
  I playerId player → I playerId (fst (tickPlayer now player)).

Lemma onMessage_keeps now playerId message w :
  everyPlayer I w → everyPlayer I (exec (onMessage rx ry now playerId message) w).
Proof.
  intros Hw k p.
  destruct (onMessage_step rx ry now playerId message w) as [->|(p' & Hstep & ->)];
    [apply Hw|].
  rewrite lookup_insert. case_decide as Hk; [|apply Hw].
  intros [= <-]. subst k. apply (I_step _ _ _ _ Hstep). intros q Hq. by apply Hw.
Qed.

Lemma gameLoop_keeps now w :
  everyPlayer I w → everyPlayer I (exec (gameLoop now) w).
Proof.
  intros Hw k p. rewrite gameLoop_players, lookup_fmap.
  destruct (players w !! k) as [q|] eqn:Hq; [|done]. simpl. intros [= <-].
  by apply I_tick, Hw.
Qed.
End RegistryInvariant.

Lemma advanceFrame_inRange now player : frameInRange (advanceFrame now player).
Proof.
  unfold frameInRange, advanceFrame. simpl.
  pose proof (Z.mod_pos_bound (animationFrame player + 1) 3). lia.
Qed.

Lemma wellFormed_step rx ry now playerId old player' :
  playerStep rx ry now playerId old player' →
  (∀ player, old = Some player → wellFormed playerId player) →
  wellFormed playerId player'.
Proof.
  intros Hstep Hold.
  destruct Hstep as [s u|p|d p|mx my p|s p];
    try (destruct (Hold p eq_refl) as (Hid & Hfr & Htp)).
  - split; [done|]. split; [unfold frameInRange; simpl; lia|done].
  - split; [done|]. split; [unfold frameInRange; simpl; lia|done].
  - destruct (animated_identity now (keyStep d p)) as (Hi & _).
    destruct (animated_fields now (keyStep d p)) as (_ & _ & _ & _ & HX & HY).
    assert (Hk : id (keyStep d p) = id p ∧ animationFrame (keyStep d p) = animationFrame p
                 ∧ targetX (keyStep d p) = None ∧ targetY (keyStep d p) = None).
    { unfold keyStep.
      by repeat match goal with |- context [if ?c then _ else _] => destruct c end. }
    destruct Hk as (Hk1 & Hk2 & Hk3 & Hk4).
    split; [congruence|]. split.
    + unfold animated. destruct (200 <? _)%Z; [apply advanceFrame_inRange|].
      unfold frameInRange. rewrite Hk2. apply Hfr.
    + unfold targetPaired. rewrite HX, HY, Hk3, Hk4. done.
  - split; [done|]. split; [done|]. unfold targetPaired. simpl. by split.
  - split; [done|]. split; [unfold frameInRange; simpl; lia|done].
Qed.

Lemma wellFormed_tick now playerId player :
  wellFormed playerId player → wellFormed playerId (fst (tickPlayer now player)).
Proof.
  intros (Hid & Hfr & Htp). unfold tickPlayer.
  destruct (targetX player) as [tX|] eqn:HX, (targetY player) as [tY|] eqn:HY.
  - unfold movePlayerTowards. destruct (Rle_dec _ 3).
    + simpl. split; [done|]. split; [unfold frameInRange; simpl; lia|done].
    + match goal with |- context [if ?c then advanceFrame _ ?p else _] =>
        change (if c then advanceFrame now p else p) with (animated now p);
        destruct (animated_identity now p) as (Hi & _);
        destruct (animated_fields now p) as (_ & _ & _ & _ & HX' & HY')
      end.
      cbv zeta. simpl fst. split; [by rewrite Hi|]. split.
      * unfold animated. destruct (200 <? _)%Z; [apply advanceFrame_inRange|done].
      * unfold targetPaired. rewrite HX', HY'. simpl. rewrite HX, HY. done.
  - destruct (_ && _); simpl; [|done].
    split; [done|]. split; [apply advanceFrame_inRange|exact Htp].
  - destruct (_ && _); simpl; [|done].
    split; [done|]. split; [apply advanceFrame_inRange|exact Htp].
  - destruct (_ && _); simpl; [|done].
    split; [done|]. split; [apply advanceFrame_inRange|exact Htp].
Qed.

(** X22. The registry stays well formed. If every record is stored under its
    own id, has its animation frame among 0, 1 and 2, and has its two
    target coordinates set together or not at all, then the same holds
    after any message of any session and after any tick. *)
Theorem registry_stays_well_formed w :
  everyPlayer wellFormed w →
  (∀ rx ry now playerId message,
     everyPlayer wellFormed (exec (onMessage rx ry now playerId message) w)) ∧
  (∀ now, everyPlayer wellFormed (exec (gameLoop now) w)).
Proof.
  intros Hw. split.
  - intros rx ry now playerId message.
    apply (onMessage_keeps wellFormed rx ry); [|done].
    intros. by eapply wellFormed_step.
  - intros now. apply gameLoop_keeps; [|done]. intros. by apply wellFormed_tick.
Qed.

Lemma town_well_formed : everyPlayer wellFormed town.
Proof.
  intros k p. unfold town. simpl. rewrite lookup_singleton_Some. intros [<- <-].
  split; [done|]. split; [unfold frameInRange; simpl; lia|done].
Qed.

Lemma registry_stays_well_formed_witness :
  everyPlayer wellFormed town ∧
  (∀ rx ry now playerId message,
     everyPlayer wellFormed (exec (onMessage rx ry now playerId message) town)) ∧
  (∀ now, everyPlayer wellFormed (exec (gameLoop now) town)).
Proof.
  split; [exact town_well_formed|].
  apply (registry_stays_well_formed town). exact town_well_formed.
Defined.

(** ** Requests that are refused *)

Lemma try_catch_return (body : M unit) (handler : string → M unit) w w1 :
  body w = (Return tt, w1) → try_catch body handler w = (Return tt, w1).
Proof. intros H. unfold try_catch. by rewrite H. Qed.

Lemma eqb_false_of_ne (a b : string) : a ≠ b → String.eqb a b = false.
Proof. intros H. by destruct (String.eqb_spec a b). Qed.

(** X24. A message of an unknown type, or with an action its handler does not
    know, is refused and changes nothing: the handler returns normally,
    the state is the one before but for the outbox, and the only message
    is the failure response to the open session of the sender, with the
    action echoed (["unknown"] when there is none) and the error that
    names what was not recognised. *)
Theorem unrecognised_is_refused rx ry now playerId data act err w :
  unrecognised data act err →
  onMessage rx ry now playerId (Some data) w
  = (Return tt,
     if bool_decide (connections w !! playerId = Some OPEN)
     then set_outbox (outbox w ++ [(playerId, Response act false NoData (Some err))]) w
     else w).
Proof.
  intros Hun. rewrite onMessage_dispatch. apply try_catch_return.
  destruct Hun as [data Hs Hp|data Ht Hl Hu|data Ht Hj Hm Hc].
  - destruct (type data) as [t|]; simpl; [|by rewrite sendResponse_run].
    rewrite !eqb_false_of_ne by congruence. by rewrite sendResponse_run.
  - rewrite Ht. simpl. rewrite handleSpriteMessage_dispatch.
    destruct (action data) as [a|]; [|by rewrite sendResponse_run].
    rewrite !eqb_false_of_ne by congruence. by rewrite sendResponse_run.
  - rewrite Ht. simpl. rewrite handlePlayerMessage_dispatch.
    destruct (action data) as [a|]; [|by rewrite sendResponse_run].
    rewrite !eqb_false_of_ne by congruence. by rewrite sendResponse_run.
Qed.

Lemma deleteRequest_unrecognised :
  unrecognised deleteRequest "delete" "Unknown sprite action".
Proof.
  apply (unknown_sprite_action deleteRequest); [reflexivity|discriminate|discriminate].
Qed.

Lemma unrecognised_is_refused_witness :
  unrecognised deleteRequest "delete" "Unknown sprite action" ∧
  onMessage 0.5 0.5 9 "alice" (Some deleteRequest) coven
  = (Return tt,
     if bool_decide (connections coven !! "alice" = Some OPEN)
     then set_outbox
            (outbox coven ++
             [("alice"%string,
               Response "delete" false NoData (Some "Unknown sprite action"%string))])
            coven
     else coven).
Proof.
  split; [exact deleteRequest_unrecognised|].
  apply (unrecognised_is_refused 0.5 0.5 9 "alice" deleteRequest "delete"
           "Unknown sprite action" coven). exact deleteRequest_unrecognised.
Defined.

Lemma handlePlayerMove_undefined_run now playerId player w :
  players w !! playerId = Some player →
  handlePlayerMove now playerId None w
  = (Throw "Cannot read properties of undefined (reading 'stop')", w).
Proof. intros Hp. unfold handlePlayerMove. run_monad. by rewrite Hp. Qed.

(** X25. A message whose handling throws is answered [Invalid message format]
    and changes nothing.  That is the case of a message that does not
    parse, of a first join that carries no [playerInfo], and of a move of
    a joined player that carries no [movement]: the state is the one
    before but for the outbox, and the only message is the failure
    response with action ["error"] to the open session of the sender. *)
Theorem malformed_is_answered rx ry now playerId message w :
  malformed w playerId message →
  onMessage rx ry now playerId message w
  = (Return tt,
     if bool_decide (connections w !! playerId = Some OPEN)
     then set_outbox
            (outbox w ++
             [(playerId,
               Response "error" false NoData (Some "Invalid message format"%string))]) w
     else w).
Proof.
  intros Hmal. destruct Hmal as [|data Ht Ha Hi Hp|data Ht Ha Hm [player Hp]].
  - unfold onMessage, try_catch, throw. by rewrite sendResponse_run.
  - rewrite onMessage_dispatch. unfold try_catch. rewrite Ht. simpl.
    rewrite handlePlayerMessage_dispatch, Ha. simpl. rewrite Hi.
    rewrite handlePlayerJoin_undefined_run by done. by rewrite sendResponse_run.
  - rewrite onMessage_dispatch. unfold try_catch. rewrite Ht. simpl.
    rewrite handlePlayerMessage_dispatch, Ha. simpl. rewrite Hm.
    rewrite (handlePlayerMove_undefined_run _ _ _ _ Hp). by rewrite sendResponse_run.
Qed.

Lemma emptyMove_malformed : malformed town "alice" (Some emptyMove).
Proof.
  apply (move_without_movement town "alice" emptyMove); try reflexivity. by eexists.
Qed.

Lemma malformed_is_answered_witness :
  malformed town "alice" (Some emptyMove) ∧
  onMessage 0.5 0.5 9 "alice" (Some emptyMove) town
  = (Return tt,
     if bool_decide (connections town !! "alice" = Some OPEN)
     then set_outbox
            (outbox town ++
             [("alice"%string,
               Response "error" false NoData (Some "Invalid message format"%string))])
            town
     else town).
Proof.
  split; [exact emptyMove_malformed|].
  apply (malformed_is_answered 0.5 0.5 9 "alice" (Some emptyMove) town).
  exact emptyMove_malformed.
Defined.

(** X26. A request for the list of sprites is answered with the whole catalog
    and changes nothing: the only message is the successful response to
    the open session of the requester, carrying the catalog as it is. *)
Theorem sprite_list_is_read_only rx ry now playerId data w :
  type data = Some "sprite"%string →
  action data = Some "list"%string →
  onMessage rx ry now playerId (Some data) w
  = (Return tt,
     if bool_decide (connections w !! playerId = Some OPEN)
     then set_outbox
            (outbox w ++
             [(playerId,
               Response "list" true (SpritesData (spriteDatabase w)) None)]) w
     else w).
Proof.
  intros Ht Ha. rewrite onMessage_dispatch. apply try_catch_return.
  rewrite Ht. simpl. rewrite handleSpriteMessage_dispatch, Ha. simpl.
  run_monad. by rewrite sendResponse_run.
Qed.

Lemma sprite_list_is_read_only_witness :
  type listRequest = Some "sprite"%string ∧
  action listRequest = Some "list"%string ∧
  onMessage 0.5 0.5 9 "bob" (Some listRequest) coven
  = (Return tt,
     if bool_decide (connections coven !! "bob" = Some OPEN)
     then set_outbox
            (outbox coven ++
             [("bob"%string,
               Response "list" true (SpritesData (spriteDatabase coven)) None)]) coven
     else coven).
Proof.
  split; [reflexivity|]. split; [reflexivity|].
  apply (sprite_list_is_read_only 0.5 0.5 9 "bob" listRequest coven); reflexivity.
Defined.

(** ** More on ticks *)

(** X27. A tick neither adds nor removes a player, and changes no id, sprite or
    name. *)
Theorem tick_keeps_the_players now w (playerId : string) :
  match players w !! playerId with
  | Some player =>
      ∃ player', players (exec (gameLoop now) w) !! playerId = Some player' ∧
                 id player' = id player ∧ sprite player' = sprite player ∧
                 username player' = username player
  | None => players (exec (gameLoop now) w) !! playerId = None
  end.
Proof.
  rewrite gameLoop_players, lookup_fmap.
  destruct (players w !! playerId) as [p|]; [|done]. simpl.
  eexists. split; [done|]. unfold tickPlayer.
  destruct (targetX p), (targetY p); try by destruct (_ && _).
  unfold movePlayerTowards. destruct (Rle_dec _ 3); simpl; [done|].
  by destruct (200 <? _)%Z.
Qed.

(** X28. Idle animation is never sent. In a world where no player has a target
    coordinate or is marked as moving, a tick sends nothing, whatever
    frames it advances, and leaves such a world. *)
Theorem idle_world_is_silent now w :
  (∀ playerId player, players w !! playerId = Some player →
     targetX player = None ∧ targetY player = None ∧ isMoving player = false) →
  outbox (exec (gameLoop now) w) = outbox w ∧
  (∀ playerId player, players (exec (gameLoop now) w) !! playerId = Some player →
     targetX player = None ∧ targetY player = None ∧ isMoving player = false).
Proof.
  intros Hidle.
  assert (Hafter : ∀ playerId player,
            players (exec (gameLoop now) w) !! playerId = Some player →
            targetX player = None ∧ targetY player = None ∧ isMoving player = false).
  { intros k p'. rewrite gameLoop_players, lookup_fmap.
    destruct (players w !! k) as [p|] eqn:Hp; [|done]. simpl. intros [= <-].
    destruct (Hidle k p Hp) as (HX & HY & Hm).
    rewrite (tickPlayer_no_target now p) by (by left).
    by destruct (_ && _). }
  split; [|exact Hafter].
  destruct (gameLoop_sent now w) as (sent & -> & Hsent).
  destruct sent as [|[session m] sent]; [by rewrite app_nil_r|].
  destruct (Hsent session m) as (_ & k & p' & Hp' & Hn & _); [left|].
  destruct (Hafter k p' Hp') as (HX & HY & Hm).
  unfold needsBroadcast in Hn. rewrite HX, HY, Hm in Hn.
  rewrite !bool_decide_eq_false_2 in Hn by (by intros [? ?]). done.
Qed.

Lemma idle_world_is_silent_witness :
  (∀ playerId player, players town !! playerId = Some player →
     targetX player = None ∧ targetY player = None ∧ isMoving player = false) ∧
  outbox (exec (gameLoop 5000) town) = outbox town ∧
  (∀ playerId player, players (exec (gameLoop 5000) town) !! playerId = Some player →
     targetX player = None ∧ targetY player = None ∧ isMoving player = false).
Proof.
  assert (Hidle : ∀ playerId player, players town !! playerId = Some player →
     targetX player = None ∧ targetY player = None ∧ isMoving player = false).
  { intros k p. unfold town. simpl. rewrite lookup_singleton_Some. by intros [_ <-]. }
  split; [exact Hidle|]. apply (idle_world_is_silent 5000 town). exact Hidle.
Defined.

(** * The movement model over binary64 *)

Import PrimFloat.

(** ** Pursuit *)







(** ** Bounds *)

(** C5, at the input where the code departs from it.  [Binary64.alice]
    stands in bounds at (100, 100).  The move command [{x: "abc", y: 10}]
    passes the test [movement.x !== undefined && movement.y !== undefined];
    ["abc" - 25] is [NaN], which [clamp] returns as it is, so the stored
    target is ([NaN], 0), not within [0 .. 4046]; the next tick computes a
    distance that is [NaN], takes the branch of a step, and leaves both
    coordinates of the position [NaN], out of every bound. *)
Theorem C5_click_that_is_not_a_number_breaks_bounds :
  Binary64.inBounds (Binary64.x Binary64.alice) = true ∧
  Binary64.inBounds (Binary64.y Binary64.alice) = true ∧
  Binary64.targetX (Binary64.aimed Binary64.NotNumeric (Binary64.Number 10) Binary64.alice)
  = Some nan ∧
  Binary64.targetY (Binary64.aimed Binary64.NotNumeric (Binary64.Number 10) Binary64.alice)
  = Some 0%float ∧
  Binary64.inBounds nan = false ∧
  Binary64.x (fst (Binary64.tickPlayer 50
                     (Binary64.aimed Binary64.NotNumeric (Binary64.Number 10)
                        Binary64.alice))) = nan ∧
  Binary64.y (fst (Binary64.tickPlayer 50
                     (Binary64.aimed Binary64.NotNumeric (Binary64.Number 10)
                        Binary64.alice))) = nan ∧
  Binary64.targetX (fst (Binary64.tickPlayer 50
                           (Binary64.aimed Binary64.NotNumeric (Binary64.Number 10)
                              Binary64.alice))) = Some nan.
Proof. repeat split; vm_compute; reflexivity. Qed.
